(** * Real-time epoch extraction: [mne_lsl/stream/epochs.py]

    A shallow embedding of [EpochsStream] (the acquisition step [_acquire],
    the pruning function [_prune_events], [connect], [get_data] and the
    connection-scoped state) together with the NumPy operations the code
    calls, and the properties of the specification checked against it.

    Conventions of the embedding.
    - A Python exception is a value of [exn]; fallible code lives in the
      error monad [result].
    - A [float] (a sample, a timestamp, [tmin], [tmax], [sfreq]) is the
      rational [Q] it equals. The code compares these numbers and moves
      them around, and in three places it computes with them:
      [tmax - tmin] in the constructor, [(tmax - tmin) * sfreq] in
      [connect] and [tmin * sfreq] in [_acquire]. These are computed as
      Python does, in IEEE 754 binary64 ([spec_float] of the Standard
      Library): each operand is taken as the binary64 nearest to it
      ([float64], which is the number itself when it is a binary64 value,
      as every number the program holds is), and each operation rounds.
    - [int64] values are [Z]; the two additions the code performs on
      them wrap around ([add64]).
    - An n-dimensional array is the nested list of its rows.
    - The functions of MNE the code calls ([_picks_to_idx], [pick_info],
      [_find_events], [_find_unique_events]) are parameters of the model. *)

From Stdlib Require Import String Ascii DecimalString.
From Stdlib Require Import List Sorted Permutation ZArith QArith Qround Bool Lia Lqa.
From Stdlib Require SpecFloat.
Import ListNotations.
Local Open Scope Z_scope.

(** ** Exceptions and the error monad *)

Inductive exn : Type :=
| ValueError
| IndexError
| TypeError
| AttributeError
| RuntimeError
| AssertionError
| OverflowError.

Inductive result (A : Type) : Type :=
| Ok (a : A)
| Raise (e : exn).
Arguments Ok {A} a.
Arguments Raise {A} e.

Definition bind {A B : Type} (m : result A) (f : A -> result B) : result B :=
  match m with
  | Ok a => f a
  | Raise e => Raise e
  end.

Notation "x <- m ;; k" := (bind m (fun x => k))
  (at level 61, m at next level, right associativity).

Fixpoint mapM {A B : Type} (f : A -> result B) (l : list A) : result (list B) :=
  match l with
  | [] => Ok []
  | a :: l' => b <- f a ;; bs <- mapM f l' ;; Ok (b :: bs)
  end.

(** ** Scalars *)

Definition Qltb (x y : Q) : bool := negb (Qle_bool y x).

(** [int64] addition. *)
Definition wrap64 (z : Z) : Z := (z + 2 ^ 63) mod 2 ^ 64 - 2 ^ 63.
Definition add64 (a b : Z) : Z := wrap64 (a + b).

(** Python's [round(x)] on a finite float of value [x]: to the nearest
    integer, ties to even. *)
Definition py_round (x : Q) : Z :=
  let f := Qfloor x in
  let r := (x - inject_Z f)%Q in
  if Qltb r (1 # 2) then f
  else if Qltb (1 # 2) r then f + 1
  else if Z.even f then f else f + 1.

(** [math.ceil] on a finite float of value [x]. *)
Definition ceil (x : Q) : Z := Qceiling x.

(** ** Arithmetic on [float]

    A [float] of Python is an IEEE 754 binary64 value: [spec_float] at
    precision 53 with exponents below 1024. *)

Definition binary64 : Type := SpecFloat.spec_float.

(** The integer [z] as an exact operand of a division. *)
Definition exact_Z (z : Z) : binary64 :=
  match z with
  | Z0 => SpecFloat.S754_zero false
  | Zpos p => SpecFloat.S754_finite false p 0
  | Zneg p => SpecFloat.S754_finite true p 0
  end.

(** The [float] of value [q]: the binary64 nearest to [q], ties to even,
    which is the quotient of its numerator by its denominator rounded
    once. A binary64 value is its own [float64]; a decimal literal such
    as [-0.2] is the [float64] of [-1/5]. *)
Definition float64 (q : Q) : binary64 :=
  SpecFloat.SFdiv 53 1024 (exact_Z (Qnum q)) (exact_Z (Zpos (Qden q))).

(** [x - y], [x * y] and [x < y] on [float]. *)
Definition float_sub (x y : binary64) : binary64 := SpecFloat.SFsub 53 1024 x y.
Definition float_mul (x y : binary64) : binary64 := SpecFloat.SFmul 53 1024 x y.
Definition float_ltb (x y : binary64) : bool := SpecFloat.SFltb x y.

(** The value of a [float] given to [round] or [math.ceil]: an infinity
    raises [OverflowError], a NaN raises [ValueError]. *)
Definition float_value (x : binary64) : result Q :=
  match x with
  | SpecFloat.S754_zero _ => Ok 0%Q
  | SpecFloat.S754_finite s m e =>
      Ok (inject_Z (if s then Zneg m else Zpos m) * Qpower 2 e)%Q
  | SpecFloat.S754_infinity _ => Raise OverflowError
  | SpecFloat.S754_nan => Raise ValueError
  end.

(** [ceil((tmax - tmin) * sfreq)]: the number of samples of an epoch. *)
Definition epoch_samples (tmin tmax sfreq : Q) : result Z :=
  x <- float_value (float_mul (float_sub (float64 tmax) (float64 tmin))
                              (float64 sfreq)) ;;
  Ok (ceil x).

(** The same as a length: 0 when the computation raises. *)
Definition epoch_length (tmin tmax sfreq : Q) : nat :=
  match epoch_samples tmin tmax sfreq with
  | Ok n => Z.to_nat n
  | Raise _ => 0%nat
  end.

(** [round(tmin * sfreq)]: the shift from the onset of an event to the
    first sample of its epoch. *)
Definition epoch_shift (tmin sfreq : Q) : result Z :=
  x <- float_value (float_mul (float64 tmin) (float64 sfreq)) ;;
  Ok (py_round x).

(** ** NumPy indexing *)

(** An integer index into an axis of length [n]: negative indices count
    from the end, anything outside [-n, n) raises [IndexError]. *)
Definition norm_index (n : nat) (i : Z) : result nat :=
  if (0 <=? i) && (i <? Z.of_nat n) then Ok (Z.to_nat i)
  else if (- Z.of_nat n <=? i) && (i <? 0) then Ok (Z.to_nat (Z.of_nat n + i))
  else Raise IndexError.

(** [a[i]]. *)
Definition getitem {A : Type} (a : list A) (i : Z) : result A :=
  k <- norm_index (length a) i ;;
  match nth_error a k with
  | Some x => Ok x
  | None => Raise IndexError
  end.

(** [a[idx]] for an integer array [idx] (fancy indexing along axis 0). *)
Definition take {A : Type} (a : list A) (idx : list Z) : result (list A) :=
  mapM (getitem a) idx.

(** [a[:, j]] for a 2-D array. *)
Definition col {A : Type} (a : list (list A)) (j : Z) : result (list A) :=
  mapM (fun row => getitem row j) a.

(** [a[:, 0] = v] for a 2-D array and a 1-D array [v] with one entry per
    row. *)
Fixpoint set_col0 {A : Type} (a : list (list A)) (v : list A)
  : result (list (list A)) :=
  match a, v with
  | [], [] => Ok []
  | row :: a', x :: v' =>
      match row with
      | [] => Raise IndexError
      | _ :: tl => r <- set_col0 a' v' ;; Ok ((x :: tl) :: r)
      end
  | _, _ => Raise ValueError
  end.

(** [a[mask]] for a boolean array [mask] with one entry per row. *)
Fixpoint compress {A : Type} (mask : list bool) (a : list A) : list A :=
  match mask, a with
  | b :: mask', x :: a' => if b then x :: compress mask' a' else compress mask' a'
  | _, _ => []
  end.

(** [np.where(mask)[0]]: the positions at which [mask] holds. *)
Fixpoint where_ (mask : list bool) (from : Z) : list Z :=
  match mask with
  | [] => []
  | b :: mask' => if b then from :: where_ mask' (from + 1) else where_ mask' (from + 1)
  end.

(** The bounds of the slice [start:stop] on an axis of length [n]. *)
Definition slice_bound (n : nat) (i : Z) : nat :=
  let i' := if i <? 0 then i + Z.of_nat n else i in
  Z.to_nat (Z.min (Z.max i' 0) (Z.of_nat n)).

(** [a[start:stop]]. *)
Definition slice {A : Type} (a : list A) (start stop : Z) : list A :=
  let lo := slice_bound (length a) start in
  let hi := slice_bound (length a) stop in
  firstn (hi - lo) (skipn lo a).

(** ** NumPy functions *)

(** [np.isin(a, values)]. *)
Definition isin (a : list Z) (values : list Z) : list bool :=
  map (fun x => existsb (Z.eqb x) values) a.

(** [np.searchsorted(a, v, side="left")] for an ascending array [a]: the
    number of entries strictly below [v]. *)
Definition searchsorted_left (a : list Q) (v : Q) : Z :=
  Z.of_nat (length (filter (fun x => Qltb x v) a)).

(** [np.arange(n, dtype=np.int64)] and [np.zeros(n, dtype=np.int64)]. *)
Definition arange (n : nat) : list Z := map Z.of_nat (seq 0 n).
Definition zeros_int (n : nat) : list Z := repeat 0 n.

(** Index of the first maximum of a non-empty 1-D array. *)
Fixpoint argmax_from (best : Q) (besti : Z) (i : Z) (l : list Q) : Z :=
  match l with
  | [] => besti
  | x :: l' =>
      if Qltb best x then argmax_from x i (i + 1) l'
      else argmax_from best besti (i + 1) l'
  end.

(** [np.argmax(a, axis=1)] for a 2-D array: one index per row. *)
Definition argmax_axis1 (a : list (list Q)) : result (list Z) :=
  mapM (fun row =>
          match row with
          | [] => Raise ValueError
          | x :: l => Ok (argmax_from x 0 1 l)
          end) a.

(** [np.vstack([a, b, c])] for three 1-D arrays: a 2-D array of three
    rows; the lengths must agree. *)
Definition vstack3 (a b c : list Z) : result (list (list Z)) :=
  if (length a =? length b)%nat && (length b =? length c)%nat
  then Ok [a; b; c]
  else Raise ValueError.

(** [a.T] for a 2-D array whose rows have length [ncols]. *)
Definition transpose {A : Type} (d : A) (ncols : nat) (a : list (list A))
  : list (list A) :=
  map (fun j => map (fun row => nth j row d) a) (seq 0 ncols).

(** Assignment [dst[...] = src] of a block of [len src] rows to a block
    of [n] rows: the lengths agree, or a single row is broadcast. *)
Definition broadcast_rows {A : Type} (n : nat) (src : list A) : result (list A) :=
  if (length src =? n)%nat then Ok src
  else match src with
       | [x] => Ok (repeat x n)
       | _ => Raise ValueError
       end.

(** [np.roll(a, -k, axis=0)]. *)
Definition roll_left {A : Type} (k : nat) (a : list A) : list A :=
  let m := (k mod length a)%nat in
  skipn m a ++ firstn m a.

(** [a[-k:] = batch]: the target block is the last [min k (len a)] rows,
    and the whole array when [k] is 0. *)
Definition assign_tail {A : Type} (k : nat) (a : list A) (batch : list A)
  : result (list A) :=
  let r := if (k =? 0)%nat then length a else Nat.min k (length a) in
  blk <- broadcast_rows r batch ;;
  Ok (firstn (length a - r) a ++ blk).

(** [np.zeros(shape)] for a 3-D shape; a negative dimension is an error. *)
Definition zeros3 (n0 n1 n2 : Z) : result (list (list (list Q))) :=
  if (n0 <? 0) || (n1 <? 0) || (n2 <? 0) then Raise ValueError
  else Ok (repeat (repeat (repeat 0%Q (Z.to_nat n2)) (Z.to_nat n1)) (Z.to_nat n0)).

(** [str.lower] on ASCII text. *)
Definition lower_ascii (c : ascii) : ascii :=
  let n := nat_of_ascii c in
  if ((65 <=? n) && (n <=? 90))%nat then ascii_of_nat (n + 32) else c.

Fixpoint lower (s : string) : string :=
  match s with
  | EmptyString => EmptyString
  | String c s' => String (lower_ascii c) (lower s')
  end.

(** ** Collaborators: [mne.Info], the streams, the executor *)

Record Info : Type := {
  sfreq : Q;
  ch_names : list string;
  bads : list string
}.

(** The [picks] argument of [get_data] and of the constructor. *)
Inductive picks_arg : Type :=
| PicksNone
| PicksNames (names : list string)
| PicksIdx (idx : list Z).

(** What one acquisition step sees of a [Stream]: the counter
    [_n_new_samples], its [_info] and the pair [(data, ts)] its
    [get_data] returns ([data] is channels x times).  For the event stream
    [s_data] is the result of [get_data(picks=self._event_channels)]. *)
Record StreamView : Type := {
  s_n_new_samples : Z;
  s_info : Info;
  s_data : list (list Q);
  s_ts : list Q
}.

(** [ThreadPoolExecutor(max_workers=1)]: whether it was shut down and how
    many jobs were submitted to it. *)
Record Executor : Type := {
  ex_shutdown : bool;
  ex_submitted : nat
}.

(** [executor.submit(job)]: raises [RuntimeError] after shutdown. *)
Definition submit (ex : Executor) : result Executor :=
  if ex_shutdown ex then Raise RuntimeError
  else Ok {| ex_shutdown := false; ex_submitted := S (ex_submitted ex) |}.

(** ** The state of an [EpochsStream] *)

Record EpochsStream : Type := {
  (* set by the constructor *)
  _bufsize : Z;
  _tmin : Q;
  _tmax : Q;
  _event_id : list (string * Z);  (* each name with the integer of its value *)
  _event_channels : list string;
  _picks_init : picks_arg;
  (* the variables of [_reset_variables] *)
  _acquisition_delay : option Q;
  _buffer : option (list (list (list Q)));
  _executor : option Executor;
  _info : option Info;
  _last_ts : option Q;
  _n_new_epochs : Z;
  _picks : option (list Z);
  (* attributes that exist once assigned *)
  _last : option Q;
  _new_new_epochs : option Z
}.

(** [_reset_variables]. *)
Definition _reset_variables (self : EpochsStream) : EpochsStream :=
  {| _bufsize := _bufsize self;
     _tmin := _tmin self;
     _tmax := _tmax self;
     _event_id := _event_id self;
     _event_channels := _event_channels self;
     _picks_init := _picks_init self;
     _acquisition_delay := None;
     _buffer := None;
     _executor := None;
     _info := None;
     _last_ts := None;
     _n_new_epochs := 0;
     _picks := None;
     _last := _last self;
     _new_new_epochs := _new_new_epochs self |}.

Definition set_buffer (self : EpochsStream) (b : list (list (list Q))) : EpochsStream :=
  {| _bufsize := _bufsize self; _tmin := _tmin self; _tmax := _tmax self;
     _event_id := _event_id self; _event_channels := _event_channels self;
     _picks_init := _picks_init self;
     _acquisition_delay := _acquisition_delay self;
     _buffer := Some b;
     _executor := _executor self; _info := _info self;
     _last_ts := _last_ts self; _n_new_epochs := _n_new_epochs self;
     _picks := _picks self; _last := _last self;
     _new_new_epochs := _new_new_epochs self |}.

Definition set_executor (self : EpochsStream) (ex : option Executor) : EpochsStream :=
  {| _bufsize := _bufsize self; _tmin := _tmin self; _tmax := _tmax self;
     _event_id := _event_id self; _event_channels := _event_channels self;
     _picks_init := _picks_init self;
     _acquisition_delay := _acquisition_delay self;
     _buffer := _buffer self;
     _executor := ex; _info := _info self;
     _last_ts := _last_ts self; _n_new_epochs := _n_new_epochs self;
     _picks := _picks self; _last := _last self;
     _new_new_epochs := _new_new_epochs self |}.

Definition set_last (self : EpochsStream) (t : Q) : EpochsStream :=
  {| _bufsize := _bufsize self; _tmin := _tmin self; _tmax := _tmax self;
     _event_id := _event_id self; _event_channels := _event_channels self;
     _picks_init := _picks_init self;
     _acquisition_delay := _acquisition_delay self;
     _buffer := _buffer self;
     _executor := _executor self; _info := _info self;
     _last_ts := _last_ts self; _n_new_epochs := _n_new_epochs self;
     _picks := _picks self; _last := Some t;
     _new_new_epochs := _new_new_epochs self |}.

Definition set_n_new_epochs (self : EpochsStream) (n : Z) : EpochsStream :=
  {| _bufsize := _bufsize self; _tmin := _tmin self; _tmax := _tmax self;
     _event_id := _event_id self; _event_channels := _event_channels self;
     _picks_init := _picks_init self;
     _acquisition_delay := _acquisition_delay self;
     _buffer := _buffer self;
     _executor := _executor self; _info := _info self;
     _last_ts := _last_ts self; _n_new_epochs := n;
     _picks := _picks self; _last := _last self;
     _new_new_epochs := _new_new_epochs self |}.

Definition set_new_new_epochs (self : EpochsStream) (n : Z) : EpochsStream :=
  {| _bufsize := _bufsize self; _tmin := _tmin self; _tmax := _tmax self;
     _event_id := _event_id self; _event_channels := _event_channels self;
     _picks_init := _picks_init self;
     _acquisition_delay := _acquisition_delay self;
     _buffer := _buffer self;
     _executor := _executor self; _info := _info self;
     _last_ts := _last_ts self; _n_new_epochs := _n_new_epochs self;
     _picks := _picks self; _last := _last self;
     _new_new_epochs := Some n |}.

Definition is_none {A : Type} (o : option A) : bool :=
  match o with None => true | Some _ => false end.

(** The property [connected]: [False] when the four attributes are all
    [None], [True] when none is, and the sanity check fails in between. *)
Definition connected (self : EpochsStream) : result bool :=
  let attributes :=
    [is_none (_acquisition_delay self); is_none (_buffer self);
     is_none (_info self); is_none (_picks self)] in
  if forallb (fun b => b) attributes then Ok false
  else if existsb (fun b => b) attributes then Raise AssertionError
  else Ok true.

(** [_check_connected]. *)
Definition _check_connected (self : EpochsStream) : result unit :=
  c <- connected self ;;
  if c then Ok tt else Raise RuntimeError.

(** The property [n_new_epochs]. *)
Definition n_new_epochs (self : EpochsStream) : result Z :=
  _ <- _check_connected self ;;
  Ok (_n_new_epochs self).

(** [_submit_acquisition_job]: nothing without an executor; otherwise
    sleep, then submit, ignoring the [RuntimeError] of a shut down
    executor. *)
Definition _submit_acquisition_job (self : EpochsStream) : EpochsStream :=
  match _executor self with
  | None => self
  | Some ex =>
      match submit ex with
      | Ok ex' => set_executor self (Some ex')
      | Raise _ => self
      end
  end.

(** ** [_prune_events] *)

Definition _prune_events
    (events : list (list Z)) (event_id : option (list (string * Z)))
    (buffer_size : Z) (ts : list Q) (last_ts : option Q)
    (ts_events : option (list Q)) : result (list (list Z)) :=
  (* remove events outside of the event_id dictionary *)
  events <- match event_id with
            | Some d =>
                codes <- col events 2 ;;
                Ok (compress (isin codes (map snd d)) events)
            | None => Ok events
            end ;;
  (* get the events position in the stream times *)
  events <- match ts_events with
            | Some tse =>
                idx <- col events 0 ;;
                t <- take tse idx ;;
                set_col0 events (map (searchsorted_left ts) t)
            | None => Ok events
            end ;;
  (* remove events which can't fit an entire epoch *)
  onsets <- col events 0 ;;
  let mask := map (fun o => add64 o buffer_size <=? Z.of_nat (length ts)) onsets in
  events <- take events (where_ mask 0) ;;
  (* remove events which have already been moved to the buffer *)
  match last_ts with
  | Some l =>
      onsets <- col events 0 ;;
      t <- take ts onsets ;;
      take events (where_ (map (fun x => Qltb l x) t) 0)
  | None => Ok events
  end.

(** [_process_data]. *)
Definition _process_data (data : list (list (list Q))) : list (list (list Q)) := data.

(** The body of the extraction loop: [data[picks, start:start + n].T]
    assigned to one slot of [data_selection], of shape [(n, len picks)]. *)
Definition n_times (data : list (list Q)) : nat := length (hd [] data).

Definition extract_epoch (data : list (list Q)) (picks : list Z)
    (start : Z) (nsamp : nat) : result (list (list Q)) :=
  rows <- take data picks ;;
  let stop := add64 start (Z.of_nat nsamp) in
  let len := (slice_bound (n_times data) stop - slice_bound (n_times data) start)%nat in
  broadcast_rows nsamp
    (transpose 0%Q len (map (fun row => slice row start stop) rows)).

(** ** The functions of MNE *)

(** [_picks_to_idx(info, picks, exclude=...)] (the flag says whether the
    bad channels are excluded), [pick_info(info, sel)],
    [_find_events(d, min_samples=..., ch_name=...)] on one channel with the
    keyword arguments the code fixes, and [_find_unique_events(events)]. *)
Record MNE : Type := {
  _picks_to_idx : Info -> picks_arg -> bool -> result (list Z);
  pick_info : Info -> list Z -> Info;
  _find_events : list Q -> Q -> string -> result (list (list Z));
  _find_unique_events : list (list Z) -> result (list (list Z))
}.

(** [a[np.argsort(a[:, 0])]]: the rows in ascending order of their first
    entry (the first entries are distinct after [_find_unique_events]). *)
Fixpoint insert_by_key (k : Z) (row : list Z) (l : list (Z * list Z))
  : list (Z * list Z) :=
  match l with
  | [] => [(k, row)]
  | (k', row') :: l' =>
      if k <? k' then (k, row) :: l
      else (k', row') :: insert_by_key k row l'
  end.

Definition sort_by_col0 (a : list (list Z)) : result (list (list Z)) :=
  keys <- col a 0 ;;
  Ok (map snd (fold_right (fun kr acc => insert_by_key (fst kr) (snd kr) acc)
                          [] (combine keys a))).

(** How the body of the [try] block of [_acquire] ends: by one of its two
    [return]s, or by reaching its end with the events it extracted. *)
Inductive flow : Type :=
| Return (self : EpochsStream)
| Fallthrough (self : EpochsStream) (events : list (list Z)).

(** What a call of [_acquire] leaves: the object, the errors given to
    [logger.exception], the exception that reaches the caller, and the
    events whose epochs were added to the buffer. *)
Record Step : Type := {
  st_self : EpochsStream;
  st_logged : list exn;
  st_raised : option exn;
  st_extracted : list (list Z)
}.

Definition attr {A : Type} (o : option A) : result A :=
  match o with
  | Some a => Ok a
  | None => Raise AttributeError
  end.

Section Model.

Variable mne : MNE.

(** [_find_events_in_stim_channels] (the warning on short events has no
    effect on the result). *)
Definition _find_events_in_stim_channels
    (data : list (list Q)) (event_channels : list string) (sfreq : Q)
  : result (list (list Z)) :=
  let min_samples := (0 * sfreq)%Q in
  events_list <- mapM (fun dc => _find_events mne (fst dc) min_samples (snd dc))
                      (combine data event_channels) ;;
  events <- match events_list with
            | [] => Raise ValueError
            | _ => Ok (concat events_list)
            end ;;
  events <- _find_unique_events mne events ;;
  sort_by_col0 events.

(** The events of one step: the three acquisition scenarios, each ended
    by [_prune_events]. *)
Definition acquire_events (self : EpochsStream) (stream : StreamView)
    (event_stream : option StreamView) : result (list (list Z)) :=
  let data := s_data stream in
  let ts := s_ts stream in
  match event_stream with
  | None =>
      info <- attr (_info self) ;;
      picks_events <- _picks_to_idx mne info (PicksNames (_event_channels self)) false ;;
      d <- take data picks_events ;;
      events <- _find_events_in_stim_channels d (_event_channels self) (sfreq info) ;;
      buffer <- attr (_buffer self) ;;
      _prune_events events (Some (_event_id self)) (Z.of_nat (length (hd [] buffer)))
                    ts (_last_ts self) None
  | Some es =>
      if negb (Qeq_bool (sfreq (s_info es)) 0) then
        let data_events := s_data es in
        let ts_events := s_ts es in
        info <- attr (_info self) ;;
        events <- _find_events_in_stim_channels data_events (_event_channels self)
                                                (sfreq info) ;;
        buffer <- attr (_buffer self) ;;
        _prune_events events (Some (_event_id self)) (Z.of_nat (length (hd [] buffer)))
                      ts (_last_ts self) (Some ts_events)
      else
        let ts_events := s_ts es in
        am <- argmax_axis1 data ;;
        events <- vstack3 (arange (length ts_events)) (zeros_int (length ts_events)) am ;;
        buffer <- attr (_buffer self) ;;
        _prune_events events None (Z.of_nat (length (hd [] buffer)))
                      ts (_last_ts self) (Some ts_events)
  end.

(** The epochs of the events: [data_selection] after the loop. *)
Definition select_data (self : EpochsStream) (stream : StreamView)
    (events : list (list Z)) : result (list (list (list Q))) :=
  buffer <- attr (_buffer self) ;;
  picks <- attr (_picks self) ;;
  info <- attr (_info self) ;;
  let nsamp := length (hd [] buffer) in
  shift <- epoch_shift (_tmin self) (sfreq info) ;;
  onsets <- col events 0 ;;
  mapM (fun start => extract_epoch (s_data stream) picks (add64 start shift) nsamp)
       onsets.

(** The body of the [try] block of [_acquire]. *)
Definition acquire_body (self : EpochsStream) (stream : StreamView)
    (event_stream : option StreamView) : result flow :=
  if (s_n_new_samples stream =? 0)
     || match event_stream with
        | Some es => s_n_new_samples es =? 0
        | None => false
        end
  then Ok (Return (_submit_acquisition_job self))
  else
    events <- acquire_events self stream event_stream ;;
    if (length events =? 0)%nat
    then Ok (Return (_submit_acquisition_job self))
    else
      data_selection <- select_data self stream events ;;
      (* apply processing *)
      let data_selection := _process_data data_selection in
      (* roll buffer and add new epochs *)
      buffer <- attr (_buffer self) ;;
      buffer <- assign_tail (length events) (roll_left (length events) buffer)
                            data_selection ;;
      let self := set_buffer self buffer in
      (* update the last ts and the number of new epochs *)
      row <- getitem events (-1) ;;
      onset <- getitem row 0 ;;
      t <- getitem (s_ts stream) onset ;;
      let self := set_last self t in
      let self := set_n_new_epochs self (_n_new_epochs self + Z.of_nat (length events)) in
      Ok (Fallthrough self events).

(** [os.getenv("MNE_LSL_RAISE_STREAM_ERRORS", "false").lower() == "true"]. *)
Definition raise_stream_errors (environ : option string) : bool :=
  let v := match environ with Some v => v | None => "false"%string end in
  String.eqb (lower v) "true".


(** [_acquire]. *)
Definition _acquire (self : EpochsStream) (stream : StreamView)
    (event_stream : option StreamView) (environ : option string) : Step :=
  match acquire_body self stream event_stream with
  | Ok (Return self') =>
      {| st_self := self'; st_logged := []; st_raised := None; st_extracted := [] |}
  | Ok (Fallthrough self' events) =>
      {| st_self := _submit_acquisition_job self'; st_logged := [];
         st_raised := None; st_extracted := events |}
  | Raise error =>
      {| st_self := _reset_variables self;
         st_logged := [error];
         st_raised := if raise_stream_errors environ then Some error else None;
         st_extracted := [] |}
  end.

(** [acquire]: the manual step, refused while the background thread
    polls. *)
Definition acquire (self : EpochsStream) (stream : StreamView)
    (event_stream : option StreamView) (environ : option string) : Step :=
  let refuse e :=
    {| st_self := self; st_logged := []; st_raised := Some e; st_extracted := [] |} in
  match _check_connected self with
  | Raise e => refuse e
  | Ok _ =>
      match _executor self with
      | Some _ => refuse RuntimeError
      | None => _acquire self stream event_stream environ
      end
  end.

Definition set_acquisition_delay (self : EpochsStream) (d : Q) : EpochsStream :=
  {| _bufsize := _bufsize self; _tmin := _tmin self; _tmax := _tmax self;
     _event_id := _event_id self; _event_channels := _event_channels self;
     _picks_init := _picks_init self;
     _acquisition_delay := Some d;
     _buffer := _buffer self;
     _executor := _executor self; _info := _info self;
     _last_ts := _last_ts self; _n_new_epochs := _n_new_epochs self;
     _picks := _picks self; _last := _last self;
     _new_new_epochs := _new_new_epochs self |}.

Definition set_connection (self : EpochsStream) (picks : list Z) (info : Info)
    (buffer : list (list (list Q))) (ex : option Executor) : EpochsStream :=
  {| _bufsize := _bufsize self; _tmin := _tmin self; _tmax := _tmax self;
     _event_id := _event_id self; _event_channels := _event_channels self;
     _picks_init := _picks_init self;
     _acquisition_delay := _acquisition_delay self;
     _buffer := Some buffer;
     _executor := ex; _info := Some info;
     _last_ts := _last_ts self; _n_new_epochs := _n_new_epochs self;
     _picks := Some picks; _last := _last self;
     _new_new_epochs := _new_new_epochs self |}.

(** [connect]: the object it leaves and the exception it raises, if any.
    [stream_connected] and [stream_info] are [self._stream.connected] and
    [self._stream._info]; [event_stream_connected] is [None] without an
    event stream. *)
Definition connect (self : EpochsStream) (stream_connected : bool)
    (stream_info : Info) (event_stream_connected : option bool)
    (acquisition_delay : Q) : EpochsStream * option exn :=
  match connected self with
  | Raise e => (self, Some e)
  | Ok true => (self, None)
  | Ok false =>
      if negb stream_connected then (self, Some RuntimeError)
      else if match event_stream_connected with
              | Some c => negb c
              | None => false
              end
      then (self, Some RuntimeError)
      else if Qltb acquisition_delay 0 then (self, Some ValueError)
      else
        let self := set_acquisition_delay self acquisition_delay in
        if negb (_n_new_epochs self =? 0) then (self, Some AssertionError)
        else
          match _picks_to_idx mne stream_info (_picks_init self) true with
          | Raise e => (self, Some e)
          | Ok picks =>
              let info := pick_info mne stream_info picks in
              match (n <- epoch_samples (_tmin self) (_tmax self) (sfreq info) ;;
                     zeros3 (_bufsize self) n (Z.of_nat (length picks))) with
              | Raise e => (self, Some e)
              | Ok buffer =>
                  let ex :=
                    if negb (Qeq_bool acquisition_delay 0)
                    then Some {| ex_shutdown := false; ex_submitted := 1 |}
                    else None in
                  (set_connection self picks info buffer ex, None)
              end
          end
  end.

(** [get_data]: the object it leaves and the array it returns. *)
Definition get_data (self : EpochsStream) (picks : picks_arg)
  : EpochsStream * result (list (list (list Q))) :=
  match (info <- attr (_info self) ;; _picks_to_idx mne info picks true) with
  | Raise e => (self, Raise e)
  | Ok picks =>
      let self := set_new_new_epochs self 0 in  (* reset the number of new epochs *)
      (self,
       buffer <- attr (_buffer self) ;;
       sel <- mapM (fun epoch => mapM (fun row => take row picks) epoch) buffer ;;
       Ok (map (transpose 0%Q (length picks)) sel))
  end.

(** ** Sequences of calls *)

Inductive call : Type :=
| CallAcquire (stream : StreamView) (event_stream : option StreamView)
              (environ : option string)
| CallGetData (picks : picks_arg).

Definition run_call (self : EpochsStream) (c : call) : EpochsStream :=
  match c with
  | CallAcquire s es env => st_self (_acquire self s es env)
  | CallGetData picks => fst (get_data self picks)
  end.

Definition run (self : EpochsStream) (calls : list call) : EpochsStream :=
  fold_left run_call calls self.

(** The number of epochs a call adds to the buffer. *)
Definition added (self : EpochsStream) (c : call) : nat :=
  match c with
  | CallAcquire s es env => length (st_extracted (_acquire self s es env))
  | CallGetData _ => 0
  end.

(** The number of epochs added over a sequence of calls. *)
Fixpoint total_added (self : EpochsStream) (calls : list call) : nat :=
  match calls with
  | [] => 0
  | c :: calls' => (added self c + total_added (run_call self c) calls')%nat
  end.

End Model.

(** ** A concrete setting

    An instance of the MNE functions on a stream of two channels, ["EEG"]
    and the trigger channel ["STI"], sampled at 100 Hz, and an
    [EpochsStream] of capacity 3 with [tmin = -0.2] and [tmax = 0.5]. *)

Module Demo.

Fixpoint index_of (name : string) (names : list string) (i : Z) : result Z :=
  match names with
  | [] => Raise ValueError
  | n :: names' => if String.eqb n name then Ok i else index_of name names' (i + 1)
  end.

Definition resolve_picks (info : Info) (picks : picks_arg) (exclude_bads : bool)
  : result (list Z) :=
  match picks with
  | PicksNone => Ok (arange (length (ch_names info)))
  | PicksNames names => mapM (fun n => index_of n (ch_names info) 0) names
  | PicksIdx idx => Ok idx
  end.

Definition select_info (info : Info) (sel : list Z) : Info :=
  {| sfreq := sfreq info;
     ch_names := map (fun i => nth (Z.to_nat i) (ch_names info) ""%string) sel;
     bads := bads info |}.

(** Onsets of a trigger channel: the samples at which the value changes
    to a non-zero value, from zero or upwards. *)
Fixpoint edges (prev : Z) (i : Z) (l : list Z) : list (list Z) :=
  match l with
  | [] => []
  | x :: l' =>
      if negb (x =? prev) && negb (x =? 0) && ((prev =? 0) || (prev <? x))
      then [i; prev; x] :: edges x (i + 1) l'
      else edges x (i + 1) l'
  end.

Definition onsets_of (d : list Q) (min_samples : Q) (ch_name : string)
  : result (list (list Z)) :=
  match d with
  | [] => Ok []
  | x :: l => Ok (edges (Qfloor x) 1 (map Qfloor l))
  end.

Definition all_events (events : list (list Z)) : result (list (list Z)) :=
  Ok events.

Definition mne : MNE :=
  {| _picks_to_idx := resolve_picks;
     pick_info := select_info;
     _find_events := onsets_of;
     _find_unique_events := all_events |}.

Definition info100 : Info :=
  {| sfreq := 100; ch_names := ["EEG"; "STI"]%string; bads := [] |}.

(** The value of the trigger channel at absolute sample [t]: each trigger
    [(onset, code)] holds its code for 5 samples. *)
Definition sti (triggers : list (Z * Z)) (t : Z) : Z :=
  match find (fun oc => (fst oc <=? t) && (t <? fst oc + 5)) triggers with
  | Some oc => snd oc
  | None => 0
  end.

(** The window of [n] samples of the stream that starts at absolute
    sample [off]: the EEG channel carries the absolute sample number, the
    timestamp of sample [t] is [t / 100]. *)
Definition window (triggers : list (Z * Z)) (off : Z) (n : nat) : StreamView :=
  let t := map (fun i => i + off) (arange n) in
  {| s_n_new_samples := 1;
     s_info := info100;
     s_data := [map inject_Z t; map (fun x => inject_Z (sti triggers x)) t];
     s_ts := map (fun x => x # 100) t |}.

(** The object after its constructor. *)
Definition epochs0 (event_id : list (string * Z)) : EpochsStream :=
  {| _bufsize := 3; _tmin := - (1 # 5); _tmax := 1 # 2;
     _event_id := event_id;
     _event_channels := ["STI"]%string;
     _picks_init := PicksNone;
     _acquisition_delay := None; _buffer := None; _executor := None;
     _info := None; _last_ts := None; _n_new_epochs := 0; _picks := None;
     _last := None; _new_new_epochs := None |}.

(** The object after [connect(acquisition_delay=0)]. *)
Definition epochs1 (event_id : list (string * Z)) : EpochsStream :=
  fst (connect mne (epochs0 event_id) true info100 None 0).

(** An irregularly sampled event stream of two one-hot channels with one
    sample per timestamp of [ts]. *)
Definition event_window (ts : list Q) (data : list (list Q)) : StreamView :=
  {| s_n_new_samples := 1;
     s_info := {| sfreq := 0; ch_names := ["left"; "right"]%string; bads := [] |};
     s_data := data;
     s_ts := ts |}.

(** The epoch of samples [start, start + n) of both channels of a window
    starting at [off], as the buffer stores it (samples x channels). *)
Definition epoch_at (triggers : list (Z * Z)) (start : Z) (n : nat)
  : list (list Q) :=
  map (fun i => [inject_Z (i + start); inject_Z (sti triggers (i + start))])
      (arange n).

(** The allow-list [event_id = 1]. *)
Definition ids1 : list (string * Z) := [("1"%string, 1)].

(** Two polls of a stream with one trigger at absolute sample 50: the
    second window starts 10 samples later. *)
Definition first_step : Step :=
  _acquire mne (epochs1 ids1) (window [(50, 1)] 0 200) None None.

Definition second_step : Step :=
  _acquire mne (st_self first_step) (window [(50, 1)] 10 200) None None.

(** A poll of a window in which the trigger sits at sample 5. *)
Definition early_window : StreamView := window [(50, 1)] 45 200.

Definition early_step : Step :=
  _acquire mne (epochs1 ids1) early_window None None.

(** A poll with three samples on the one-hot event stream. *)
Definition one_hot_events : StreamView :=
  event_window [40 # 100; 60 # 100; 80 # 100] [[1; 0; 1]; [0; 1; 0]]%Q.

Definition one_hot_step : Step :=
  _acquire mne (epochs1 ids1) (window [] 0 200) (Some one_hot_events) None.

(** The same stream epoched from [tmin = -0.575] to [tmax = 0.125]:
    epochs of 70 samples that start 57 samples before the onset, since
    [-0.575 * 100.0] is [-57.49999999999999] in binary64. *)
Definition fine_epochs0 : EpochsStream :=
  {| _bufsize := 3; _tmin := - (23 # 40); _tmax := 1 # 8;
     _event_id := ids1;
     _event_channels := ["STI"]%string;
     _picks_init := PicksNone;
     _acquisition_delay := None; _buffer := None; _executor := None;
     _info := None; _last_ts := None; _n_new_epochs := 0; _picks := None;
     _last := None; _new_new_epochs := None |}.

Definition fine_epochs1 : EpochsStream :=
  fst (connect mne fine_epochs0 true info100 None 0).

(** A poll of that object with one trigger at sample 100. *)
Definition fine_step : Step :=
  _acquire mne fine_epochs1 (window [(100, 1)] 0 200) None None.








(** The same stream epoched from [tmin = -0.2] to [tmax = 0.1],
    connected. *)
Definition short_epochs0 : EpochsStream :=
  {| _bufsize := 3; _tmin := - (1 # 5); _tmax := 1 # 10;
     _event_id := ids1;
     _event_channels := ["STI"]%string;
     _picks_init := PicksNone;
     _acquisition_delay := None; _buffer := None; _executor := None;
     _info := None; _last_ts := None; _n_new_epochs := 0; _picks := None;
     _last := None; _new_new_epochs := None |}.

Definition short_epochs1 : EpochsStream :=
  fst (connect mne short_epochs0 true info100 None 0).

(** The same stream epoched before the trigger only: [tmin = -1] and
    [tmax = -0.3], connected, and a poll with the trigger at sample 10. *)
Definition pre_epochs1 : EpochsStream :=
  fst (connect mne
         {| _bufsize := 3; _tmin := - (1); _tmax := - (3 # 10);
            _event_id := ids1;
            _event_channels := ["STI"]%string;
            _picks_init := PicksNone;
            _acquisition_delay := None; _buffer := None; _executor := None;
            _info := None; _last_ts := None; _n_new_epochs := 0; _picks := None;
            _last := None; _new_new_epochs := None |}
         true info100 None 0).

Definition pre_step : Step :=
  _acquire mne pre_epochs1 (window [(10, 1)] 0 200) None None.

(** A poll of a stream without new samples. *)
Definition idle_window : StreamView :=
  {| s_n_new_samples := 0; s_info := info100;
     s_data := s_data (window [(50, 1)] 0 200);
     s_ts := s_ts (window [(50, 1)] 0 200) |}.

End Demo.

(** ** Shapes

    [has_shape n0 n1 n2 a]: the 3-D array [a] has shape [(n0, n1, n2)]. *)
Definition has_shape (n0 n1 n2 : nat) (a : list (list (list Q))) : Prop :=
  length a = n0
  /\ Forall (fun e => length e = n1 /\ Forall (fun r => length r = n2) e) a.

(** A slot of [n1 x n2] zeros. *)
Definition zero_slot (n1 n2 : nat) : list (list Q) := repeat (repeat 0%Q n2) n1.

(** The first [m] slots of [a] are zero slots. *)
Definition zero_prefix (m n1 n2 : nat) (a : list (list (list Q))) : Prop :=
  forall i, (i < m)%nat -> nth_error a i = Some (zero_slot n1 n2).

(** The object is connected with its buffer of [n0] slots of [n1] samples
    of [n2] channels, of which the first [n0 - j] are still zero, or it
    is disconnected. *)
Definition buffer_inv (n0 n1 n2 : nat) (info : Info) (picks : list Z)
    (j : nat) (self : EpochsStream) : Prop :=
  (_acquisition_delay self = None /\ _buffer self = None
   /\ _info self = None /\ _picks self = None)
  \/ (exists buffer,
        _buffer self = Some buffer
        /\ has_shape n0 n1 n2 buffer
        /\ zero_prefix (n0 - j) n1 n2 buffer
        /\ _info self = Some info
        /\ _picks self = Some picks
        /\ length picks = n2
        /\ _acquisition_delay self <> None).

(** ** The epoch of one event

    One turn of the extraction loop of [_acquire]: the slot of
    [data_selection] filled for the event [row]. *)
Definition event_epoch (self : EpochsStream) (stream : StreamView) (row : list Z)
  : result (list (list Q)) :=
  buffer <- attr (_buffer self) ;;
  picks <- attr (_picks self) ;;
  info <- attr (_info self) ;;
  shift <- epoch_shift (_tmin self) (sfreq info) ;;
  start <- getitem row 0 ;;
  extract_epoch (s_data stream) picks (add64 start shift) (length (hd [] buffer)).

(** ** The survivors of pruning

    The three criteria of [_prune_events] on one event [(onset, previous
    value, code)], and the re-anchoring of an onset of the event stream
    on the timestamps of the stream. *)

Definition onset (row : list Z) : Z := hd 0 row.
Definition code (row : list Z) : Z := nth 2 row 0.

Definition allowed (event_id : option (list (string * Z))) (row : list Z) : bool :=
  match event_id with
  | Some d => existsb (Z.eqb (code row)) (map snd d)
  | None => true
  end.

Definition reanchor (ts : list Q) (ts_events : option (list Q)) (row : list Z)
  : list Z :=
  match ts_events with
  | Some tse => searchsorted_left ts (nth (Z.to_nat (onset row)) tse 0%Q) :: tl row
  | None => row
  end.

Definition fits (buffer_size : Z) (ts : list Q) (row : list Z) : bool :=
  onset row + buffer_size <=? Z.of_nat (length ts).

Definition is_new (ts : list Q) (last_ts : option Q) (row : list Z) : bool :=
  match last_ts with
  | Some l => Qltb l (nth (Z.to_nat (onset row)) ts 0%Q)
  | None => true
  end.

Definition ascending (events : list (list Z)) : Prop :=
  StronglySorted (fun a b => onset a <= onset b) events.

(** ** The checks of the constructor *)

(** An int-like value: an [int] of Python, or an integer of another type
    that [check_type(value, ("int-like",))] admits, such as [np.int64]. *)
Inductive int_like : Type :=
| Int (z : Z)
| NumpyInt (z : Z).

Definition int_of (v : int_like) : Z :=
  match v with
  | Int z => z
  | NumpyInt z => z
  end.

(** [isinstance(value, int) and value <= 0]. *)
Definition nonpositive_int (v : int_like) : bool :=
  match v with
  | Int z => z <=? 0
  | NumpyInt _ => false
  end.

(** [event_id]: an [int] or a [dict] of names to int-like values. *)
Inductive event_id_arg : Type :=
| EventInt (z : Z)
| EventDict (d : list (string * int_like)).

(** [str(n)] for an [int]. *)
Definition py_str (n : Z) : string := NilZero.string_of_int (Z.to_int n).

(** [_ensure_event_id_dict]. *)
Definition _ensure_event_id_dict (event_id : event_id_arg)
  : result (list (string * int_like)) :=
  match event_id with
  | EventInt z =>
      let raise_ := z <=? 0 in
      let event_id := [(py_str z, Int z)] in
      if raise_ then Raise ValueError else Ok event_id
  | EventDict d =>
      let raise_ :=
        existsb (fun kv => (String.length (fst kv) =? 0)%nat
                           || nonpositive_int (snd kv)) d in
      if raise_ then Raise ValueError else Ok d
  end.

(** The dictionary as the acquisition reads it, through
    [list(event_id.values())] in [np.isin]: each name with the integer
    its value holds. *)
Definition event_codes (d : list (string * int_like)) : list (string * Z) :=
  map (fun kv => (fst kv, int_of (snd kv))) d.

(** [_check_baseline]: the baseline is [None] or a tuple. *)
Definition _check_baseline (baseline : option (list (option Q))) (tmin tmax : Q)
  : result unit :=
  match baseline with
  | None => Ok tt
  | Some b =>
      if negb (length b =? 2)%nat then Raise ValueError
      else if match nth 0 b None with
              | Some b0 => Qltb b0 tmin
              | None => false
              end
      then Raise ValueError
      else if match nth 1 b None with
              | Some b1 => Qltb tmax b1
              | None => false
              end
      then Raise ValueError
      else Ok tt
  end.

(** A numeric value: an [int] or a [float]. *)
Inductive number : Type :=
| PyInt (z : Z)
| PyFloat (q : Q).

(** The checks of one entry of [reject] or [flat]: the key is a channel
    type of the stream, the value is a [float], and it is positive. *)
Definition check_ptp_entry (ch_types : list string) (kv : string * number)
  : result unit :=
  if negb (existsb (String.eqb (fst kv)) ch_types) then Raise ValueError
  else match snd kv with
       | PyInt _ => Raise TypeError
       | PyFloat value => if Qle_bool value 0 then Raise ValueError else Ok tt
       end.

(** [_check_reject_flat]; [ch_types] is
    [info.get_channel_types(unique=True)]. *)
Definition _check_reject_flat (reject flat : option (list (string * number)))
    (ch_types : list string) : result unit :=
  _ <- match reject with
       | Some d => _ <- mapM (check_ptp_entry ch_types) d ;; Ok tt
       | None => Ok tt
       end ;;
  match flat with
  | Some d => _ <- mapM (check_ptp_entry ch_types) d ;; Ok tt
  | None => Ok tt
  end.

(** [_check_reject_tmin_tmax]. *)
Definition _check_reject_tmin_tmax (reject_tmin reject_tmax : option Q)
    (tmin tmax : Q) : result unit :=
  if match reject_tmin with
     | Some r => Qltb r tmin
     | None => false
     end
  then Raise ValueError
  else if match reject_tmax with
          | Some r => Qltb tmax r
          | None => false
          end
  then Raise ValueError
  else if match reject_tmin, reject_tmax with
          | Some r0, Some r1 => Qle_bool r1 r0
          | _, _ => false
          end
  then Raise ValueError
  else Ok tt.

(** [detrend]: an [int] or a [str]. *)
Inductive detrend_arg : Type :=
| DetrendInt (z : Z)
| DetrendStr (s : string).

(** [_ensure_detrend_int]. *)
Definition _ensure_detrend_int (detrend : option detrend_arg) : result (option Z) :=
  match detrend with
  | None => Ok None
  | Some (DetrendStr s) =>
      if String.eqb s "constant" then Ok (Some 0)
      else if String.eqb s "linear" then Ok (Some 1)
      else Raise ValueError
  | Some (DetrendInt z) =>
      if negb ((z =? 0) || (z =? 1)) then Raise ValueError else Ok (Some z)
  end.

(** What the constructor and [disconnect] use of a [BaseStream]: its
    property [connected], its [_info], its [_bufsize] in seconds, the list
    [_epochs] of the objects that epoch it (by identity), and its methods
    [get_channel_types(picks=name)[0]] and
    [_info.get_channel_types(unique=True)]. *)
Record BaseStream : Type := {
  bs_connected : bool;
  bs_info : Info;
  bs_bufsize : Q;
  bs_epochs : list nat;
  bs_channel_type : string -> string;
  bs_unique_types : list string
}.

Definition name_in (name : string) (names : list string) : bool :=
  existsb (String.eqb name) names.

(** The checks of [_check_event_channels] on one channel. *)
Definition check_event_channel (stream : BaseStream) (event_stream : option BaseStream)
    (elt : string) : result unit :=
  match event_stream with
  | None =>
      if negb (name_in elt (ch_names (bs_info stream))) then Raise ValueError
      else if name_in elt (bads (bs_info stream)) then Raise ValueError
      else if negb (String.eqb (bs_channel_type stream elt) "stim") then Raise ValueError
      else Ok tt
  | Some es =>
      if negb (name_in elt (ch_names (bs_info es))) then Raise ValueError
      else if name_in elt (bads (bs_info es)) then Raise ValueError
      else if negb (Qeq_bool (sfreq (bs_info es)) 0)
              && negb (String.eqb (bs_channel_type es elt) "stim")
      then Raise ValueError
      else Ok tt
  end.

(** [_check_event_channels]. *)
Definition _check_event_channels (event_channels : list string)
    (stream : BaseStream) (event_stream : option BaseStream) : result unit :=
  _ <- mapM (check_event_channel stream event_stream) event_channels ;; Ok tt.

(** [event_channels]: a [str] or a [list] of [str]. *)
Inductive names_arg : Type :=
| OneName (name : string)
| NameList (names : list string).

(** The settings the constructor stores and the acquisition does not
    read. *)
Record Settings : Type := {
  _baseline : option (list (option Q));
  _reject : option (list (string * number));
  _flat : option (list (string * number));
  _reject_tmin : option Q;
  _reject_tmax : option Q;
  _detrend : option Z
}.

(** The checks of the constructor that follow the registration with the
    streams, and the object it builds. *)
Definition init_settings (stream : BaseStream) (bufsize : Z)
    (event_id : event_id_arg) (event_channels : names_arg)
    (event_stream : option BaseStream) (tmin tmax : Q)
    (baseline : option (list (option Q))) (picks : picks_arg)
    (reject flat : option (list (string * number)))
    (reject_tmin reject_tmax : option Q) (detrend : option detrend_arg)
  : result (EpochsStream * Settings) :=
  let event_channels :=
    match event_channels with
    | OneName name => [name]
    | NameList names => names
    end in
  _ <- _check_event_channels event_channels stream event_stream ;;
  (* check and store the epochs general settings *)
  _ <- (if bufsize <=? 0 then Raise ValueError else Ok tt) ;;
  event_id <- _ensure_event_id_dict event_id ;;
  _ <- _check_baseline baseline tmin tmax ;;
  _ <- _check_reject_flat reject flat (bs_unique_types stream) ;;
  _ <- _check_reject_tmin_tmax reject_tmin reject_tmax tmin tmax ;;
  detrend <- _ensure_detrend_int detrend ;;
  Ok (_reset_variables
        {| _bufsize := bufsize; _tmin := tmin; _tmax := tmax;
           _event_id := event_codes event_id; _event_channels := event_channels;
           _picks_init := picks;
           _acquisition_delay := None; _buffer := None; _executor := None;
           _info := None; _last_ts := None; _n_new_epochs := 0; _picks := None;
           _last := None; _new_new_epochs := None |},
      {| _baseline := baseline; _reject := reject; _flat := flat;
         _reject_tmin := reject_tmin; _reject_tmax := reject_tmax;
         _detrend := detrend |}).

(** [__init__] of the object of identity [me]: the lists [_epochs] of
    the stream and of the event stream (two distinct streams) as it leaves
    them, and the object, or the exception it raises. *)
Definition __init__ (me : nat) (stream : BaseStream) (bufsize : Z)
    (event_id : event_id_arg) (event_channels : names_arg)
    (event_stream : option BaseStream) (tmin tmax : Q)
    (baseline : option (list (option Q))) (picks : picks_arg)
    (reject flat : option (list (string * number)))
    (reject_tmin reject_tmax : option Q) (detrend : option detrend_arg)
  : list nat * option (list nat) * result (EpochsStream * Settings) :=
  let epochs0 := bs_epochs stream in
  let event_epochs0 := option_map bs_epochs event_stream in
  if negb (bs_connected stream) && negb (Qeq_bool (sfreq (bs_info stream)) 0)
  then (epochs0, event_epochs0, Raise RuntimeError)
  else
    (* mark the stream as being epoched *)
    let epochs1 := epochs0 ++ [me] in
    if Qle_bool tmax tmin then (epochs1, event_epochs0, Raise ValueError)
    else if float_ltb (float64 (bs_bufsize stream))
                      (float_sub (float64 tmax) (float64 tmin))
    then (epochs1, event_epochs0, Raise ValueError)
    else if match event_stream with
            | Some es => negb (bs_connected es)
            | None => false
            end
    then (epochs1, event_epochs0, Raise RuntimeError)
    else
      let event_epochs1 := option_map (fun es => bs_epochs es ++ [me]) event_stream in
      (epochs1, event_epochs1,
       init_settings stream bufsize event_id event_channels event_stream tmin tmax
                     baseline picks reject flat reject_tmin reject_tmax detrend).

(** ** [disconnect] *)

(** [l.remove(x)]: without the first occurrence of [x]. *)
Fixpoint list_remove (x : nat) (l : list nat) : list nat :=
  match l with
  | [] => []
  | y :: l' => if Nat.eqb x y then l' else y :: list_remove x l'
  end.

(** [if self in l: l.remove(self)]. *)
Definition deregister (me : nat) (l : list nat) : list nat :=
  if existsb (Nat.eqb me) l then list_remove me l else l.

(** [disconnect] of the object of identity [me]: the object, the lists
    [_epochs] of the stream and of the event stream as it leaves them,
    and the exception it raises, if any. *)
Definition disconnect (me : nat) (self : EpochsStream) (stream_epochs : list nat)
    (event_stream_epochs : option (list nat))
  : EpochsStream * list nat * option (list nat) * option exn :=
  match connected self with
  | Raise e => (self, stream_epochs, event_stream_epochs, Some e)
  | Ok false =>
      (self, deregister me stream_epochs,
       option_map (deregister me) event_stream_epochs, None)
  | Ok true =>
      (_reset_variables self, deregister me stream_epochs,
       option_map (deregister me) event_stream_epochs, None)
  end.

(** ** A concrete stream for the constructor

    The stream of [Demo] as a [BaseStream]: connected, with a buffer of
    2 seconds, and already epoched by an object of identity 4. *)

Module DemoInit.

Definition stream100 : BaseStream :=
  {| bs_connected := true;
     bs_info := Demo.info100;
     bs_bufsize := 2;
     bs_epochs := [4%nat];
     bs_channel_type := fun name => if String.eqb name "STI" then "stim"%string
                                    else "eeg"%string;
     bs_unique_types := ["eeg"; "stim"]%string |}.

(** [EpochsStream(stream, 3, event_id=1, event_channels="STI", picks=picks)]
    for the object of identity 7. *)
Definition construct (picks : picks_arg)
  : list nat * option (list nat) * result (EpochsStream * Settings) :=
  __init__ 7 stream100 3 (EventInt 1) (OneName "STI") None (- (1 # 5)) (1 # 2)
           (Some [None; Some 0%Q]) picks None None None None None.

(** The object it builds, and the object after [connect(0)]. *)
Definition built (picks : picks_arg) : EpochsStream :=
  match snd (construct picks) with
  | Ok (self, _) => self
  | Raise _ => Demo.epochs0 Demo.ids1
  end.

Definition connected_object (picks : picks_arg) : EpochsStream :=
  fst (connect Demo.mne (built picks) true Demo.info100 None 0).

(** The same with [tmax=0.1], and that object after [connect(0)]. *)
Definition construct_short
  : list nat * option (list nat) * result (EpochsStream * Settings) :=
  __init__ 7 stream100 3 (EventInt 1) (OneName "STI") None (- (1 # 5)) (1 # 10)
           (Some [None; Some 0%Q]) PicksNone None None None None None.

Definition built_short : EpochsStream :=
  match snd construct_short with
  | Ok (self, _) => self
  | Raise _ => Demo.epochs0 Demo.ids1
  end.

Definition connected_short : EpochsStream :=
  fst (connect Demo.mne built_short true Demo.info100 None 0).

End DemoInit.

(** * Properties *)

(** ** The error monad and the state *)

Lemma bind_Ok {A B : Type} (m : result A) (f : A -> result B) (b : B) :
  bind m f = Ok b -> exists a, m = Ok a /\ f a = Ok b.
Proof.
  destruct m as [a|e]; simpl; intros H; [exists a; auto | discriminate].
Qed.

Lemma mapM_length {A B : Type} (f : A -> result B) (l : list A) (r : list B) :
  mapM f l = Ok r -> length r = length l.
Proof.
  revert r; induction l as [|a l IH]; simpl; intros r H.
  - injection H as <-; reflexivity.
  - apply bind_Ok in H as (b & _ & H).
    apply bind_Ok in H as (bs & Hbs & H).
    injection H as <-; simpl; f_equal; auto.
Qed.

Lemma mapM_Forall2 {A B : Type} (f : A -> result B) (l : list A) (r : list B) :
  mapM f l = Ok r -> Forall2 (fun a b => f a = Ok b) l r.
Proof.
  revert r; induction l as [|a l IH]; simpl; intros r H.
  - injection H as <-; constructor.
  - apply bind_Ok in H as (b & Hb & H).
    apply bind_Ok in H as (bs & Hbs & H).
    injection H as <-; constructor; auto.
Qed.

Lemma mapM_Ok {A B : Type} (f : A -> result B) (g : A -> B) (l : list A) :
  Forall (fun a => f a = Ok (g a)) l -> mapM f l = Ok (map g l).
Proof.
  induction 1 as [|a l Ha _ IH]; simpl; [reflexivity|].
  rewrite Ha; simpl; rewrite IH; reflexivity.
Qed.

Lemma connected_reset (self : EpochsStream) :
  connected (_reset_variables self) = Ok false.
Proof. reflexivity. Qed.

(** [_submit_acquisition_job] touches the executor only. *)
Lemma submit_frame (self : EpochsStream) :
  _buffer (_submit_acquisition_job self) = _buffer self
  /\ _last_ts (_submit_acquisition_job self) = _last_ts self
  /\ _last (_submit_acquisition_job self) = _last self
  /\ _n_new_epochs (_submit_acquisition_job self) = _n_new_epochs self
  /\ _info (_submit_acquisition_job self) = _info self
  /\ _picks (_submit_acquisition_job self) = _picks self
  /\ _acquisition_delay (_submit_acquisition_job self) = _acquisition_delay self.
Proof.
  unfold _submit_acquisition_job.
  destruct (_executor self) as [ex|]; [destruct (submit ex)|]; simpl; repeat split.
Qed.

(** ** The strict-mode switch *)

Lemma raise_stream_errors_examples :
  raise_stream_errors None = false
  /\ raise_stream_errors (Some "true"%string) = true
  /\ raise_stream_errors (Some "True"%string) = true
  /\ raise_stream_errors (Some "false"%string) = false
  /\ raise_stream_errors (Some "1"%string) = false.
Proof. repeat split. Qed.

(** ** Errors inside a step (C9) *)





(** With the switch off no call of [_acquire] raises, whatever happens
    inside. *)
Lemma acquire_fail_soft
    (mne : MNE) (self : EpochsStream) (stream : StreamView)
    (event_stream : option StreamView) (environ : option string) :
  raise_stream_errors environ = false ->
  st_raised (_acquire mne self stream event_stream environ) = None.
Proof.
  intros Hs; unfold _acquire.
  destruct (acquire_body mne self stream event_stream) as [[s|s ev]|e]; simpl; auto.
  rewrite Hs; reflexivity.
Qed.

(** ** Steps without work (C8) *)

(** C8. A step in which the stream, or the event stream when there is
    one, has no new sample, or in which no event survives pruning, leaves
    the buffer, the watermark and the counter of new epochs as they were,
    logs nothing and raises nothing. *)
Theorem acquire_noop
    (mne : MNE) (self : EpochsStream) (stream : StreamView)
    (event_stream : option StreamView) (environ : option string)
    (H : s_n_new_samples stream = 0
         \/ (exists es, event_stream = Some es /\ s_n_new_samples es = 0)
         \/ acquire_events mne self stream event_stream = Ok []) :
  _buffer (st_self (_acquire mne self stream event_stream environ)) = _buffer self
  /\ _last_ts (st_self (_acquire mne self stream event_stream environ)) = _last_ts self
  /\ _last (st_self (_acquire mne self stream event_stream environ)) = _last self
  /\ _n_new_epochs (st_self (_acquire mne self stream event_stream environ))
     = _n_new_epochs self
  /\ st_raised (_acquire mne self stream event_stream environ) = None
  /\ st_logged (_acquire mne self stream event_stream environ) = []
  /\ st_extracted (_acquire mne self stream event_stream environ) = [].
Proof.
  assert (Hb : acquire_body mne self stream event_stream
               = Ok (Return (_submit_acquisition_job self))).
  { unfold acquire_body.
    destruct (s_n_new_samples stream =? 0) eqn:E1; simpl; [reflexivity|].
    destruct H as [H | [(es & -> & H) | H]].
    - rewrite H in E1; discriminate.
    - rewrite H; reflexivity.
    - destruct (match event_stream with
                | Some es => s_n_new_samples es =? 0
                | None => false
                end); [reflexivity|].
      rewrite H; reflexivity. }
  unfold _acquire; rewrite Hb; simpl.
  pose proof (submit_frame self) as (H1 & H2 & H3 & H4 & _).
  repeat split; assumption.
Qed.

Lemma acquire_noop_witness :
  _buffer (st_self (_acquire Demo.mne (Demo.epochs1 Demo.ids1) Demo.idle_window None None))
  = _buffer (Demo.epochs1 Demo.ids1)
  /\ st_raised (_acquire Demo.mne (Demo.epochs1 Demo.ids1) Demo.idle_window None None)
     = None.
Proof.
  destruct (acquire_noop Demo.mne (Demo.epochs1 Demo.ids1) Demo.idle_window None None)
    as (Hb & _ & _ & _ & Hr & _).
  - left; reflexivity.
  - split; [exact Hb | exact Hr].
Defined.

(** The third case on a concrete input: a window whose only trigger is
    too close to its end. *)
Lemma acquire_noop_no_event :
  acquire_events Demo.mne (Demo.epochs1 Demo.ids1) (Demo.window [(150, 1)] 0 200) None
  = Ok [].
Proof. vm_compute; reflexivity. Qed.

(** ** The shape of a step *)

(** A step that reaches the end of the [try] block has pruned a
    non-empty list of events, selected their epochs, written them to the
    rolled buffer, and assigned [_last] and [_n_new_epochs]; nothing else
    of the object changes. *)
Lemma acquire_body_fallthrough
    (mne : MNE) (self self' : EpochsStream) (stream : StreamView)
    (event_stream : option StreamView) (events : list (list Z)) :
  acquire_body mne self stream event_stream = Ok (Fallthrough self' events) ->
  exists buffer sel buffer' t,
    acquire_events mne self stream event_stream = Ok events
    /\ events <> []
    /\ _buffer self = Some buffer
    /\ select_data self stream events = Ok sel
    /\ assign_tail (length events) (roll_left (length events) buffer) sel = Ok buffer'
    /\ self' = set_n_new_epochs (set_last (set_buffer self buffer') t)
                 (_n_new_epochs self + Z.of_nat (length events)).
Proof.
  unfold acquire_body.
  destruct (_ || _); [discriminate|].
  intros H. apply bind_Ok in H as (ev & Hev & H).
  destruct (length ev =? 0)%nat eqn:E; [discriminate|].
  apply bind_Ok in H as (sel & Hsel & H).
  apply bind_Ok in H as (buffer & Hbuf & H).
  apply bind_Ok in H as (buffer' & Hasg & H).
  apply bind_Ok in H as (row & Hrow & H).
  apply bind_Ok in H as (onset & Honset & H).
  apply bind_Ok in H as (t & Ht & H).
  injection H as <- <-.
  exists buffer, sel, buffer', t.
  destruct (_buffer self) as [b|] eqn:Eb; [|discriminate].
  injection Hbuf as ->.
  repeat (split; [first [assumption | reflexivity | idtac]|]); try reflexivity.
  intros ->; discriminate.
Qed.

Lemma acquire_body_return
    (mne : MNE) (self self' : EpochsStream) (stream : StreamView)
    (event_stream : option StreamView) :
  acquire_body mne self stream event_stream = Ok (Return self') ->
  self' = _submit_acquisition_job self.
Proof.
  unfold acquire_body.
  destruct (_ || _); [intros H; injection H as <-; reflexivity|].
  intros H. apply bind_Ok in H as (ev & Hev & H).
  destruct (length ev =? 0)%nat; [injection H as <-; reflexivity|].
  apply bind_Ok in H as (sel & _ & H).
  apply bind_Ok in H as (b & _ & H).
  apply bind_Ok in H as (b' & _ & H).
  apply bind_Ok in H as (r & _ & H).
  apply bind_Ok in H as (o & _ & H).
  apply bind_Ok in H as (t & _ & H).
  discriminate.
Qed.

(** ** The watermark (C1) *)

(** No step gives [_last_ts] a value: it keeps the one it has, or is
    reset to [None]. *)
Lemma acquire_last_ts
    (mne : MNE) (self : EpochsStream) (stream : StreamView)
    (event_stream : option StreamView) (environ : option string) :
  _last_ts (st_self (_acquire mne self stream event_stream environ)) = _last_ts self
  \/ _last_ts (st_self (_acquire mne self stream event_stream environ)) = None.
Proof.
  unfold _acquire.
  destruct (acquire_body mne self stream event_stream) as [[s|s ev]|e] eqn:E; simpl.
  - apply acquire_body_return in E as ->.
    left; apply submit_frame.
  - apply acquire_body_fallthrough in E as (b & sel & b' & t & _ & _ & _ & _ & _ & ->).
    left. destruct (submit_frame
                      (set_n_new_epochs (set_last (set_buffer self b') t)
                         (_n_new_epochs self + Z.of_nat (length ev)))) as (_ & -> & _).
    reflexivity.
  - right; reflexivity.
Qed.

(** After [connect] the watermark is [None], and it stays [None] over
    every sequence of calls. *)
Lemma run_last_ts_None (mne : MNE) (calls : list call) (self : EpochsStream) :
  _last_ts self = None -> _last_ts (run mne self calls) = None.
Proof.
  revert self; induction calls as [|c calls IH]; intros self H; simpl; [exact H|].
  apply IH. destruct c as [s es env|picks]; simpl.
  - destruct (acquire_last_ts mne self s es env) as [E|E]; congruence.
  - unfold get_data.
    destruct (_ <- attr (_info self) ;; _) ; simpl; exact H.
Qed.

(** C1, on the code: a trigger at absolute sample 50 (timestamp 0.5) is
    extracted by a first step, which leaves the watermark [_last_ts] at
    [None] (the timestamp goes to the attribute [_last]); a second step,
    on the window 10 samples later, extracts the same trigger again, at
    sample 40 whose timestamp is 0.5. *)
Theorem watermark_not_updated :
  st_extracted Demo.first_step = [[50; 0; 1]]
  /\ _last_ts (st_self Demo.first_step) = None
  /\ _last (st_self Demo.first_step) = Some (50 # 100)
  /\ st_extracted Demo.second_step = [[40; 0; 1]]
  /\ getitem (s_ts (Demo.window [(50, 1)] 10 200)) 40 = Ok (50 # 100)
  /\ _n_new_epochs (st_self Demo.second_step) = 2.
Proof. vm_compute. repeat (split; [reflexivity|]). reflexivity. Qed.

(** ** The counter of new epochs (C2) *)

(** [get_data] leaves [_n_new_epochs] as it is. *)
Lemma get_data_n_new_epochs (mne : MNE) (self : EpochsStream) (picks : picks_arg) :
  _n_new_epochs (fst (get_data mne self picks)) = _n_new_epochs self.
Proof.
  unfold get_data.
  destruct (_ <- attr (_info self) ;; _); reflexivity.
Qed.

(** C2, on the code: after a step that added one epoch the counter is 1,
    and it is still 1 after [get_data()]; the call has set the attribute
    [_new_new_epochs] to 0 instead. *)
Theorem get_data_keeps_counter :
  n_new_epochs (st_self Demo.first_step) = Ok 1
  /\ n_new_epochs (fst (get_data Demo.mne (st_self Demo.first_step) PicksNone)) = Ok 1
  /\ n_new_epochs (fst (get_data Demo.mne (st_self Demo.first_step)
                          (PicksNames ["EEG"%string]))) = Ok 1
  /\ _new_new_epochs (fst (get_data Demo.mne (st_self Demo.first_step) PicksNone))
     = Some 0.
Proof. vm_compute. repeat (split; [reflexivity|]). reflexivity. Qed.

(** ** The one-hot event stream (C3) *)

(** C3, on the code: with three samples on the irregularly sampled event
    stream and a stream of two channels, building the events fails (the
    third row of the stack is [np.argmax(data, axis=1)], one entry per
    channel of the stream, not one per event sample); the step produces
    no event and disconnects the object. *)
Theorem one_hot_events_fail :
  acquire_events Demo.mne (Demo.epochs1 Demo.ids1) (Demo.window [] 0 200)
                 (Some Demo.one_hot_events) = Raise ValueError
  /\ st_extracted Demo.one_hot_step = []
  /\ st_logged Demo.one_hot_step = [ValueError]
  /\ connected (st_self Demo.one_hot_step) = Ok false.
Proof. vm_compute. repeat (split; [reflexivity|]). reflexivity. Qed.

Lemma where_length (mask : list bool) (from : Z) :
  (length (where_ mask from) <= length mask)%nat.
Proof.
  revert from; induction mask as [|b mask IH]; intros from; simpl; [lia|].
  destruct b; simpl; specialize (IH (from + 1)); lia.
Qed.

Lemma compress_length {A : Type} (mask : list bool) (a : list A) :
  (length (compress mask a) <= length a)%nat.
Proof.
  revert a; induction mask as [|b mask IH]; intros a; simpl; [lia|].
  destruct a as [|x a]; simpl; [lia|].
  destruct b; simpl; specialize (IH a); lia.
Qed.

Lemma set_col0_length {A : Type} (a r : list (list A)) (v : list A) :
  set_col0 a v = Ok r -> length r = length a.
Proof.
  revert v r; induction a as [|row a IH]; intros v r; simpl.
  - destruct v; [intros H; injection H as <-; reflexivity | discriminate].
  - destruct v as [|x v]; [discriminate|].
    destruct row as [|y tl]; [discriminate|].
    intros H. apply bind_Ok in H as (r' & Hr' & H). injection H as <-.
    simpl. f_equal. eapply IH; eauto.
Qed.

Lemma take_where_length {A B : Type} (a r : list A) (f : B -> bool) (l : list B) :
  take a (where_ (map f l) 0) = Ok r -> (length r <= length l)%nat.
Proof.
  intros H. apply mapM_length in H. rewrite H.
  pose proof (where_length (map f l) 0) as Hw. rewrite length_map in Hw. exact Hw.
Qed.

(** Pruning never returns more rows than it is given. *)
Lemma prune_events_length
    (events r : list (list Z)) (event_id : option (list (string * Z)))
    (buffer_size : Z) (ts : list Q) (last_ts : option Q)
    (ts_events : option (list Q)) :
  _prune_events events event_id buffer_size ts last_ts ts_events = Ok r ->
  (length r <= length events)%nat.
Proof.
  unfold _prune_events. intros H.
  apply bind_Ok in H as (ev1 & H1 & H).
  apply bind_Ok in H as (ev2 & H2 & H).
  apply bind_Ok in H as (onsets & Hon & H).
  apply bind_Ok in H as (ev3 & H3 & H).
  assert (L1 : (length ev1 <= length events)%nat).
  { destruct event_id as [d|].
    - apply bind_Ok in H1 as (codes & _ & H1). injection H1 as <-.
      apply compress_length.
    - injection H1 as <-; lia. }
  assert (L2 : length ev2 = length ev1).
  { destruct ts_events as [tse|].
    - apply bind_Ok in H2 as (idx & _ & H2).
      apply bind_Ok in H2 as (t & _ & H2).
      eapply set_col0_length; eauto.
    - injection H2 as <-; reflexivity. }
  assert (L3 : (length ev3 <= length ev2)%nat).
  { apply take_where_length in H3. apply mapM_length in Hon. lia. }
  destruct last_ts as [l|].
  - apply bind_Ok in H as (onsets' & Hon' & H).
    apply bind_Ok in H as (t & Ht & H).
    apply take_where_length in H.
    apply mapM_length in Hon'. apply mapM_length in Ht. lia.
  - injection H as <-. lia.
Qed.

(** On the one-hot path the events are the rows that remain of a stack
    of three: there are at most three of them, however many samples the
    event stream has, and none unless the event stream has as many
    samples as the stream has channels. *)
Lemma one_hot_events_at_most_three
    (mne : MNE) (self : EpochsStream) (stream es : StreamView)
    (events : list (list Z)) :
  Qeq_bool (sfreq (s_info es)) 0 = true ->
  acquire_events mne self stream (Some es) = Ok events ->
  (length events <= 3)%nat /\ length (s_ts es) = length (s_data stream).
Proof.
  intros Hs H. unfold acquire_events in H. rewrite Hs in H. simpl in H.
  apply bind_Ok in H as (am & Ham & H).
  apply bind_Ok in H as (stack & Hst & H).
  apply bind_Ok in H as (buffer & _ & H).
  apply prune_events_length in H.
  unfold vstack3 in Hst.
  destruct (_ && _) eqn:E; [|discriminate]. injection Hst as <-.
  split; [exact H|].
  apply andb_true_iff in E as [E1 E2].
  apply Nat.eqb_eq in E1. apply Nat.eqb_eq in E2.
  unfold arange, zeros_int in *.
  rewrite length_map, length_seq in E1.
  apply mapM_length in Ham. congruence.
Qed.

(** The third row is computed from the data of the stream: its length is
    the number of channels of the stream. *)
Lemma argmax_axis1_length (a : list (list Q)) (r : list Z) :
  argmax_axis1 a = Ok r -> length r = length a.
Proof. apply mapM_length. Qed.

(** ** Indexing within bounds *)

Lemma wrap64_small (z : Z) : - 2 ^ 63 <= z < 2 ^ 63 -> wrap64 z = z.
Proof.
  intros H; unfold wrap64.
  rewrite Z.mod_small by lia. lia.
Qed.

Lemma add64_small (a b : Z) : - 2 ^ 63 <= a + b < 2 ^ 63 -> add64 a b = a + b.
Proof. apply wrap64_small. Qed.

Lemma norm_index_nonneg (n : nat) (i : Z) :
  0 <= i < Z.of_nat n -> norm_index n i = Ok (Z.to_nat i).
Proof.
  intros H; unfold norm_index.
  replace (0 <=? i) with true by (symmetry; apply Z.leb_le; lia).
  replace (i <? Z.of_nat n) with true by (symmetry; apply Z.ltb_lt; lia).
  reflexivity.
Qed.

Lemma getitem_nonneg {A : Type} (a : list A) (i : Z) (d : A) :
  0 <= i < Z.of_nat (length a) -> getitem a i = Ok (nth (Z.to_nat i) a d).
Proof.
  intros H; unfold getitem.
  rewrite norm_index_nonneg by exact H; simpl.
  rewrite (nth_error_nth' a d) by lia. reflexivity.
Qed.

Lemma getitem_Ok_In {A : Type} (a : list A) (i : Z) (x : A) :
  getitem a i = Ok x -> In x a.
Proof.
  unfold getitem. intros H. apply bind_Ok in H as (k & _ & H).
  destruct (nth_error a k) eqn:E; [|discriminate].
  injection H as <-. eapply nth_error_In; eauto.
Qed.

Lemma take_nonneg {A : Type} (a : list A) (idx : list Z) (d : A) :
  Forall (fun i => 0 <= i < Z.of_nat (length a)) idx ->
  take a idx = Ok (map (fun i => nth (Z.to_nat i) a d) idx).
Proof.
  intros H; unfold take; apply mapM_Ok.
  eapply Forall_impl; [|exact H].
  intros i Hi; apply getitem_nonneg; exact Hi.
Qed.

Lemma slice_bound_in (n : nat) (i : Z) :
  0 <= i <= Z.of_nat n -> slice_bound n i = Z.to_nat i.
Proof.
  intros H; unfold slice_bound.
  replace (i <? 0) with false by (symmetry; apply Z.ltb_ge; lia).
  f_equal; lia.
Qed.

Lemma nth_slice {A : Type} (a : list A) (start stop : Z) (j : nat) (d : A) :
  0 <= start -> start <= stop -> stop <= Z.of_nat (length a) ->
  (j < Z.to_nat (stop - start))%nat ->
  nth j (slice a start stop) d = nth (Z.to_nat start + j) a d.
Proof.
  intros H0 H1 H2 Hj; unfold slice.
  rewrite !slice_bound_in by lia.
  rewrite nth_firstn.
  replace (j <? Z.to_nat stop - Z.to_nat start)%nat with true
    by (symmetry; apply Nat.ltb_lt; lia).
  apply nth_skipn.
Qed.

Lemma broadcast_rows_same {A : Type} (n : nat) (src : list A) :
  length src = n -> broadcast_rows n src = Ok src.
Proof.
  intros H; unfold broadcast_rows.
  rewrite H, Nat.eqb_refl; reflexivity.
Qed.

(** ** Extraction (C4, C10) *)

(** When the window [start, start + nsamp) lies within the data, the
    epoch is made of the [nsamp] samples of the picked channels from
    sample [start] on. *)
Lemma extract_epoch_in_bounds
    (data : list (list Q)) (picks : list Z) (start : Z) (nsamp T : nat) :
  data <> [] ->
  Forall (fun row => length row = T) data ->
  Forall (fun p => 0 <= p < Z.of_nat (length data)) picks ->
  0 <= start -> start + Z.of_nat nsamp <= Z.of_nat T -> Z.of_nat T < 2 ^ 63 ->
  extract_epoch data picks start nsamp
  = Ok (map (fun j => map (fun p => nth (Z.to_nat start + j)
                                        (nth (Z.to_nat p) data []) 0%Q) picks)
            (seq 0 nsamp)).
Proof.
  intros Hne Hrect Hpicks H0 H1 HT.
  unfold extract_epoch.
  rewrite (take_nonneg data picks []) by exact Hpicks; simpl.
  assert (HnT : n_times data = T).
  { unfold n_times. destruct data as [|r data]; [contradiction|].
    inversion Hrect; subst; reflexivity. }
  rewrite HnT, add64_small by lia.
  rewrite !slice_bound_in by lia.
  replace (Z.to_nat (start + Z.of_nat nsamp) - Z.to_nat start)%nat with nsamp by lia.
  unfold transpose.
  rewrite broadcast_rows_same by (rewrite length_map, length_seq; reflexivity).
  f_equal. apply map_ext_in. intros j Hj. apply in_seq in Hj.
  rewrite !map_map. apply map_ext_in. intros p Hp.
  rewrite Forall_forall in Hpicks. specialize (Hpicks p Hp).
  apply nth_slice; try lia.
  rewrite Forall_forall in Hrect.
  rewrite (Hrect (nth (Z.to_nat p) data [])); [lia|].
  apply nth_In; lia.
Qed.

(** The setting of the specification: [tmin = -0.2] at 100 Hz shifts the
    onset by -20 samples, and [tmax - tmin = 0.7] gives 70 samples. *)
Lemma shift_and_length_at_100Hz :
  py_round (- (1 # 5) * 100)%Q = -20
  /\ ceil (((1 # 2) - - (1 # 5)) * 100)%Q = 70.
Proof. split; reflexivity. Qed.

(** The code computes both in binary64, with the same results in this
    setting. The results differ from those on the numbers elsewhere:
    [-0.575 * 100.0] is [-57.49999999999999] and rounds to -57, where
    -57.5 would round to -58. *)
Lemma shift_and_length_binary64 :
  epoch_shift (- (1 # 5)) 100 = Ok (-20)
  /\ epoch_samples (- (1 # 5)) (1 # 2) 100 = Ok 70
  /\ epoch_shift (- (23 # 40)) 100 = Ok (-57)
  /\ py_round (- (23 # 40) * 100)%Q = -58.
Proof. repeat split; vm_compute; reflexivity. Qed.

(** A single onset at sample 50 gives one epoch, the 70 samples from
    sample 30 on, in the last slot of the buffer. *)
Lemma onset_50_epoch_starts_at_30 :
  st_extracted Demo.first_step = [[50; 0; 1]]
  /\ _buffer (st_self Demo.first_step)
     = Some [repeat [0; 0]%Q 70; repeat [0; 0]%Q 70; Demo.epoch_at [(50, 1)] 30 70].
Proof. vm_compute. split; reflexivity. Qed.

(** C4, on the code.  A trigger at sample 5 of the window survives
    pruning; the window its epoch should cover starts at sample -15, the
    slice [-15:55] of the 200 samples is empty, the assignment to
    [data_selection] fails and the step disconnects the object.  With
    [tmin = -1] and [tmax = -0.3] a trigger at sample 10 gives the slice
    [-90:-20]: an epoch is extracted, and it starts at sample 110. *)
Theorem early_onset_epoch_wrong :
  acquire_events Demo.mne (Demo.epochs1 Demo.ids1) Demo.early_window None
  = Ok [[5; 0; 1]]
  /\ select_data (Demo.epochs1 Demo.ids1) Demo.early_window [[5; 0; 1]]
     = Raise ValueError
  /\ st_extracted Demo.early_step = []
  /\ _buffer (st_self Demo.early_step) = None
  /\ st_extracted Demo.pre_step = [[10; 0; 1]]
  /\ py_round (_tmin Demo.pre_epochs1 * 100)%Q = -100
  /\ _buffer (st_self Demo.pre_step)
     = Some [repeat [0; 0]%Q 70; repeat [0; 0]%Q 70; Demo.epoch_at [(10, 1)] 110 70].
Proof. vm_compute. repeat (split; [reflexivity|]). reflexivity. Qed.

(** C10, on the code.  With [tmin = -0.2] and 70 samples per epoch an
    onset at sample 5 of 200 passes [_prune_events] and its window starts
    at sample -15; with [tmin = 0.1] and [tmax = 0.5] (40 samples per
    epoch) an onset at sample 160 of 200 passes [_prune_events] and its
    window ends at sample 210.  Neither can be extracted. *)
Theorem pruned_window_out_of_bounds :
  _prune_events [[5; 0; 1]] (Some Demo.ids1) 70 (s_ts Demo.early_window) None None
  = Ok [[5; 0; 1]]
  /\ add64 5 (py_round (- (1 # 5) * 100)%Q) = -15
  /\ extract_epoch (s_data Demo.early_window) [0; 1] (-15) 70 = Raise ValueError
  /\ ceil (((1 # 2) - (1 # 10)) * 100)%Q = 40
  /\ _prune_events [[160; 0; 1]] (Some Demo.ids1) 40 (s_ts Demo.early_window) None None
     = Ok [[160; 0; 1]]
  /\ add64 160 (py_round ((1 # 10) * 100)%Q) + 40 = 210
  /\ length (s_ts Demo.early_window) = 200%nat
  /\ extract_epoch (s_data Demo.early_window) [0; 1] 170 40 = Raise ValueError.
Proof. vm_compute. repeat (split; [reflexivity|]). reflexivity. Qed.

(** ** Pruning (C5) *)

Lemma col_Ok {A : Type} (a : list (list A)) (j : Z) (f : list A -> A) :
  Forall (fun row => getitem row j = Ok (f row)) a -> col a j = Ok (map f a).
Proof. apply mapM_Ok. Qed.

Lemma getitem_onset (row : list Z) : row <> [] -> getitem row 0 = Ok (onset row).
Proof. destruct row; [contradiction|reflexivity]. Qed.

Lemma getitem_code (row : list Z) : length row = 3%nat -> getitem row 2 = Ok (code row).
Proof.
  destruct row as [|a [|b [|c [|d r]]]]; try discriminate; reflexivity.
Qed.

Lemma compress_map {A : Type} (f : A -> bool) (l : list A) :
  compress (map f l) l = filter f l.
Proof.
  induction l as [|x l IH]; simpl; [reflexivity|].
  rewrite IH; reflexivity.
Qed.

Lemma set_col0_map {A : Type} (f : list A -> A) (a : list (list A)) :
  Forall (fun row => row <> []) a ->
  set_col0 a (map f a) = Ok (map (fun row => f row :: tl row) a).
Proof.
  induction 1 as [|row a Hrow _ IH]; simpl; [reflexivity|].
  destruct row; [contradiction|].
  rewrite IH; reflexivity.
Qed.

Lemma getitem_middle {A : Type} (pre l : list A) (x : A) :
  getitem (pre ++ x :: l) (Z.of_nat (length pre)) = Ok x.
Proof.
  unfold getitem.
  rewrite norm_index_nonneg by (rewrite length_app; simpl; lia); simpl.
  rewrite Nat2Z.id, nth_error_app2, Nat.sub_diag by lia. reflexivity.
Qed.

Lemma take_where_from {A : Type} (f : A -> bool) (l pre : list A) :
  take (pre ++ l) (where_ (map f l) (Z.of_nat (length pre))) = Ok (filter f l).
Proof.
  revert pre; induction l as [|x l IH]; intros pre; simpl; [reflexivity|].
  assert (E : take (pre ++ x :: l)
                   (where_ (map f l) (Z.of_nat (length pre) + 1))
              = Ok (filter f l)).
  { specialize (IH (pre ++ [x])).
    rewrite <- app_assoc, length_app in IH; simpl in IH.
    replace (Z.of_nat (length pre + 1)) with (Z.of_nat (length pre) + 1) in IH by lia.
    exact IH. }
  destruct (f x); [|exact E].
  unfold take in *; simpl.
  rewrite getitem_middle; simpl. rewrite E; reflexivity.
Qed.

(** Selecting the rows at [np.where(mask)[0]] keeps, in order, the rows
    at which the mask holds. *)
Lemma take_where {A : Type} (f : A -> bool) (l : list A) :
  take l (where_ (map f l) 0) = Ok (filter f l).
Proof. exact (take_where_from f l []). Qed.

Lemma filter_filter {A : Type} (f g : A -> bool) (l : list A) :
  filter g (filter f l) = filter (fun x => f x && g x) l.
Proof.
  induction l as [|x l IH]; simpl; [reflexivity|].
  destruct (f x); simpl; [destruct (g x)|]; rewrite IH; reflexivity.
Qed.

Lemma searchsorted_left_range (a : list Q) (v : Q) :
  0 <= searchsorted_left a v <= Z.of_nat (length a).
Proof.
  unfold searchsorted_left. split; [lia|].
  apply inj_le. induction a as [|x a IH]; simpl; [lia|].
  destruct (Qltb x v); simpl; lia.
Qed.

Lemma filter_ascending (f : list Z -> bool) (events : list (list Z)) :
  ascending events -> ascending (filter f events).
Proof.
  unfold ascending; induction 1 as [|row l Hl IH Hrow]; simpl; [constructor|].
  destruct (f row); [|exact IH].
  constructor; [exact IH|].
  rewrite Forall_forall in *. intros r Hr.
  apply filter_In in Hr as [Hr _]. auto.
Qed.

Lemma filter_all {A : Type} (l : list A) : filter (fun _ => true) l = l.
Proof. induction l as [|x l IH]; simpl; [|rewrite IH]; reflexivity. Qed.

Lemma map_filter_ascending (f : list Z -> list Z) (p : list Z -> bool)
    (events : list (list Z)) :
  ascending (map f events) -> ascending (map f (filter p events)).
Proof.
  unfold ascending; induction events as [|row l IH]; simpl; intros H; [constructor|].
  inversion H as [|? ? Hl Hrow]; subst.
  destruct (p row); simpl; [|auto].
  constructor; [auto|].
  rewrite Forall_forall in *. intros r Hr.
  apply in_map_iff in Hr as (r0 & <- & Hr0).
  apply filter_In in Hr0 as [Hr0 _].
  apply Hrow, in_map, Hr0.
Qed.

(** The first criterion: the allow-list. *)
Lemma prune_allowed (events : list (list Z)) (event_id : option (list (string * Z))) :
  Forall (fun row => length row = 3%nat) events ->
  match event_id with
  | Some d => codes <- col events 2 ;; Ok (compress (isin codes (map snd d)) events)
  | None => Ok events
  end = Ok (filter (allowed event_id) events).
Proof.
  intros H. destruct event_id as [d|]; simpl.
  - rewrite (col_Ok events 2 code)
      by (eapply Forall_impl; [|exact H]; intros row; apply getitem_code).
    simpl. unfold isin. rewrite map_map, compress_map. reflexivity.
  - rewrite filter_all; reflexivity.
Qed.

(** The re-anchoring of the onsets of an event stream. *)
Lemma prune_reanchor (events : list (list Z)) (ts : list Q)
    (ts_events : option (list Q)) :
  Forall (fun row => row <> [] /\ 0 <= onset row) events ->
  (forall tse, ts_events = Some tse ->
     Forall (fun row => onset row < Z.of_nat (length tse)) events) ->
  match ts_events with
  | Some tse =>
      idx <- col events 0 ;;
      t <- take tse idx ;;
      set_col0 events (map (searchsorted_left ts) t)
  | None => Ok events
  end = Ok (map (reanchor ts ts_events) events).
Proof.
  intros H Htse. destruct ts_events as [tse|]; simpl.
  - specialize (Htse tse eq_refl).
    rewrite (col_Ok events 0 onset)
      by (eapply Forall_impl; [|exact H]; intros row [Hr _]; apply getitem_onset, Hr).
    simpl.
    rewrite (take_nonneg tse (map onset events) 0%Q).
    + simpl. rewrite !map_map.
      apply set_col0_map.
      eapply Forall_impl; [|exact H]. intros row [Hr _]; exact Hr.
    + rewrite Forall_forall in *. intros i Hi.
      apply in_map_iff in Hi as (row & <- & Hrow).
      specialize (H row Hrow). specialize (Htse row Hrow). lia.
  - rewrite map_id; reflexivity.
Qed.

(** The second criterion: the epoch fits in the available samples. *)
Lemma prune_fits (events : list (list Z)) (buffer_size : Z) (ts : list Q) :
  Forall (fun row => row <> [] /\ 0 <= onset row < 2 ^ 62) events ->
  0 < buffer_size < 2 ^ 62 ->
  (onsets <- col events 0 ;;
   take events
        (where_ (map (fun o => add64 o buffer_size <=? Z.of_nat (length ts)) onsets) 0))
  = Ok (filter (fits buffer_size ts) events).
Proof.
  intros H Hsize.
  rewrite (col_Ok events 0 onset)
    by (eapply Forall_impl; [|exact H]; intros row [Hr _]; apply getitem_onset, Hr).
  simpl. rewrite map_map.
  rewrite (map_ext_in _ (fits buffer_size ts)).
  - apply take_where.
  - intros row Hrow. rewrite Forall_forall in H. specialize (H row Hrow).
    unfold fits. rewrite add64_small by lia. reflexivity.
Qed.

(** The third criterion: the onset is later than the watermark. *)
Lemma prune_is_new (events : list (list Z)) (ts : list Q) (last_ts : option Q) :
  Forall (fun row => row <> [] /\ 0 <= onset row < Z.of_nat (length ts)) events ->
  match last_ts with
  | Some l =>
      onsets <- col events 0 ;;
      t <- take ts onsets ;;
      take events (where_ (map (fun x => Qltb l x) t) 0)
  | None => Ok events
  end = Ok (filter (is_new ts last_ts) events).
Proof.
  intros H. destruct last_ts as [l|]; simpl.
  - rewrite (col_Ok events 0 onset)
      by (eapply Forall_impl; [|exact H]; intros row [Hr _]; apply getitem_onset, Hr).
    simpl.
    rewrite (take_nonneg ts (map onset events) 0%Q).
    + simpl. rewrite !map_map. apply take_where.
    + rewrite Forall_forall in *. intros i Hi.
      apply in_map_iff in Hi as (row & <- & Hrow).
      apply H, Hrow.
  - rewrite filter_all; reflexivity.
Qed.

(** C5. On events [(onset, previous value, code)] with onsets that are
    sample numbers (of the event stream when there is one), pruning
    raises nothing and keeps, in their order, exactly the events whose
    code is in the allow-list (when there is one), whose onset, on the
    timestamps of the stream, leaves room for an epoch
    ([onset + buffer_size <= len ts]) and whose timestamp is later than
    the watermark (when there is one).  Ascending onsets stay ascending. *)
Theorem prune_events_survivors
    (events : list (list Z)) (event_id : option (list (string * Z)))
    (buffer_size : Z) (ts : list Q) (last_ts : option Q)
    (ts_events : option (list Q))
    (Hrows : Forall (fun row => length row = 3%nat /\ 0 <= onset row < 2 ^ 62) events)
    (Htse : forall tse, ts_events = Some tse ->
              Forall (fun row => onset row < Z.of_nat (length tse)) events)
    (Hsize : 0 < buffer_size < 2 ^ 62)
    (Hts : Z.of_nat (length ts) < 2 ^ 62) :
  _prune_events events event_id buffer_size ts last_ts ts_events
  = Ok (filter (fun row => fits buffer_size ts row && is_new ts last_ts row)
          (map (reanchor ts ts_events) (filter (allowed event_id) events)))
  /\ (forall row,
        In row (filter (fun row => fits buffer_size ts row && is_new ts last_ts row)
                  (map (reanchor ts ts_events) (filter (allowed event_id) events)))
        <-> (exists row0, In row0 events /\ allowed event_id row0 = true
                          /\ row = reanchor ts ts_events row0)
            /\ fits buffer_size ts row = true
            /\ is_new ts last_ts row = true)
  /\ (ascending (map (reanchor ts ts_events) events) ->
      ascending
        (filter (fun row => fits buffer_size ts row && is_new ts last_ts row)
           (map (reanchor ts ts_events) (filter (allowed event_id) events)))).
Proof.
  split; [|split].
  - unfold _prune_events.
    rewrite prune_allowed
      by (eapply Forall_impl; [|exact Hrows]; intros row [Hr _]; exact Hr).
    simpl.
    assert (H1 : Forall (fun row => length row = 3%nat /\ 0 <= onset row < 2 ^ 62)
                   (filter (allowed event_id) events)).
    { rewrite Forall_forall in *. intros row Hr.
      apply filter_In in Hr as [Hr _]. auto. }
    rewrite prune_reanchor.
    + simpl.
      assert (H2 : Forall (fun row => row <> [] /\ 0 <= onset row < 2 ^ 62)
                     (map (reanchor ts ts_events) (filter (allowed event_id) events))).
      { rewrite Forall_forall in *. intros row Hr.
        apply in_map_iff in Hr as (row0 & <- & Hr0).
        specialize (H1 row0 Hr0) as [Hlen Hon].
        destruct ts_events as [tse|]; simpl.
        - split; [discriminate|].
          pose proof (searchsorted_left_range ts
                        (nth (Z.to_nat (onset row0)) tse 0%Q)) as Hss.
          remember (searchsorted_left ts (nth (Z.to_nat (onset row0)) tse 0%Q)) as ss.
          change (0 <= ss < 2 ^ 62). lia.
        - split; [|exact Hon]. intros ->; discriminate. }
      set (ev2 := map (reanchor ts ts_events) (filter (allowed event_id) events)) in *.
      rewrite <- filter_filter.
      pose proof (prune_fits ev2 buffer_size ts H2 Hsize) as E3.
      unfold bind in E3 |- *.
      destruct (col ev2 0) as [onsets|e]; [|discriminate].
      rewrite E3.
      apply prune_is_new.
      rewrite Forall_forall in *. intros row Hr.
      apply filter_In in Hr as [Hr Hfit].
      specialize (H2 row Hr) as [Hne Hon].
      unfold fits in Hfit. apply Z.leb_le in Hfit.
      split; [exact Hne | lia].
    + eapply Forall_impl; [|exact H1]. intros row [Hlen Hon].
      split; [intros ->; discriminate | lia].
    + intros tse E. specialize (Htse tse E).
      rewrite Forall_forall in *. intros row Hr.
      apply filter_In in Hr as [Hr _]. auto.
  - intros row. rewrite filter_In, andb_true_iff, in_map_iff.
    split.
    + intros [(row0 & <- & Hr0) [Hf Hn]].
      apply filter_In in Hr0 as [Hr0 Ha].
      split; [exists row0; auto | auto].
    + intros [(row0 & Hr0 & Ha & ->) [Hf Hn]].
      split; [exists row0; split; [reflexivity | apply filter_In; auto] | auto].
  - intros H. apply filter_ascending, map_filter_ascending, H.
Qed.

Lemma prune_events_survivors_witness :
  _prune_events [[10; 0; 1]; [30; 0; 2]; [60; 0; 2]; [150; 0; 2]]
                (Some [("target"%string, 2)]) 70 (s_ts (Demo.window [] 0 200))
                (Some (30 # 100)) None
  = Ok [[60; 0; 2]].
Proof.
  destruct (prune_events_survivors
              [[10; 0; 1]; [30; 0; 2]; [60; 0; 2]; [150; 0; 2]]
              (Some [("target"%string, 2)]) 70 (s_ts (Demo.window [] 0 200))
              (Some (30 # 100)) None) as (E & _).
  - repeat (apply Forall_cons; [split; [reflexivity | cbn; lia]|]). apply Forall_nil.
  - intros tse H; discriminate H.
  - lia.
  - vm_compute; reflexivity.
  - rewrite E. vm_compute. reflexivity.
Defined.

(** With the allow-list [{target: 2}] and no watermark, of onsets with
    codes 1 and 2 only those with code 2 survive. *)
Lemma prune_keeps_code_2 :
  _prune_events [[10; 0; 1]; [30; 0; 2]; [60; 0; 1]; [90; 0; 2]]
                (Some [("target"%string, 2)]) 70 (s_ts (Demo.window [] 0 200))
                None None
  = Ok [[30; 0; 2]; [90; 0; 2]].
Proof. vm_compute; reflexivity. Qed.

(** ** Insertion in the buffer (C6) *)

Lemma roll_left_length {A : Type} (k : nat) (a : list A) :
  length (roll_left k a) = length a.
Proof.
  unfold roll_left. rewrite length_app, length_skipn, length_firstn.
  destruct a as [|x a]; [simpl; lia|].
  pose proof (Nat.mod_upper_bound k (length (x :: a))) as H.
  assert (length (x :: a) <> 0%nat) by (simpl; lia). lia.
Qed.

(** Rolling by [k] and overwriting the last [k] rows drops the first [k]
    rows and appends the batch. *)
Lemma assign_tail_roll {A : Type} (k : nat) (a batch : list A) :
  (0 < k <= length a)%nat -> length batch = k ->
  assign_tail k (roll_left k a) batch = Ok (skipn k a ++ batch).
Proof.
  intros Hk Hb. unfold assign_tail.
  rewrite roll_left_length.
  replace (k =? 0)%nat with false by (symmetry; apply Nat.eqb_neq; lia).
  rewrite Nat.min_l by lia.
  rewrite broadcast_rows_same by exact Hb. simpl.
  f_equal. f_equal.
  unfold roll_left.
  destruct (Nat.eq_dec k (length a)) as [->|Hne].
  - rewrite Nat.Div0.mod_same, Nat.sub_diag, skipn_all. reflexivity.
  - rewrite Nat.mod_small by lia.
    rewrite firstn_app, length_skipn.
    replace (length a - k - (length a - k))%nat with 0%nat by lia.
    rewrite firstn_all2 by (rewrite length_skipn; lia).
    simpl. apply app_nil_r.
Qed.

Lemma mapM_mapM_Forall2 {A B C : Type} (f : A -> result B) (g : B -> result C)
    (l : list A) (l1 : list B) (l2 : list C) :
  mapM f l = Ok l1 -> mapM g l1 = Ok l2 ->
  Forall2 (fun a c => (b <- f a ;; g b) = Ok c) l l2.
Proof.
  revert l1 l2; induction l as [|a l IH]; simpl; intros l1 l2 H1 H2.
  - injection H1 as <-. simpl in H2. injection H2 as <-. constructor.
  - apply bind_Ok in H1 as (b & Hb & H1).
    apply bind_Ok in H1 as (bs & Hbs & H1).
    injection H1 as <-. simpl in H2.
    apply bind_Ok in H2 as (c & Hc & H2).
    apply bind_Ok in H2 as (cs & Hcs & H2).
    injection H2 as <-.
    constructor; [rewrite Hb; simpl; exact Hc | eauto].
Qed.

(** [data_selection] holds one epoch per event, in the order of the
    events. *)
Lemma select_data_epochs (self : EpochsStream) (stream : StreamView)
    (events : list (list Z)) (sel : list (list (list Q))) :
  select_data self stream events = Ok sel ->
  length sel = length events
  /\ Forall2 (fun row ep => event_epoch self stream row = Ok ep) events sel.
Proof.
  unfold select_data, event_epoch. intros H.
  apply bind_Ok in H as (buffer & -> & H).
  apply bind_Ok in H as (picks & -> & H).
  apply bind_Ok in H as (info & -> & H).
  apply bind_Ok in H as (shift & Hshift & H).
  apply bind_Ok in H as (onsets & Hon & H).
  simpl. rewrite Hshift. simpl. split.
  - apply mapM_length in H. apply mapM_length in Hon. congruence.
  - exact (mapM_mapM_Forall2 _ _ _ _ _ Hon H).
Qed.

(** A step that adds a batch of [k] epochs to a buffer of at least [k]
    slots leaves the buffer without its [k] first slots, followed by the
    epochs of the events in their order. *)
Lemma acquire_inserts_batch
    (mne : MNE) (self : EpochsStream) (stream : StreamView)
    (event_stream : option StreamView) (environ : option string)
    (buffer : list (list (list Q))) :
  _buffer self = Some buffer ->
  (0 < length (st_extracted (_acquire mne self stream event_stream environ))
   <= length buffer)%nat ->
  exists sel,
    select_data self stream (st_extracted (_acquire mne self stream event_stream environ))
    = Ok sel
    /\ length sel = length (st_extracted (_acquire mne self stream event_stream environ))
    /\ Forall2 (fun row ep => event_epoch self stream row = Ok ep)
               (st_extracted (_acquire mne self stream event_stream environ)) sel
    /\ _buffer (st_self (_acquire mne self stream event_stream environ))
       = Some (skipn (length sel) buffer ++ sel).
Proof.
  intros Hbuf Hk. unfold _acquire in *.
  destruct (acquire_body mne self stream event_stream) as [[s|s ev]|e] eqn:E;
    simpl in *; try lia.
  apply acquire_body_fallthrough in E
    as (b & sel & b' & t & Hev & Hne & Hb & Hsel & Hasg & ->).
  rewrite Hbuf in Hb; injection Hb as <-.
  destruct (select_data_epochs _ _ _ _ Hsel) as [Hlen HF].
  exists sel. split; [exact Hsel|]. split; [exact Hlen|]. split; [exact HF|].
  destruct (submit_frame
              (set_n_new_epochs (set_last (set_buffer self b') t)
                 (_n_new_epochs self + Z.of_nat (length ev)))) as (-> & _).
  simpl. rewrite assign_tail_roll in Hasg by (rewrite ?Hlen; lia).
  injection Hasg as <-. rewrite Hlen. reflexivity.
Qed.

(** ** The shape of the buffer (C7) *)

Lemma broadcast_rows_Ok {A : Type} (n : nat) (src r : list A) :
  broadcast_rows n src = Ok r ->
  length r = n /\ Forall (fun x => In x src) r.
Proof.
  unfold broadcast_rows.
  destruct (length src =? n)%nat eqn:E.
  - intros H; injection H as <-. apply Nat.eqb_eq in E.
    split; [exact E|]. apply Forall_forall; auto.
  - destruct src as [|x [|y src]]; try discriminate.
    intros H; injection H as <-.
    split; [apply repeat_length|].
    apply Forall_forall. intros y Hy. apply repeat_spec in Hy as ->. left; reflexivity.
Qed.

(** An extracted epoch has [nsamp] rows of one entry per picked channel. *)
Lemma extract_epoch_shape (data : list (list Q)) (picks : list Z) (start : Z)
    (nsamp : nat) (ep : list (list Q)) :
  extract_epoch data picks start nsamp = Ok ep ->
  length ep = nsamp /\ Forall (fun r => length r = length picks) ep.
Proof.
  unfold extract_epoch. intros H.
  apply bind_Ok in H as (rows & Hrows & H).
  apply mapM_length in Hrows.
  apply broadcast_rows_Ok in H as [Hlen HF].
  split; [exact Hlen|].
  eapply Forall_impl; [|exact HF].
  intros r Hr. unfold transpose in Hr.
  apply in_map_iff in Hr as (j & <- & _).
  rewrite !length_map. exact Hrows.
Qed.

Lemma select_data_shape (self : EpochsStream) (stream : StreamView)
    (events : list (list Z)) (sel : list (list (list Q)))
    (buffer : list (list (list Q))) (picks : list Z) :
  _buffer self = Some buffer -> _picks self = Some picks ->
  select_data self stream events = Ok sel ->
  Forall (fun e => length e = length (hd [] buffer)
                   /\ Forall (fun r => length r = length picks) e) sel.
Proof.
  intros Hb Hp H. unfold select_data in H. rewrite Hb, Hp in H. simpl in H.
  apply bind_Ok in H as (info & _ & H).
  apply bind_Ok in H as (shift & _ & H).
  apply bind_Ok in H as (onsets & _ & H).
  apply mapM_Forall2 in H.
  induction H as [|o e os es Ho _ IH]; constructor; [|exact IH].
  apply extract_epoch_shape in Ho. exact Ho.
Qed.

(** The two ways in which the assignment of a non-empty batch to the
    rolled buffer succeeds: the batch is not longer than the buffer, or
    the buffer has no slot. *)
Lemma assign_tail_roll_cases {A : Type} (a batch r : list A) :
  batch <> [] ->
  assign_tail (length batch) (roll_left (length batch) a) batch = Ok r ->
  ((length batch <= length a)%nat /\ r = skipn (length batch) a ++ batch)
  \/ (a = [] /\ r = []).
Proof.
  intros Hne H.
  assert (Hk : (0 < length batch)%nat) by (destruct batch; [contradiction|simpl; lia]).
  destruct (Nat.le_gt_cases (length batch) (length a)) as [Hle|Hgt].
  - left. split; [exact Hle|].
    rewrite assign_tail_roll in H by lia. injection H as <-. reflexivity.
  - right. unfold assign_tail in H. rewrite roll_left_length in H.
    replace (length batch =? 0)%nat with false in H
      by (symmetry; apply Nat.eqb_neq; lia).
    rewrite Nat.min_r in H by lia.
    apply bind_Ok in H as (blk & Hblk & H). injection H as <-.
    unfold broadcast_rows in Hblk.
    replace (length batch =? length a)%nat with false in Hblk
      by (symmetry; apply Nat.eqb_neq; lia).
    destruct batch as [|x [|y batch]]; try discriminate.
    simpl in Hgt. destruct a as [|z a]; [|simpl in Hgt; lia].
    injection Hblk as <-. split; reflexivity.
Qed.

Lemma has_shape_insert (n0 n1 n2 k : nat) (a sel : list (list (list Q))) :
  has_shape n0 n1 n2 a -> (k <= n0)%nat -> length sel = k ->
  Forall (fun e => length e = n1 /\ Forall (fun r => length r = n2) e) sel ->
  has_shape n0 n1 n2 (skipn k a ++ sel).
Proof.
  intros [Hlen HF] Hk Hs Hsel. split.
  - rewrite length_app, length_skipn. lia.
  - apply Forall_app. split; [|exact Hsel].
    rewrite Forall_forall in *. intros e He. apply HF.
    rewrite <- (firstn_skipn k a). apply in_or_app. right; exact He.
Qed.

Lemma zero_prefix_insert (n0 n1 n2 j k : nat) (a sel : list (list (list Q))) :
  length a = n0 ->
  zero_prefix (n0 - j) n1 n2 a ->
  zero_prefix (n0 - (j + k)) n1 n2 (skipn k a ++ sel).
Proof.
  intros Hlen Hz i Hi.
  rewrite nth_error_app1 by (rewrite length_skipn; lia).
  rewrite nth_error_skipn. apply Hz. lia.
Qed.

Lemma buffer_inv_frame (n0 n1 n2 : nat) (info : Info) (picks : list Z) (j : nat)
    (self self' : EpochsStream) :
  _acquisition_delay self' = _acquisition_delay self ->
  _buffer self' = _buffer self ->
  _info self' = _info self ->
  _picks self' = _picks self ->
  buffer_inv n0 n1 n2 info picks j self ->
  buffer_inv n0 n1 n2 info picks j self'.
Proof.
  unfold buffer_inv. intros -> -> -> -> H. exact H.
Qed.

Lemma buffer_inv_submit (n0 n1 n2 : nat) (info : Info) (picks : list Z) (j : nat)
    (self : EpochsStream) :
  buffer_inv n0 n1 n2 info picks j self ->
  buffer_inv n0 n1 n2 info picks j (_submit_acquisition_job self).
Proof.
  pose proof (submit_frame self) as (Hb & _ & _ & _ & Hi & Hp & Hd).
  apply buffer_inv_frame; assumption.
Qed.

(** A step keeps the shape of the buffer and consumes one zero slot per
    epoch it adds. *)
Lemma acquire_buffer_inv
    (mne : MNE) (n0 n1 n2 : nat) (info : Info) (picks : list Z) (j : nat)
    (self : EpochsStream) (stream : StreamView) (event_stream : option StreamView)
    (environ : option string) :
  buffer_inv n0 n1 n2 info picks j self ->
  buffer_inv n0 n1 n2 info picks
    (j + length (st_extracted (_acquire mne self stream event_stream environ)))
    (st_self (_acquire mne self stream event_stream environ)).
Proof.
  intros Hinv. unfold _acquire.
  destruct (acquire_body mne self stream event_stream) as [[s|s ev]|e] eqn:E; simpl.
  - apply acquire_body_return in E as ->.
    rewrite Nat.add_0_r. apply buffer_inv_submit, Hinv.
  - apply acquire_body_fallthrough in E
      as (b & sel & b' & t & _ & Hne & Hb & Hsel & Hasg & ->).
    apply buffer_inv_submit.
    destruct Hinv as [(_ & Hnone & _)|(buffer & Hbuf & Hshape & Hzero & Hi & Hp & Hlp & Hd)];
      [congruence|].
    rewrite Hbuf in Hb; injection Hb as <-.
    destruct (select_data_epochs _ _ _ _ Hsel) as [Hlen _].
    pose proof (select_data_shape _ _ _ _ _ _ Hbuf Hp Hsel) as Hsh.
    rewrite <- Hlen in Hasg |- *.
    assert (Hsne : sel <> [])
      by (intros ->; destruct ev; [contradiction|discriminate]).
    pose proof (assign_tail_roll_cases _ _ _ Hsne Hasg) as Hcases.
    assert (Hb' : has_shape n0 n1 n2 b'
                  /\ zero_prefix (n0 - (j + length sel)) n1 n2 b').
    { destruct Hshape as [HN HF].
      destruct Hcases as [[Hle ->]|[-> ->]].
      - split.
        + apply has_shape_insert; [split; assumption | lia | reflexivity |].
          destruct buffer as [|x buffer];
            [destruct sel; [contradiction|simpl in Hle; lia]|].
          inversion HF as [|x0 l0 Hhd Htl Heq]. destruct Hhd as [Hx _].
          simpl in Hsh. rewrite Hx, Hlp in Hsh. exact Hsh.
        + apply zero_prefix_insert; assumption.
      - simpl in HN. subst n0. split.
        + split; [reflexivity | constructor].
        + intros i Hi'. simpl in Hi'. lia. }
    destruct Hb' as [Hs' Hz'].
    right. exists b'. simpl.
    split; [reflexivity|]. split; [exact Hs'|]. split; [exact Hz'|].
    split; [exact Hi|]. split; [exact Hp|]. split; [exact Hlp|exact Hd].
  - rewrite Nat.add_0_r. left. repeat split.
Qed.

Lemma get_data_buffer_inv
    (mne : MNE) (n0 n1 n2 : nat) (info : Info) (picks : list Z) (j : nat)
    (self : EpochsStream) (p : picks_arg) :
  buffer_inv n0 n1 n2 info picks j self ->
  buffer_inv n0 n1 n2 info picks j (fst (get_data mne self p)).
Proof.
  unfold get_data.
  destruct (_ <- attr (_info self) ;; _); simpl; [|auto].
  apply buffer_inv_frame; reflexivity.
Qed.

Lemma run_buffer_inv
    (mne : MNE) (n0 n1 n2 : nat) (info : Info) (picks : list Z)
    (calls : list call) (j : nat) (self : EpochsStream) :
  buffer_inv n0 n1 n2 info picks j self ->
  buffer_inv n0 n1 n2 info picks (j + total_added mne self calls) (run mne self calls).
Proof.
  revert j self; induction calls as [|c calls IH]; intros j self H; simpl.
  - rewrite Nat.add_0_r; exact H.
  - rewrite Nat.add_assoc. apply IH.
    destruct c as [s es env|p]; simpl.
    + apply acquire_buffer_inv, H.
    + rewrite Nat.add_0_r. apply get_data_buffer_inv, H.
Qed.

(** A successful [connect] of a disconnected object has computed the
    number of samples of an epoch. *)
Lemma connect_epoch_samples
    (mne : MNE) (self0 self : EpochsStream) (stream_connected : bool)
    (stream_info : Info) (event_stream_connected : option bool)
    (acquisition_delay : Q) (info : Info) :
  connected self0 = Ok false ->
  connect mne self0 stream_connected stream_info event_stream_connected
          acquisition_delay = (self, None) ->
  _info self = Some info ->
  exists n, epoch_samples (_tmin self0) (_tmax self0) (sfreq info) = Ok n /\ 0 <= n.
Proof.
  intros H0 H. unfold connect in H. rewrite H0 in H.
  destruct (negb stream_connected); [discriminate|].
  destruct (match event_stream_connected with
            | Some c => negb c
            | None => false
            end); [discriminate|].
  destruct (Qltb acquisition_delay 0); [discriminate|].
  simpl in H.
  destruct (negb (_n_new_epochs self0 =? 0)); [discriminate|].
  destruct (_picks_to_idx mne stream_info (_picks_init self0) true) as [picks|e];
    [|discriminate].
  destruct (epoch_samples _ _ _) as [n|e] eqn:En; [|discriminate].
  simpl in H.
  destruct (zeros3 _ _ _) as [buffer|e] eqn:Ez; [|discriminate].
  injection H as <-. simpl. intros Hi. injection Hi as <-.
  exists n. split; [exact En|].
  unfold zeros3 in Ez.
  destruct ((_bufsize self0 <? 0) || (n <? 0) || _) eqn:E; [discriminate|].
  apply orb_false_iff in E as [E _]. apply orb_false_iff in E as [_ E].
  apply Z.ltb_ge in E. exact E.
Qed.

(** A successful [connect] of a disconnected object allocates a buffer
    of zeros of shape [(bufsize, ceil((tmax - tmin) * sfreq), n_picks)]. *)
Lemma connect_buffer_inv
    (mne : MNE) (self0 self : EpochsStream) (stream_connected : bool)
    (stream_info : Info) (event_stream_connected : option bool)
    (acquisition_delay : Q) :
  connected self0 = Ok false ->
  connect mne self0 stream_connected stream_info event_stream_connected
          acquisition_delay = (self, None) ->
  exists info picks,
    _info self = Some info /\ _picks self = Some picks
    /\ _bufsize self = _bufsize self0
    /\ _tmin self = _tmin self0 /\ _tmax self = _tmax self0
    /\ buffer_inv (Z.to_nat (_bufsize self))
                  (epoch_length (_tmin self) (_tmax self) (sfreq info))
                  (length picks) info picks 0 self.
Proof.
  intros H0 H. unfold connect in H. rewrite H0 in H.
  destruct (negb stream_connected); [discriminate|].
  destruct (match event_stream_connected with
            | Some c => negb c
            | None => false
            end); [discriminate|].
  destruct (Qltb acquisition_delay 0); [discriminate|].
  simpl in H.
  destruct (negb (_n_new_epochs self0 =? 0)); [discriminate|].
  destruct (_picks_to_idx mne stream_info (_picks_init self0) true) as [picks|e];
    [|discriminate].
  destruct (epoch_samples _ _ _) as [n|e] eqn:En; [|discriminate].
  simpl in H.
  destruct (zeros3 _ _ _) as [buffer|e] eqn:Ez; [|discriminate].
  injection H as <-.
  exists (pick_info mne stream_info picks), picks. simpl.
  repeat (split; [reflexivity|]).
  right. exists buffer. simpl.
  unfold epoch_length. rewrite En.
  unfold zeros3 in Ez.
  destruct (_ || _); [discriminate|]. injection Ez as <-.
  rewrite Nat2Z.id.
  split; [reflexivity|]. split; [|split].
  - split; [apply repeat_length|].
    apply Forall_forall. intros e He. apply repeat_spec in He as ->.
    split; [apply repeat_length|].
    apply Forall_forall. intros r Hr. apply repeat_spec in Hr as ->.
    apply repeat_length.
  - intros i Hi. rewrite nth_error_repeat by lia. reflexivity.
  - repeat split. discriminate.
Qed.

Lemma getitem_valid {A : Type} (a : list A) (i : Z) :
  - Z.of_nat (length a) <= i < Z.of_nat (length a) ->
  exists x, getitem a i = Ok x /\ In x a.
Proof.
  intros H. unfold getitem, norm_index.
  destruct ((0 <=? i) && (i <? Z.of_nat (length a))) eqn:E1; simpl.
  - apply andb_true_iff in E1 as [E1 E2].
    apply Z.leb_le in E1. apply Z.ltb_lt in E2.
    destruct (nth_error a (Z.to_nat i)) as [x|] eqn:En.
    + exists x. split; [reflexivity | eapply nth_error_In; eauto].
    + apply nth_error_None in En. lia.
  - replace ((- Z.of_nat (length a) <=? i) && (i <? 0)) with true; simpl.
    + destruct (nth_error a (Z.to_nat (Z.of_nat (length a) + i))) as [x|] eqn:En.
      * exists x. split; [reflexivity | eapply nth_error_In; eauto].
      * apply nth_error_None in En. lia.
    + symmetry. apply andb_true_iff. split; [apply Z.leb_le; lia|].
      apply Z.ltb_lt. apply andb_false_iff in E1 as [E1|E1].
      * apply Z.leb_gt in E1. lia.
      * apply Z.ltb_ge in E1. lia.
Qed.

Lemma mapM_total {A B : Type} (f : A -> result B) (P : A -> B -> Prop) (l : list A) :
  Forall (fun a => exists b, f a = Ok b /\ P a b) l ->
  exists r, mapM f l = Ok r /\ Forall2 P l r.
Proof.
  induction 1 as [|a l (b & Hb & HP) _ (r & Hr & HF)]; simpl.
  - exists []. split; [reflexivity | constructor].
  - exists (b :: r). rewrite Hb; simpl. rewrite Hr; simpl.
    split; [reflexivity | constructor; assumption].
Qed.

Lemma Forall2_length_eq {A B : Type} (P : A -> B -> Prop) (l : list A) (r : list B) :
  Forall2 P l r -> length r = length l.
Proof. induction 1; simpl; congruence. Qed.

Lemma Forall2_nth_error {A B : Type} (P : A -> B -> Prop) (l : list A) (r : list B)
    (i : nat) (a : A) :
  Forall2 P l r -> nth_error l i = Some a ->
  exists b, nth_error r i = Some b /\ P a b.
Proof.
  intros H; revert i; induction H as [|x y l r Hxy _ IH]; intros i Hi.
  - destruct i; discriminate.
  - destruct i as [|i]; simpl in *.
    + injection Hi as <-. exists y; auto.
    + apply IH, Hi.
Qed.

Lemma Forall2_Forall_r {A B : Type} (P : A -> B -> Prop) (Q : B -> Prop)
    (l : list A) (r : list B) :
  Forall2 P l r -> (forall a b, In a l -> P a b -> Q b) -> Forall Q r.
Proof.
  induction 1 as [|x y l r Hxy _ IH]; intros HQ; constructor.
  - apply (HQ x); [left; reflexivity | exact Hxy].
  - apply IH. intros a b Ha. apply HQ. right; exact Ha.
Qed.

(** [row[picks]] for valid channel numbers: one entry of the row per
    pick. *)
Lemma take_valid (row : list Q) (idx : list Z) :
  Forall (fun i => - Z.of_nat (length row) <= i < Z.of_nat (length row)) idx ->
  exists r, take row idx = Ok r /\ length r = length idx
            /\ Forall (fun x => In x row) r.
Proof.
  intros H. unfold take.
  destruct (mapM_total (getitem row) (fun _ x => In x row) idx) as (r & Hr & HF).
  - eapply Forall_impl; [|exact H]. intros i Hi. apply getitem_valid, Hi.
  - exists r. split; [exact Hr|]. split; [eapply Forall2_length_eq; eauto|].
    eapply Forall2_Forall_r; [exact HF|]. auto.
Qed.

Lemma all_zero_repeat (r : list Q) :
  Forall (fun x => x = 0%Q) r -> r = repeat 0%Q (length r).
Proof.
  induction 1 as [|x r -> _ IH]; simpl; [reflexivity|]. f_equal; exact IH.
Qed.

Lemma map_const_seq {A : Type} (c : A) (n s : nat) :
  map (fun _ => c) (seq s n) = repeat c n.
Proof.
  revert s; induction n as [|n IH]; intros s; simpl; [reflexivity|].
  f_equal; apply IH.
Qed.

Lemma map_const_repeat {A B : Type} (f : A -> B) (a : A) (n : nat) :
  map f (repeat a n) = repeat (f a) n.
Proof. induction n as [|n IH]; simpl; [reflexivity|]. f_equal; exact IH. Qed.

(** The channels of one slot re-selected and transposed by [get_data]. *)
Lemma get_data_slot (n1 n2 : nat) (idx : list Z) (slot : list (list Q)) :
  Forall (fun i => - Z.of_nat n2 <= i < Z.of_nat n2) idx ->
  length slot = n1 -> Forall (fun r => length r = n2) slot ->
  exists sel,
    mapM (fun row => take row idx) slot = Ok sel
    /\ length (transpose 0%Q (length idx) sel) = length idx
    /\ Forall (fun ch => length ch = n1) (transpose 0%Q (length idx) sel)
    /\ (slot = zero_slot n1 n2 ->
        transpose 0%Q (length idx) sel = zero_slot (length idx) n1).
Proof.
  intros Hidx Hlen Hrows.
  destruct (mapM_total (fun row => take row idx)
              (fun row r => length r = length idx /\ Forall (fun x => In x row) r)
              slot) as (sel & Hsel & HF).
  { eapply Forall_impl; [|exact Hrows]. intros row Hrow.
    destruct (take_valid row idx) as (r & Hr & Hl & Hin);
      [rewrite Hrow; exact Hidx|].
    exists r; auto. }
  exists sel. split; [exact Hsel|].
  assert (Hl : length sel = n1) by (rewrite <- Hlen; eapply Forall2_length_eq; eauto).
  unfold transpose. split; [rewrite length_map, length_seq; reflexivity|]. split.
  - apply Forall_forall. intros ch Hch.
    apply in_map_iff in Hch as (j & <- & _). rewrite length_map. exact Hl.
  - intros ->.
    assert (Hz : sel = repeat (repeat 0%Q (length idx)) n1).
    { clear Hsel Hrows Hlen. revert sel HF Hl. unfold zero_slot.
      induction n1 as [|n IH]; intros sel HF Hl.
      - destruct sel; [reflexivity|discriminate].
      - simpl in HF. inversion HF as [|x y l r [Hy Hin] HF' E1 E2]; subst.
        simpl. f_equal.
        + rewrite <- Hy. apply all_zero_repeat.
          eapply Forall_impl; [|exact Hin]. intros q Hq.
          apply repeat_spec in Hq. exact Hq.
        + apply IH; [exact HF' | simpl in Hl; lia]. }
    rewrite Hz. unfold zero_slot.
    rewrite <- (map_const_seq (repeat 0%Q n1) (length idx) 0).
    apply map_ext_in. intros j Hj. apply in_seq in Hj.
    rewrite map_const_repeat. f_equal.
    apply nth_repeat_lt. lia.
Qed.

(** [get_data] on a connected object: the array it returns has one slot
    per slot of the buffer, of one row per selected channel, and the zero
    slots of the buffer give zero slots. *)
Lemma get_data_connected
    (mne : MNE) (n0 n1 n2 m : nat) (info : Info) (self : EpochsStream)
    (buffer : list (list (list Q))) (picks : picks_arg) (idx : list Z) :
  _buffer self = Some buffer -> _info self = Some info ->
  has_shape n0 n1 n2 buffer -> zero_prefix m n1 n2 buffer ->
  _picks_to_idx mne info picks true = Ok idx ->
  Forall (fun i => - Z.of_nat n2 <= i < Z.of_nat n2) idx ->
  exists data,
    snd (get_data mne self picks) = Ok data
    /\ has_shape n0 (length idx) n1 data
    /\ zero_prefix m (length idx) n1 data.
Proof.
  intros Hbuf Hinfo [HN HF] Hzero Hpicks Hidx.
  unfold get_data. rewrite Hinfo; simpl. rewrite Hpicks; simpl.
  rewrite Hbuf; simpl.
  destruct (mapM_total (fun epoch => mapM (fun row => take row idx) epoch)
              (fun slot sel =>
                 length (transpose 0%Q (length idx) sel) = length idx
                 /\ Forall (fun ch => length ch = n1) (transpose 0%Q (length idx) sel)
                 /\ (slot = zero_slot n1 n2 ->
                     transpose 0%Q (length idx) sel = zero_slot (length idx) n1))
              buffer) as (sel & Hsel & HF2).
  { eapply Forall_impl; [|exact HF]. intros slot [Hl Hr].
    destruct (get_data_slot n1 n2 idx slot Hidx Hl Hr) as (s & Hs & H1 & H2 & H3).
    exists s; auto. }
  rewrite Hsel; simpl.
  exists (map (transpose 0%Q (length idx)) sel).
  split; [reflexivity|]. split; [split|].
  - rewrite length_map, <- HN. eapply Forall2_length_eq; eauto.
  - apply Forall_forall. intros e He.
    apply in_map_iff in He as (s & <- & Hs).
    apply (In_nth_error sel s) in Hs as (i & Hi).
    assert (Hlen : length sel = length buffer) by (eapply Forall2_length_eq; eauto).
    destruct (nth_error buffer i) as [slot|] eqn:Eb.
    + destruct (Forall2_nth_error _ _ _ _ _ HF2 Eb) as (s' & Hs' & H1 & H2 & _).
      rewrite Hi in Hs'; injection Hs' as <-. auto.
    + apply nth_error_None in Eb.
      assert (i < length sel)%nat by (apply nth_error_Some; congruence). lia.
  - intros i Hi. rewrite nth_error_map.
    destruct (Forall2_nth_error _ _ _ _ _ HF2 (Hzero i Hi)) as (s & -> & _ & _ & Hz).
    simpl. rewrite Hz by reflexivity. reflexivity.
Qed.

(** C7, as amended. After a successful [connect], over every sequence
    of steps and reads, as long as the object is connected [get_data]
    returns, for picks resolved to valid channel numbers, an array of
    shape [(bufsize, n_selected_channels, n)], where [n] is
    [ceil((tmax - tmin) * sfreq)] as the code computes it, in binary64;
    its first [bufsize - k] slots are zero when [k] epochs were added. *)
Theorem get_data_shape
    (mne : MNE) (self0 self : EpochsStream) (stream_connected : bool)
    (stream_info : Info) (event_stream_connected : option bool)
    (acquisition_delay : Q) (calls : list call) (picks : picks_arg)
    (info : Info) (chans idx : list Z)
    (H0 : connected self0 = Ok false)
    (Hconnect : connect mne self0 stream_connected stream_info
                        event_stream_connected acquisition_delay = (self, None))
    (Hinfo : _info self = Some info)
    (Hchans : _picks self = Some chans)
    (Hrun : connected (run mne self calls) = Ok true)
    (Hpicks : _picks_to_idx mne info picks true = Ok idx)
    (Hidx : Forall (fun i => - Z.of_nat (length chans) <= i < Z.of_nat (length chans))
                   idx) :
  exists data x,
    float_value (float_mul (float_sub (float64 (_tmax self0)) (float64 (_tmin self0)))
                           (float64 (sfreq info))) = Ok x
    /\ snd (get_data mne (run mne self calls) picks) = Ok data
    /\ has_shape (Z.to_nat (_bufsize self0)) (length idx) (Z.to_nat (ceil x)) data
    /\ zero_prefix (Z.to_nat (_bufsize self0) - total_added mne self calls)
                   (length idx) (Z.to_nat (ceil x)) data.
Proof.
  destruct (connect_epoch_samples _ _ _ _ _ _ _ _ H0 Hconnect Hinfo) as (n & Hn & _).
  destruct (connect_buffer_inv _ _ _ _ _ _ _ H0 Hconnect)
    as (info' & picks' & Hi & Hp & Hb & Htmin & Htmax & Hinv).
  rewrite Hinfo in Hi; injection Hi as <-.
  rewrite Hchans in Hp; injection Hp as <-.
  rewrite Hb, Htmin, Htmax in Hinv.
  unfold epoch_length in Hinv. rewrite Hn in Hinv.
  unfold epoch_samples in Hn. apply bind_Ok in Hn as (x & Hx & Hn).
  injection Hn as <-.
  apply (run_buffer_inv mne _ _ _ _ _ calls) in Hinv. simpl in Hinv.
  destruct Hinv as [(Hd & Hbn & Hin & Hpn)|(buffer & Hbuf & Hshape & Hzero & Hi & _)].
  - unfold connected in Hrun. rewrite Hd, Hbn, Hin, Hpn in Hrun. discriminate.
  - destruct (get_data_connected mne _ _ _ _ info (run mne self calls) buffer picks idx
                Hbuf Hi Hshape Hzero Hpicks Hidx) as (data & Hd & Hs & Hz).
    exists data, x. auto.
Qed.

Lemma get_data_shape_witness :
  exists data,
    snd (get_data Demo.mne
           (run Demo.mne Demo.short_epochs1
              [CallAcquire (Demo.window [(50, 1)] 0 200) None None;
               CallGetData PicksNone])
           (PicksNames ["EEG"%string])) = Ok data
    /\ has_shape 3 1 31 data
    /\ zero_prefix 2 1 31 data.
Proof.
  destruct (get_data_shape Demo.mne Demo.short_epochs0 Demo.short_epochs1
              true Demo.info100 None 0
              [CallAcquire (Demo.window [(50, 1)] 0 200) None None;
               CallGetData PicksNone]
              (PicksNames ["EEG"%string]) Demo.info100 [0; 1] [0])
    as (data & x & Hx & Hd & Hs & Hz).
  - reflexivity.
  - vm_compute; reflexivity.
  - vm_compute; reflexivity.
  - vm_compute; reflexivity.
  - vm_compute; reflexivity.
  - reflexivity.
  - apply Forall_cons; [cbn; lia | apply Forall_nil].
  - vm_compute in Hx. injection Hx as <-.
    exists data. split; [exact Hd|]. split; [exact Hs | exact Hz].
Defined.

(** C7, counterexample. With [tmin = -0.2] and [tmax = 0.1] at 100 Hz,
    [ceil((tmax - tmin) * sfreq)] is 30 on the numbers and 31 as the
    code computes it: [0.1 - -0.2] is [0.30000000000000004] in binary64.
    The epochs that [get_data] returns have 31 samples, not 30. *)
Lemma sample_count_not_exact :
  ceil (((1 # 10) - - (1 # 5)) * 100)%Q = 30
  /\ epoch_samples (- (1 # 5)) (1 # 10) 100 = Ok 31
  /\ connected Demo.short_epochs1 = Ok true
  /\ exists data,
       snd (get_data Demo.mne Demo.short_epochs1 PicksNone) = Ok data
       /\ has_shape 3 2 31 data
       /\ ~ has_shape 3 2 30 data.
Proof.
  split; [reflexivity|]. split; [vm_compute; reflexivity|].
  split; [vm_compute; reflexivity|].
  eexists. split; [vm_compute; reflexivity|]. split.
  - split; [reflexivity|].
    repeat (apply Forall_cons; [split; [reflexivity|]|]); try apply Forall_nil;
      repeat (apply Forall_cons; [reflexivity|]); apply Forall_nil.
  - intros [_ H].
    inversion H as [|e l [_ Hr] _]. inversion Hr as [|r l' Hlen _]. discriminate Hlen.
Qed.

(** * Further properties of the acquisition *)

(** ** [connect]: manual or polling *)

(** X1. A successful [connect] of a disconnected object leaves it
    connected with the given delay and a counter at 0; it has no executor
    when the delay is 0 and an executor with one submitted job
    otherwise. *)
Theorem connect_manual_or_polling
    (mne : MNE) (self0 self : EpochsStream) (stream_connected : bool)
    (stream_info : Info) (event_stream_connected : option bool)
    (acquisition_delay : Q)
    (H0 : connected self0 = Ok false)
    (Hconnect : connect mne self0 stream_connected stream_info
                        event_stream_connected acquisition_delay = (self, None)) :
  connected self = Ok true
  /\ stream_connected = true
  /\ event_stream_connected <> Some false
  /\ (0 <= acquisition_delay)%Q
  /\ _acquisition_delay self = Some acquisition_delay
  /\ _n_new_epochs self = 0
  /\ (Qeq_bool acquisition_delay 0 = true -> _executor self = None)
  /\ (Qeq_bool acquisition_delay 0 = false ->
      _executor self = Some {| ex_shutdown := false; ex_submitted := 1 |}).
Proof.
  unfold connect in Hconnect. rewrite H0 in Hconnect.
  destruct stream_connected; simpl in Hconnect; [|discriminate].
  destruct (match event_stream_connected with
            | Some c => negb c
            | None => false
            end) eqn:Ees; [discriminate|].
  destruct (Qltb acquisition_delay 0) eqn:Ed; [discriminate|].
  simpl in Hconnect.
  destruct (_n_new_epochs self0 =? 0) eqn:En; simpl in Hconnect; [|discriminate].
  destruct (_picks_to_idx mne stream_info (_picks_init self0) true) as [picks|e];
    [|discriminate].
  destruct (_ <- epoch_samples _ _ _ ;; _) as [buffer|e]; [|discriminate].
  injection Hconnect as <-. simpl.
  split; [reflexivity|]. split; [reflexivity|]. split.
  { destruct event_stream_connected as [[|]|]; simpl in Ees; congruence. }
  split.
  { unfold Qltb in Ed. apply negb_false_iff in Ed. apply Qle_bool_iff in Ed. exact Ed. }
  split; [reflexivity|]. split; [apply Z.eqb_eq, En|].
  split; intros ->; reflexivity.
Qed.

Lemma connect_manual_or_polling_witness :
  connected (Demo.epochs1 Demo.ids1) = Ok true
  /\ _executor (Demo.epochs1 Demo.ids1) = None
  /\ _executor (fst (connect Demo.mne (Demo.epochs0 Demo.ids1) true Demo.info100
                             None (1 # 1000)))
     = Some {| ex_shutdown := false; ex_submitted := 1 |}.
Proof.
  destruct (connect_manual_or_polling Demo.mne (Demo.epochs0 Demo.ids1)
              (Demo.epochs1 Demo.ids1) true Demo.info100 None 0)
    as (Hc & _ & _ & _ & _ & _ & Hm & _);
    [reflexivity | vm_compute; reflexivity |].
  destruct (connect_manual_or_polling Demo.mne (Demo.epochs0 Demo.ids1)
              (fst (connect Demo.mne (Demo.epochs0 Demo.ids1) true Demo.info100
                            None (1 # 1000)))
              true Demo.info100 None (1 # 1000))
    as (_ & _ & _ & _ & _ & _ & _ & Hp);
    [reflexivity | vm_compute; reflexivity |].
  split; [exact Hc|]. split; [apply Hm; reflexivity | apply Hp; reflexivity].
Defined.

(** ** Connection status over sequences of calls *)

Lemma connected_frame (self self' : EpochsStream) :
  _acquisition_delay self' = _acquisition_delay self ->
  _info self' = _info self -> _picks self' = _picks self ->
  is_none (_buffer self') = is_none (_buffer self) ->
  connected self' = connected self.
Proof. unfold connected. intros -> -> -> ->. reflexivity. Qed.

Lemma connected_submit (self : EpochsStream) :
  connected (_submit_acquisition_job self) = connected self.
Proof.
  pose proof (submit_frame self) as (Hb & _ & _ & _ & Hi & Hp & Hd).
  apply connected_frame; congruence.
Qed.

Lemma connected_get_data (mne : MNE) (self : EpochsStream) (picks : picks_arg) :
  connected (fst (get_data mne self picks)) = connected self.
Proof.
  unfold get_data. destruct (_ <- attr (_info self) ;; _); reflexivity.
Qed.

(** The connection status after a step: an error disconnects, anything
    else keeps the status. *)
Lemma connected_acquire
    (mne : MNE) (self : EpochsStream) (stream : StreamView)
    (event_stream : option StreamView) (environ : option string) :
  (st_logged (_acquire mne self stream event_stream environ) = []
   /\ connected (st_self (_acquire mne self stream event_stream environ))
      = connected self)
  \/ (st_logged (_acquire mne self stream event_stream environ) <> []
      /\ st_self (_acquire mne self stream event_stream environ)
         = _reset_variables self).
Proof.
  unfold _acquire.
  destruct (acquire_body mne self stream event_stream) as [[s|s ev]|e] eqn:E; simpl.
  - left. split; [reflexivity|].
    apply acquire_body_return in E as ->. apply connected_submit.
  - left. split; [reflexivity|].
    apply acquire_body_fallthrough in E
      as (b & sel & b' & t & _ & _ & Hb & _ & _ & ->).
    rewrite connected_submit. apply connected_frame; try reflexivity.
    simpl. rewrite Hb. reflexivity.
  - right. split; [discriminate | reflexivity].
Qed.

(** X2. The four attributes that decide [connected] are set together
    and reset together: after a successful [connect], over every sequence
    of steps and reads, [connected] is [True] or [False] and its sanity
    check never fails. *)
Theorem connected_never_partial
    (mne : MNE) (self0 self : EpochsStream) (stream_connected : bool)
    (stream_info : Info) (event_stream_connected : option bool)
    (acquisition_delay : Q) (calls : list call)
    (H0 : connected self0 = Ok false)
    (Hconnect : connect mne self0 stream_connected stream_info
                        event_stream_connected acquisition_delay = (self, None)) :
  connected (run mne self calls) = Ok true
  \/ connected (run mne self calls) = Ok false.
Proof.
  assert (Hc : connected self = Ok true \/ connected self = Ok false).
  { left. eapply connect_buffer_inv in Hconnect as (i & p & Hi & Hp & _ & _ & _ & Hinv);
      [|exact H0].
    destruct Hinv as [(_ & _ & Hn & _)|(b & Hb & _ & _ & _ & _ & _ & Hd)]; [congruence|].
    unfold connected. rewrite Hb, Hi, Hp.
    destruct (_acquisition_delay self); [reflexivity|contradiction]. }
  clear Hconnect H0. revert self Hc.
  induction calls as [|c calls IH]; intros self Hc; simpl; [exact Hc|].
  apply IH. destruct c as [s es env|picks]; simpl.
  - destruct (connected_acquire mne self s es env) as [[_ ->]|[_ ->]];
      [exact Hc | right; reflexivity].
  - rewrite connected_get_data. exact Hc.
Qed.

Lemma connected_never_partial_witness :
  connected (run Demo.mne (Demo.epochs1 Demo.ids1)
               [CallAcquire Demo.early_window None None; CallGetData PicksNone])
  = Ok true
  \/ connected (run Demo.mne (Demo.epochs1 Demo.ids1)
                  [CallAcquire Demo.early_window None None; CallGetData PicksNone])
     = Ok false.
Proof.
  apply (connected_never_partial Demo.mne (Demo.epochs0 Demo.ids1)
           (Demo.epochs1 Demo.ids1) true Demo.info100 None 0).
  - reflexivity.
  - vm_compute; reflexivity.
Defined.

Lemma connected_false_inv (self : EpochsStream) :
  connected self = Ok false ->
  _acquisition_delay self = None /\ _buffer self = None
  /\ _info self = None /\ _picks self = None.
Proof.
  unfold connected.
  destruct (_acquisition_delay self), (_buffer self), (_info self), (_picks self);
    simpl; intros H; try discriminate; repeat split.
Qed.

(** A step on a disconnected object adds no epoch. *)
Lemma acquire_disconnected_extracts_nothing
    (mne : MNE) (self : EpochsStream) (stream : StreamView)
    (event_stream : option StreamView) (environ : option string) :
  connected self = Ok false ->
  st_extracted (_acquire mne self stream event_stream environ) = [].
Proof.
  intros H. apply connected_false_inv in H as (_ & Hb & _).
  unfold _acquire.
  destruct (acquire_body mne self stream event_stream) as [[s|s ev]|e] eqn:E; simpl;
    try reflexivity.
  apply acquire_body_fallthrough in E as (b & _ & _ & _ & _ & _ & Hb' & _).
  congruence.
Qed.

(** X3. A disconnected object stays disconnected: no sequence of steps
    and reads connects it again or adds an epoch, and its property
    [n_new_epochs] raises. *)
Theorem disconnected_stays_disconnected
    (mne : MNE) (self : EpochsStream) (calls : list call)
    (H : connected self = Ok false) :
  connected (run mne self calls) = Ok false
  /\ total_added mne self calls = 0%nat
  /\ n_new_epochs (run mne self calls) = Raise RuntimeError.
Proof.
  assert (Hrun : connected (run mne self calls) = Ok false
                 /\ total_added mne self calls = 0%nat).
  { revert self H. induction calls as [|c calls IH]; intros self H; simpl.
    - split; [exact H | reflexivity].
    - assert (Hc : connected (run_call mne self c) = Ok false).
      { destruct c as [s es env|picks]; simpl.
        - destruct (connected_acquire mne self s es env) as [[_ ->]|[_ ->]];
            [exact H | reflexivity].
        - rewrite connected_get_data. exact H. }
      destruct (IH _ Hc) as [IH1 IH2]. split; [exact IH1|].
      rewrite IH2, Nat.add_0_r.
      destruct c as [s es env|picks]; simpl; [|reflexivity].
      rewrite acquire_disconnected_extracts_nothing by exact H. reflexivity. }
  destruct Hrun as [Hc Ht]. split; [exact Hc|]. split; [exact Ht|].
  unfold n_new_epochs, _check_connected. rewrite Hc. reflexivity.
Qed.

Lemma disconnected_stays_disconnected_witness :
  connected (run Demo.mne (st_self Demo.early_step)
               [CallAcquire (Demo.window [(50, 1)] 0 200) None None;
                CallGetData PicksNone])
  = Ok false.
Proof.
  apply (disconnected_stays_disconnected Demo.mne (st_self Demo.early_step)).
  vm_compute; reflexivity.
Defined.

(** ** Manual steps *)

Lemma executor_submit (self : EpochsStream) :
  (_executor self = None -> _executor (_submit_acquisition_job self) = None)
  /\ (_executor self <> None -> _executor (_submit_acquisition_job self) <> None).
Proof.
  unfold _submit_acquisition_job.
  destruct (_executor self) as [ex|] eqn:E.
  - split; [discriminate|]. intros _.
    destruct (submit ex); simpl; congruence.
  - split; [intros _; exact E | contradiction].
Qed.

(** What a step does to the executor: it keeps none when there is none,
    and keeps one unless an error disconnects the object. *)
Lemma executor_acquire
    (mne : MNE) (self : EpochsStream) (stream : StreamView)
    (event_stream : option StreamView) (environ : option string) :
  (_executor self = None ->
   _executor (st_self (_acquire mne self stream event_stream environ)) = None)
  /\ (_executor self <> None ->
      _executor (st_self (_acquire mne self stream event_stream environ)) <> None
      \/ st_self (_acquire mne self stream event_stream environ)
         = _reset_variables self).
Proof.
  unfold _acquire.
  destruct (acquire_body mne self stream event_stream) as [[s|s ev]|e] eqn:E; simpl.
  - apply acquire_body_return in E as ->.
    destruct (executor_submit self) as [H1 H2]. split; [exact H1 | auto].
  - apply acquire_body_fallthrough in E as (b & sel & b' & t & _ & _ & _ & _ & _ & ->).
    destruct (executor_submit
                (set_n_new_epochs (set_last (set_buffer self b') t)
                   (_n_new_epochs self + Z.of_nat (length ev)))) as [H1 H2].
    split; [exact H1 | auto].
  - split; [reflexivity | auto].
Qed.

Lemma executor_get_data (mne : MNE) (self : EpochsStream) (picks : picks_arg) :
  _executor (fst (get_data mne self picks)) = _executor self.
Proof.
  unfold get_data. destruct (_ <- attr (_info self) ;; _); reflexivity.
Qed.

(** X4. After [connect] with a delay other than 0, whatever steps of the
    background thread and reads happened since, the method [acquire]
    raises [RuntimeError], leaves the object as it is and adds no
    epoch. *)
Theorem acquire_refused_while_polling
    (mne : MNE) (self0 self : EpochsStream) (stream_connected : bool)
    (stream_info : Info) (event_stream_connected : option bool)
    (acquisition_delay : Q) (calls : list call)
    (stream : StreamView) (event_stream : option StreamView)
    (environ : option string)
    (H0 : connected self0 = Ok false)
    (Hconnect : connect mne self0 stream_connected stream_info
                        event_stream_connected acquisition_delay = (self, None))
    (Hdelay : Qeq_bool acquisition_delay 0 = false) :
  acquire mne (run mne self calls) stream event_stream environ
  = {| st_self := run mne self calls; st_logged := [];
       st_raised := Some RuntimeError; st_extracted := [] |}.
Proof.
  assert (Hinv : connected self = Ok false
                 \/ (connected self = Ok true /\ _executor self <> None)).
  { right. unfold connect in Hconnect. rewrite H0 in Hconnect.
    destruct (negb stream_connected); [discriminate|].
    destruct (match event_stream_connected with
              | Some c => negb c
              | None => false
              end); [discriminate|].
    destruct (Qltb acquisition_delay 0); [discriminate|]. simpl in Hconnect.
    destruct (negb (_n_new_epochs self0 =? 0)); [discriminate|].
    destruct (_picks_to_idx mne stream_info (_picks_init self0) true); [|discriminate].
    destruct (_ <- epoch_samples _ _ _ ;; _); [|discriminate].
    injection Hconnect as <-. rewrite Hdelay. simpl.
    split; [reflexivity | discriminate]. }
  clear Hconnect H0 Hdelay.
  assert (Hrun : connected (run mne self calls) = Ok false
                 \/ (connected (run mne self calls) = Ok true
                     /\ _executor (run mne self calls) <> None)).
  { revert self Hinv. induction calls as [|c calls IH]; intros self Hinv; simpl;
      [exact Hinv|].
    apply IH. destruct c as [s es env|picks]; simpl.
    - destruct (connected_acquire mne self s es env) as [[_ Hc]|[_ Hr]].
      + rewrite Hc. destruct Hinv as [Hf|[Ht He]]; [left; exact Hf|].
        destruct (executor_acquire mne self s es env) as [_ Hex].
        destruct (Hex He) as [Hne|Hr]; [right; split; assumption|].
        left. rewrite <- Hc, Hr. reflexivity.
      + left. rewrite Hr. reflexivity.
    - rewrite connected_get_data, executor_get_data. exact Hinv. }
  unfold acquire, _check_connected.
  destruct Hrun as [->|[-> He]]; simpl; [reflexivity|].
  destruct (_executor (run mne self calls)); [reflexivity | contradiction].
Qed.

Lemma acquire_refused_while_polling_witness :
  st_raised
    (acquire Demo.mne
       (run Demo.mne
          (fst (connect Demo.mne (Demo.epochs0 Demo.ids1) true Demo.info100 None
                        (1 # 1000)))
          [CallAcquire (Demo.window [(50, 1)] 0 200) None None])
       (Demo.window [(50, 1)] 10 200) None None)
  = Some RuntimeError.
Proof.
  rewrite (acquire_refused_while_polling Demo.mne (Demo.epochs0 Demo.ids1)
             (fst (connect Demo.mne (Demo.epochs0 Demo.ids1) true Demo.info100 None
                           (1 # 1000)))
             true Demo.info100 None (1 # 1000)).
  - reflexivity.
  - reflexivity.
  - vm_compute; reflexivity.
  - reflexivity.
Defined.

(** X5. After [connect] with delay 0 no executor ever appears: over
    every sequence of steps and reads the method [acquire] is the step
    [_acquire] as long as the object is connected, and raises
    [RuntimeError] without touching the object once it is not. *)
Theorem acquire_manual
    (mne : MNE) (self0 self : EpochsStream) (stream_connected : bool)
    (stream_info : Info) (event_stream_connected : option bool)
    (acquisition_delay : Q) (calls : list call)
    (stream : StreamView) (event_stream : option StreamView)
    (environ : option string)
    (H0 : connected self0 = Ok false)
    (Hconnect : connect mne self0 stream_connected stream_info
                        event_stream_connected acquisition_delay = (self, None))
    (Hdelay : Qeq_bool acquisition_delay 0 = true) :
  _executor (run mne self calls) = None
  /\ (connected (run mne self calls) = Ok true ->
      acquire mne (run mne self calls) stream event_stream environ
      = _acquire mne (run mne self calls) stream event_stream environ)
  /\ (connected (run mne self calls) = Ok false ->
      acquire mne (run mne self calls) stream event_stream environ
      = {| st_self := run mne self calls; st_logged := [];
           st_raised := Some RuntimeError; st_extracted := [] |}).
Proof.
  assert (He : _executor self = None).
  { unfold connect in Hconnect. rewrite H0 in Hconnect.
    destruct (negb stream_connected); [discriminate|].
    destruct (match event_stream_connected with
              | Some c => negb c
              | None => false
              end); [discriminate|].
    destruct (Qltb acquisition_delay 0); [discriminate|]. simpl in Hconnect.
    destruct (negb (_n_new_epochs self0 =? 0)); [discriminate|].
    destruct (_picks_to_idx mne stream_info (_picks_init self0) true); [|discriminate].
    destruct (_ <- epoch_samples _ _ _ ;; _); [|discriminate].
    injection Hconnect as <-. rewrite Hdelay. reflexivity. }
  clear Hconnect H0 Hdelay.
  assert (Hrun : _executor (run mne self calls) = None).
  { revert self He. induction calls as [|c calls IH]; intros self He; simpl;
      [exact He|].
    apply IH. destruct c as [s es env|picks]; simpl.
    - apply executor_acquire, He.
    - rewrite executor_get_data. exact He. }
  split; [exact Hrun|].
  unfold acquire, _check_connected. split; intros ->; simpl.
  - rewrite Hrun. reflexivity.
  - reflexivity.
Qed.

Lemma acquire_manual_witness :
  st_extracted (acquire Demo.mne (Demo.epochs1 Demo.ids1)
                        (Demo.window [(50, 1)] 0 200) None None)
  = [[50; 0; 1]].
Proof.
  destruct (acquire_manual Demo.mne (Demo.epochs0 Demo.ids1) (Demo.epochs1 Demo.ids1)
              true Demo.info100 None 0 [] (Demo.window [(50, 1)] 0 200) None None)
    as (_ & Hm & _); [reflexivity | vm_compute; reflexivity | reflexivity |].
  simpl in Hm. rewrite Hm by reflexivity. vm_compute. reflexivity.
Defined.

(** ** The counter of new epochs *)

(** X6. A step whose body raises nothing adds to [_n_new_epochs] the
    number of events it extracted; a step whose body raises extracts
    nothing and sets the counter to 0. *)
Theorem acquire_counts_new_epochs
    (mne : MNE) (self : EpochsStream) (stream : StreamView)
    (event_stream : option StreamView) (environ : option string) :
  (st_logged (_acquire mne self stream event_stream environ) = [] ->
   _n_new_epochs (st_self (_acquire mne self stream event_stream environ))
   = _n_new_epochs self
     + Z.of_nat (length (st_extracted (_acquire mne self stream event_stream environ))))
  /\ (st_logged (_acquire mne self stream event_stream environ) <> [] ->
      _n_new_epochs (st_self (_acquire mne self stream event_stream environ)) = 0
      /\ st_extracted (_acquire mne self stream event_stream environ) = []).
Proof.
  unfold _acquire.
  destruct (acquire_body mne self stream event_stream) as [[s|s ev]|e] eqn:E; simpl.
  - apply acquire_body_return in E as ->.
    destruct (submit_frame self) as (_ & _ & _ & -> & _).
    split; [intros _; lia | contradiction].
  - apply acquire_body_fallthrough in E as (b & sel & b' & t & _ & _ & _ & _ & _ & ->).
    destruct (submit_frame
                (set_n_new_epochs (set_last (set_buffer self b') t)
                   (_n_new_epochs self + Z.of_nat (length ev)))) as (_ & _ & _ & -> & _).
    split; [intros _; reflexivity | contradiction].
  - split; [discriminate | intros _; split; reflexivity].
Qed.

(** ** What [get_data] returns *)

Lemma nth_map_lt {A B : Type} (f : A -> B) (l : list A) (i : nat) (d : A) (d' : B) :
  (i < length l)%nat -> nth i (map f l) d' = f (nth i l d).
Proof.
  intros H. rewrite (nth_indep _ d' (f d)) by (rewrite length_map; exact H).
  apply map_nth.
Qed.

Lemma nth_transpose {A : Type} (d : A) (n : nat) (rows : list (list A)) (c : nat) :
  (c < n)%nat -> nth c (transpose d n rows) [] = map (fun row => nth c row d) rows.
Proof.
  intros H. unfold transpose.
  rewrite (nth_map_lt _ _ c 0%nat) by (rewrite length_seq; exact H).
  rewrite seq_nth by exact H. reflexivity.
Qed.

(** On a connected object, for picks resolved to channel numbers, the
    entry [(e, c, s)] of the array [get_data] returns is the entry
    [(e, s, idx[c])] of the buffer. *)
Lemma get_data_entries
    (mne : MNE) (self : EpochsStream) (buffer : list (list (list Q)))
    (info : Info) (picks : picks_arg) (idx : list Z) (n0 n1 n2 : nat) :
  _buffer self = Some buffer -> _info self = Some info ->
  has_shape n0 n1 n2 buffer ->
  _picks_to_idx mne info picks true = Ok idx ->
  Forall (fun i => 0 <= i < Z.of_nat n2) idx ->
  exists data,
    snd (get_data mne self picks) = Ok data
    /\ length data = n0
    /\ forall e c s, (e < n0)%nat -> (c < length idx)%nat -> (s < n1)%nat ->
         nth s (nth c (nth e data []) []) 0%Q
         = nth (Z.to_nat (nth c idx 0)) (nth s (nth e buffer []) []) 0%Q.
Proof.
  intros Hbuf Hinfo [HN HF] Hpicks Hidx.
  unfold get_data. rewrite Hinfo; simpl. rewrite Hpicks; simpl. rewrite Hbuf; simpl.
  set (g := fun row : list Q => map (fun i => nth (Z.to_nat i) row 0%Q) idx).
  assert (Hsel : mapM (fun epoch => mapM (fun row => take row idx) epoch) buffer
                 = Ok (map (map g) buffer)).
  { apply mapM_Ok. eapply Forall_impl; [|exact HF]. intros epoch [_ Hrows].
    apply mapM_Ok. eapply Forall_impl; [|exact Hrows]. intros row Hrow.
    apply take_nonneg. rewrite Hrow. exact Hidx. }
  rewrite Hsel; simpl.
  exists (map (transpose 0%Q (length idx)) (map (map g) buffer)).
  split; [reflexivity|]. split; [rewrite !length_map; exact HN|].
  intros e c s He Hc Hs.
  rewrite map_map.
  rewrite (nth_map_lt _ buffer e []) by lia.
  rewrite nth_transpose by exact Hc.
  assert (Hep : length (nth e buffer []) = n1).
  { rewrite Forall_forall in HF. apply HF, nth_In. lia. }
  rewrite map_map.
  rewrite (nth_map_lt _ (nth e buffer []) s []) by lia.
  unfold g. rewrite (nth_map_lt _ idx c 0) by exact Hc. reflexivity.
Qed.

(** X7. After a successful [connect], over every sequence of steps and
    reads, while the object is connected [get_data] returns the channels
    in the order of the picks, with the axes of samples and channels
    swapped: its entry [(e, c, s)] is the entry [(e, s, idx[c])] of the
    buffer. *)
Theorem get_data_selects_and_swaps
    (mne : MNE) (self0 self : EpochsStream) (stream_connected : bool)
    (stream_info : Info) (event_stream_connected : option bool)
    (acquisition_delay : Q) (calls : list call) (picks : picks_arg)
    (info : Info) (chans idx : list Z) (buffer : list (list (list Q)))
    (H0 : connected self0 = Ok false)
    (Hconnect : connect mne self0 stream_connected stream_info
                        event_stream_connected acquisition_delay = (self, None))
    (Hinfo : _info self = Some info)
    (Hchans : _picks self = Some chans)
    (Hbuf : _buffer (run mne self calls) = Some buffer)
    (Hpicks : _picks_to_idx mne info picks true = Ok idx)
    (Hidx : Forall (fun i => 0 <= i < Z.of_nat (length chans)) idx) :
  exists data,
    snd (get_data mne (run mne self calls) picks) = Ok data
    /\ length data = length buffer
    /\ forall e c s,
         (e < length buffer)%nat -> (c < length idx)%nat ->
         (s < length (nth e buffer []))%nat ->
         nth s (nth c (nth e data []) []) 0%Q
         = nth (Z.to_nat (nth c idx 0)) (nth s (nth e buffer []) []) 0%Q.
Proof.
  destruct (connect_buffer_inv _ _ _ _ _ _ _ H0 Hconnect)
    as (info' & picks' & Hi & Hp & _ & _ & _ & Hinv).
  rewrite Hinfo in Hi; injection Hi as <-.
  rewrite Hchans in Hp; injection Hp as <-.
  apply (run_buffer_inv mne _ _ _ _ _ calls) in Hinv.
  destruct Hinv as [(_ & Hbn & _)|(b & Hb & Hshape & _ & Hi & _)]; [congruence|].
  rewrite Hbuf in Hb; injection Hb as <-.
  destruct (get_data_entries mne _ _ _ _ _ _ _ _ Hbuf Hi Hshape Hpicks Hidx)
    as (data & Hd & Hl & He).
  destruct Hshape as [HN HF].
  exists data. split; [exact Hd|]. split; [congruence|].
  intros e c s Hlt Hc Hs. apply He; [lia | exact Hc |].
  rewrite Forall_forall in HF.
  destruct (HF (nth e buffer [])) as [Hlen _]; [apply nth_In; exact Hlt | lia].
Qed.

Lemma get_data_selects_and_swaps_witness :
  exists data,
    snd (get_data Demo.mne (st_self Demo.first_step) (PicksIdx [1; 0])) = Ok data
    /\ nth 0 (nth 1 (nth 2 data []) []) 0%Q = 30%Q
    /\ nth 20 (nth 0 (nth 2 data []) []) 0%Q = 1%Q.
Proof.
  destruct (get_data_selects_and_swaps Demo.mne (Demo.epochs0 Demo.ids1)
              (Demo.epochs1 Demo.ids1) true Demo.info100 None 0
              [CallAcquire (Demo.window [(50, 1)] 0 200) None None]
              (PicksIdx [1; 0]) Demo.info100 [0; 1] [1; 0]
              [repeat [0; 0]%Q 70; repeat [0; 0]%Q 70; Demo.epoch_at [(50, 1)] 30 70])
    as (data & Hd & _ & He).
  - reflexivity.
  - vm_compute; reflexivity.
  - reflexivity.
  - reflexivity.
  - vm_compute; reflexivity.
  - reflexivity.
  - repeat (apply Forall_cons; [cbn; lia|]). apply Forall_nil.
  - exists data. split; [exact Hd|]. split.
    + rewrite (He 2%nat 1%nat 0%nat) by (vm_compute; lia). reflexivity.
    + rewrite (He 2%nat 0%nat 20%nat) by (vm_compute; lia). reflexivity.
Defined.

(** X8. Reading does not consume the buffer: [get_data] leaves the
    buffer, the watermark and the connection as they are, and a read
    returns the same array whether or not another read came before. *)
Theorem get_data_reads_only
    (mne : MNE) (self : EpochsStream) (picks1 picks2 : picks_arg) :
  snd (get_data mne (fst (get_data mne self picks1)) picks2)
  = snd (get_data mne self picks2)
  /\ _buffer (fst (get_data mne self picks1)) = _buffer self
  /\ _last_ts (fst (get_data mne self picks1)) = _last_ts self
  /\ _executor (fst (get_data mne self picks1)) = _executor self
  /\ connected (fst (get_data mne self picks1)) = connected self.
Proof.
  split; [|split; [|split; [|split]]].
  - unfold get_data.
    destruct (_ <- attr (_info self) ;; _picks_to_idx mne _ picks1 true); simpl;
      destruct (_ <- attr (_info self) ;; _picks_to_idx mne _ picks2 true);
      reflexivity.
  - unfold get_data. destruct (_ <- attr (_info self) ;; _); reflexivity.
  - unfold get_data. destruct (_ <- attr (_info self) ;; _); reflexivity.
  - apply executor_get_data.
  - apply connected_get_data.
Qed.

(** X9. Epochs written by a step are read back by [get_data]: after a
    step that extracted [k] events on a connected object whose buffer has
    at least [k] slots, the last [k] slots of the array [get_data]
    returns hold the epochs of these events, in their order, with the
    picked channels and the axes swapped. *)
Theorem acquire_then_get_data
    (mne : MNE) (self0 self : EpochsStream) (stream_connected : bool)
    (stream_info : Info) (event_stream_connected : option bool)
    (acquisition_delay : Q) (calls : list call)
    (stream : StreamView) (event_stream : option StreamView)
    (environ : option string) (picks : picks_arg)
    (info : Info) (chans idx : list Z) (buffer : list (list (list Q)))
    (H0 : connected self0 = Ok false)
    (Hconnect : connect mne self0 stream_connected stream_info
                        event_stream_connected acquisition_delay = (self, None))
    (Hinfo : _info self = Some info)
    (Hchans : _picks self = Some chans)
    (Hbuf : _buffer (run mne self calls) = Some buffer)
    (Hk : (0 < length (st_extracted
                         (_acquire mne (run mne self calls) stream event_stream environ))
           <= length buffer)%nat)
    (Hpicks : _picks_to_idx mne info picks true = Ok idx)
    (Hidx : Forall (fun i => 0 <= i < Z.of_nat (length chans)) idx) :
  exists sel data,
    Forall2 (fun row ep => event_epoch (run mne self calls) stream row = Ok ep)
            (st_extracted
               (_acquire mne (run mne self calls) stream event_stream environ)) sel
    /\ snd (get_data mne
              (st_self (_acquire mne (run mne self calls) stream event_stream environ))
              picks) = Ok data
    /\ length data = length buffer
    /\ forall i c s,
         (i < length sel)%nat -> (c < length idx)%nat ->
         (s < length (nth i sel []))%nat ->
         nth s (nth c (nth (length buffer - length sel + i) data []) []) 0%Q
         = nth (Z.to_nat (nth c idx 0)) (nth s (nth i sel []) []) 0%Q.
Proof.
  destruct (acquire_inserts_batch mne _ stream event_stream environ buffer Hbuf Hk)
    as (sel & _ & Hlen & HF & Hb').
  destruct (connect_buffer_inv _ _ _ _ _ _ _ H0 Hconnect)
    as (info' & picks' & Hi & Hp & _ & _ & _ & Hinv).
  rewrite Hinfo in Hi; injection Hi as <-.
  rewrite Hchans in Hp; injection Hp as <-.
  apply (run_buffer_inv mne _ _ _ _ _
           (calls ++ [CallAcquire stream event_stream environ])) in Hinv.
  unfold run in Hinv. rewrite fold_left_app in Hinv. simpl in Hinv.
  fold (run mne self calls) in Hinv.
  destruct Hinv as [(_ & Hbn & _)|(b & Hb & Hshape & _ & Hi & _)]; [congruence|].
  rewrite Hb' in Hb; injection Hb as <-.
  destruct (get_data_entries mne _ _ _ _ _ _ _ _ Hb' Hi Hshape Hpicks Hidx)
    as (data & Hd & Hl & He).
  destruct Hshape as [HN HF3].
  assert (HNb : length (skipn (length sel) buffer ++ sel) = length buffer)
    by (rewrite length_app, length_skipn; lia).
  exists sel, data. split; [exact HF|]. split; [exact Hd|]. split; [congruence|].
  intros i c s Hi' Hc Hs.
  assert (Hnth : nth (length buffer - length sel + i)
                     (skipn (length sel) buffer ++ sel) [] = nth i sel []).
  { rewrite app_nth2 by (rewrite length_skipn; lia).
    rewrite length_skipn. f_equal. lia. }
  rewrite He; [rewrite Hnth; reflexivity | lia | exact Hc |].
  rewrite Forall_forall in HF3.
  destruct (HF3 (nth i sel [])) as [Hsl _];
    [apply in_or_app; right; apply nth_In; exact Hi' | lia].
Qed.

Lemma acquire_then_get_data_witness :
  exists data,
    snd (get_data Demo.mne (st_self Demo.fine_step) PicksNone) = Ok data
    /\ nth 0 (nth 0 (nth 2 data []) []) 0%Q = 43%Q
    /\ nth 69 (nth 0 (nth 2 data []) []) 0%Q = 112%Q.
Proof.
  destruct (acquire_then_get_data Demo.mne Demo.fine_epochs0 Demo.fine_epochs1
              true Demo.info100 None 0 []
              (Demo.window [(100, 1)] 0 200) None None PicksNone
              Demo.info100 [0; 1] [0; 1] (repeat (repeat [0; 0]%Q 70) 3))
    as (sel & data & HF & Hd & _ & He).
  - reflexivity.
  - vm_compute; reflexivity.
  - reflexivity.
  - reflexivity.
  - vm_compute; reflexivity.
  - vm_compute; split; repeat constructor.
  - reflexivity.
  - repeat (apply Forall_cons; [cbn; lia|]). apply Forall_nil.
  - assert (Hsel : sel = [Demo.epoch_at [(100, 1)] 43 70]).
    { change (st_extracted
                (_acquire Demo.mne (run Demo.mne Demo.fine_epochs1 [])
                          (Demo.window [(100, 1)] 0 200) None None))
        with [[100; 0; 1]] in HF.
      inversion HF as [|row ep rows eps Hep Hrest]; subst.
      inversion Hrest; subst.
      vm_compute in Hep. injection Hep as <-. reflexivity. }
    subst sel. exists data. split; [exact Hd|]. split.
    + refine (He 0%nat 0%nat 0%nat _ _ _); vm_compute; lia.
    + refine (He 0%nat 0%nat 69%nat _ _ _); vm_compute; lia.
Defined.

(** * Further properties of detection and pruning *)

(** ** Selection by a mask, in general *)

Lemma take_where_compress_from {A : Type} (mask : list bool) (a pre : list A) :
  length mask = length a ->
  take (pre ++ a) (where_ mask (Z.of_nat (length pre))) = Ok (compress mask a).
Proof.
  revert a pre; induction mask as [|b mask IH]; intros a pre Hlen.
  - destruct a; [reflexivity | discriminate].
  - destruct a as [|x a]; [discriminate|]. simpl in Hlen.
    assert (E : take (pre ++ x :: a) (where_ mask (Z.of_nat (length pre) + 1))
                = Ok (compress mask a)).
    { specialize (IH a (pre ++ [x])).
      rewrite <- app_assoc, length_app in IH; simpl in IH.
      replace (Z.of_nat (length pre + 1)) with (Z.of_nat (length pre) + 1) in IH by lia.
      apply IH. lia. }
    simpl. destruct b; [|exact E].
    unfold take in *; simpl. rewrite getitem_middle; simpl. rewrite E. reflexivity.
Qed.

(** Selecting the rows at [np.where(mask)[0]] is selecting by the mask. *)
Lemma take_where_compress {A : Type} (mask : list bool) (a : list A) :
  length mask = length a -> take a (where_ mask 0) = Ok (compress mask a).
Proof. exact (take_where_compress_from mask a []). Qed.

Lemma compress_In {A : Type} (mask : list bool) (a : list A) (x : A) :
  In x (compress mask a) -> In x a.
Proof.
  revert a; induction mask as [|b mask IH]; intros a H; simpl in H; [contradiction|].
  destruct a as [|y a]; [contradiction|].
  destruct b; [destruct H as [<-|H]; [left; reflexivity|]|]; right; apply IH, H.
Qed.

(** A row kept by a mask computed from values attached to the rows has
    a value at which the mask holds. *)
Lemma compress_Forall2 {A B : Type} (R : A -> B -> Prop) (g : B -> bool)
    (a : list A) (m : list B) :
  Forall2 R a m ->
  Forall (fun x => exists y, R x y /\ g y = true) (compress (map g m) a).
Proof.
  induction 1 as [|x y a m Hxy _ IH]; simpl; [constructor|].
  destruct (g y) eqn:E; [constructor; [exists y; auto | exact IH] | exact IH].
Qed.

Lemma compress_sorted {A : Type} (R : A -> A -> Prop) (mask : list bool) (a : list A) :
  StronglySorted R a -> StronglySorted R (compress mask a).
Proof.
  intros H; revert mask; induction H as [|x a Ha IH Hx]; intros mask.
  - destruct mask; constructor.
  - destruct mask as [|b mask]; simpl; [constructor|].
    destruct b; [|apply IH].
    constructor; [apply IH|].
    rewrite Forall_forall in *. intros y Hy. apply Hx. eapply compress_In; eauto.
Qed.

(** ** The stages of [_prune_events] *)

(** Every result of [_prune_events] is obtained by the allow-list mask,
    the re-anchoring, the mask of the epochs that fit and the mask of the
    watermark, in this order. *)
Lemma prune_events_stages
    (events r : list (list Z)) (event_id : option (list (string * Z)))
    (buffer_size : Z) (ts : list Q) (last_ts : option Q)
    (ts_events : option (list Q)) :
  _prune_events events event_id buffer_size ts last_ts ts_events = Ok r ->
  exists ev1 ev2 onsets2,
    ((event_id = None /\ ev1 = events)
     \/ exists d codes,
          event_id = Some d /\ col events 2 = Ok codes
          /\ ev1 = compress (isin codes (map snd d)) events)
    /\ ((ts_events = None /\ ev2 = ev1)
        \/ exists tse idx vals,
             ts_events = Some tse /\ col ev1 0 = Ok idx /\ take tse idx = Ok vals
             /\ set_col0 ev1 (map (searchsorted_left ts) vals) = Ok ev2)
    /\ col ev2 0 = Ok onsets2
    /\ ((last_ts = None
         /\ r = compress (map (fun o => add64 o buffer_size <=? Z.of_nat (length ts))
                              onsets2) ev2)
        \/ exists l onsets3 tvals,
             last_ts = Some l
             /\ col (compress (map (fun o => add64 o buffer_size
                                             <=? Z.of_nat (length ts)) onsets2) ev2) 0
                = Ok onsets3
             /\ take ts onsets3 = Ok tvals
             /\ r = compress (map (fun x => Qltb l x) tvals)
                      (compress (map (fun o => add64 o buffer_size
                                               <=? Z.of_nat (length ts)) onsets2) ev2)).
Proof.
  unfold _prune_events. intros H.
  apply bind_Ok in H as (ev1 & H1 & H).
  apply bind_Ok in H as (ev2 & H2 & H).
  apply bind_Ok in H as (onsets2 & Hon & H).
  apply bind_Ok in H as (ev3 & H3 & H).
  rewrite take_where_compress in H3
    by (rewrite length_map; exact (mapM_length _ _ _ Hon)).
  injection H3 as <-.
  exists ev1, ev2, onsets2.
  split.
  { destruct event_id as [d|].
    - right. apply bind_Ok in H1 as (codes & Hc & H1). injection H1 as <-.
      exists d, codes. auto.
    - left. injection H1 as <-. auto. }
  split.
  { destruct ts_events as [tse|].
    - right. apply bind_Ok in H2 as (idx & Hi & H2).
      apply bind_Ok in H2 as (vals & Hv & H2).
      exists tse, idx, vals. auto.
    - left. injection H2 as <-. auto. }
  split; [exact Hon|].
  destruct last_ts as [l|].
  - right. apply bind_Ok in H as (onsets3 & Hon3 & H).
    apply bind_Ok in H as (tvals & Ht & H).
    rewrite take_where_compress in H.
    + injection H as <-. exists l, onsets3, tvals. auto.
    + rewrite length_map. apply mapM_length in Hon3. apply mapM_length in Ht.
      unfold take in Ht. congruence.
  - left. injection H as <-. auto.
Qed.

Lemma set_col0_rows {A : Type} (a r : list (list A)) (v : list A) :
  set_col0 a v = Ok r ->
  Forall2 (fun row row' => exists x y tl, row = y :: tl /\ row' = x :: tl) a r.
Proof.
  revert v r; induction a as [|row a IH]; intros v r; simpl.
  - destruct v; [intros H; injection H as <-; constructor | discriminate].
  - destruct v as [|x v]; [discriminate|].
    destruct row as [|y tl]; [discriminate|].
    intros H. apply bind_Ok in H as (r' & Hr' & H). injection H as <-.
    constructor; [exists x, y, tl; auto | eapply IH; eauto].
Qed.

Lemma getitem_2_tail {A : Type} (x y : A) (tl : list A) :
  getitem (x :: tl) 2 = getitem (y :: tl) 2.
Proof.
  unfold getitem, norm_index. simpl length.
  destruct ((0 <=? 2) && (2 <? Z.of_nat (S (length tl)))); [reflexivity|].
  change (2 <? 0) with false. rewrite andb_false_r. reflexivity.
Qed.

Lemma Forall2_Forall_l {A B : Type} (R : A -> B -> Prop) (P : A -> Prop)
    (Q : B -> Prop) (l : list A) (r : list B) :
  Forall2 R l r -> Forall P l -> (forall a b, R a b -> P a -> Q b) -> Forall Q r.
Proof.
  induction 1 as [|x y l r Hxy _ IH]; intros HP HQ; constructor.
  - inversion HP; subst. eapply HQ; eauto.
  - inversion HP; subst. apply IH; assumption.
Qed.

Lemma Qltb_lt (x y : Q) : Qltb x y = true -> (x < y)%Q.
Proof.
  unfold Qltb. intros H. apply negb_true_iff in H.
  apply Qnot_le_lt. intros Hle. apply Qle_bool_iff in Hle. congruence.
Qed.

(** What every row returned by [_prune_events] satisfies. *)
Lemma prune_events_rows
    (events r : list (list Z)) (event_id : option (list (string * Z)))
    (buffer_size : Z) (ts : list Q) (last_ts : option Q)
    (ts_events : option (list Q))
    (H : _prune_events events event_id buffer_size ts last_ts ts_events = Ok r) :
  (length r <= length events)%nat
  /\ Forall (fun row =>
               (exists o, getitem row 0 = Ok o
                          /\ add64 o buffer_size <= Z.of_nat (length ts)
                          /\ forall l, last_ts = Some l ->
                               exists t, getitem ts o = Ok t /\ (l < t)%Q)
               /\ (forall d, event_id = Some d ->
                     exists c, getitem row 2 = Ok c /\ In c (map snd d))) r.
Proof.
  split; [eapply prune_events_length; eauto|].
  apply prune_events_stages in H as (ev1 & ev2 & onsets2 & H1 & H2 & Hon & H4).
  set (mfits := map (fun o => add64 o buffer_size <=? Z.of_nat (length ts)) onsets2) in *.
  (* the allow-list *)
  assert (A1 : Forall (fun row => forall d, event_id = Some d ->
                         exists c, getitem row 2 = Ok c /\ In c (map snd d)) ev1).
  { destruct H1 as [[-> ->]|(d & codes & -> & Hc & ->)].
    - apply Forall_forall. intros row _ d Hd; discriminate.
    - unfold isin, col in *. apply mapM_Forall2 in Hc.
      eapply Forall_impl;
        [|exact (compress_Forall2 _ (fun x => existsb (Z.eqb x) (map snd d)) _ _ Hc)].
      intros row (c & Hrow & Hex) d' Hd'. injection Hd' as <-.
      exists c. split; [exact Hrow|].
      apply existsb_exists in Hex as (c' & Hin & Heq).
      apply Z.eqb_eq in Heq. subst c'. exact Hin. }
  assert (A2 : Forall (fun row => forall d, event_id = Some d ->
                         exists c, getitem row 2 = Ok c /\ In c (map snd d)) ev2).
  { destruct H2 as [[_ ->]|(tse & idx & vals & _ & _ & _ & Hset)]; [exact A1|].
    apply set_col0_rows in Hset.
    eapply Forall2_Forall_l; [exact Hset | exact A1 |].
    intros row row' (x & y & tl & -> & ->) Hrow d Hd.
    rewrite (getitem_2_tail x y). apply Hrow, Hd. }
  (* the epochs that fit *)
  assert (A3 : Forall (fun row => exists o, getitem row 0 = Ok o
                                   /\ (add64 o buffer_size
                                       <=? Z.of_nat (length ts)) = true)
                      (compress mfits ev2)).
  { unfold col in Hon. apply mapM_Forall2 in Hon.
    exact (compress_Forall2 _ _ _ _ Hon). }
  assert (A4 : forall row, In row r -> In row (compress mfits ev2)).
  { destruct H4 as [[_ ->]|(l & onsets3 & tvals & _ & _ & _ & ->)]; [auto|].
    intros row. apply compress_In. }
  (* the watermark *)
  assert (A5 : Forall (fun row => forall l, last_ts = Some l ->
                         exists t, (o <- getitem row 0 ;; getitem ts o) = Ok t
                                   /\ (l < t)%Q) r).
  { destruct H4 as [[-> ->]|(l & onsets3 & tvals & -> & Hon3 & Ht & ->)].
    - apply Forall_forall. intros row _ l Hl; discriminate.
    - pose proof (mapM_mapM_Forall2 _ _ _ _ _ Hon3 Ht) as HF.
      eapply Forall_impl; [|exact (compress_Forall2 _ (fun x => Qltb l x) _ _ HF)].
      intros row (t & Hrow & Hlt) l' Hl'. injection Hl' as <-.
      exists t. split; [exact Hrow | apply Qltb_lt, Hlt]. }
  rewrite Forall_forall in *. intros row Hrow.
  destruct (A3 row (A4 row Hrow)) as (o & Ho & Hfit).
  split.
  - exists o. split; [exact Ho|]. split; [apply Z.leb_le, Hfit|].
    intros l Hl. destruct (A5 row Hrow l Hl) as (t & Ht & Hlt).
    rewrite Ho in Ht. simpl in Ht. exists t; auto.
  - apply A2. eapply compress_In. apply A4, Hrow.
Qed.

(** X10. Whatever events it is given, [_prune_events] never returns
    more events than it got, nor an event whose code is outside an active
    allow-list, nor an event for which [onset + buffer_size] exceeds the
    number of timestamps, nor, with a watermark, an event whose timestamp
    is not later than the watermark. *)
Theorem prune_events_sound
    (events r : list (list Z)) (event_id : option (list (string * Z)))
    (buffer_size : Z) (ts : list Q) (last_ts : option Q)
    (ts_events : option (list Q))
    (H : _prune_events events event_id buffer_size ts last_ts ts_events = Ok r) :
  (length r <= length events)%nat
  /\ Forall (fun row =>
               (exists o, getitem row 0 = Ok o
                          /\ add64 o buffer_size <= Z.of_nat (length ts)
                          /\ forall l, last_ts = Some l ->
                               exists t, getitem ts o = Ok t /\ (l < t)%Q)
               /\ (forall d, event_id = Some d ->
                     exists c, getitem row 2 = Ok c /\ In c (map snd d))) r.
Proof. exact (prune_events_rows _ _ _ _ _ _ _ H). Qed.

Lemma prune_events_sound_witness :
  Forall (fun row =>
            (exists o, getitem row 0 = Ok o
                       /\ add64 o 70 <= 200
                       /\ forall l, Some (30 # 100) = Some l ->
                            exists t, getitem (s_ts (Demo.window [] 0 200)) o = Ok t
                                      /\ (l < t)%Q)
            /\ (forall d, Some [("target"%string, 2)] = Some d ->
                  exists c, getitem row 2 = Ok c /\ In c (map snd d)))
         [[60; 0; 2]].
Proof.
  exact (proj2 (prune_events_sound
                  [[10; 0; 1]; [30; 0; 2]; [60; 0; 2]; [150; 0; 2]] [[60; 0; 2]]
                  (Some [("target"%string, 2)]) 70 (s_ts (Demo.window [] 0 200))
                  (Some (30 # 100)) None eq_refl)).
Defined.

(** ** The order of the detected events *)

Lemma insert_by_key_perm (k : Z) (row : list Z) (l : list (Z * list Z)) :
  Permutation (insert_by_key k row l) ((k, row) :: l).
Proof.
  induction l as [|[k' row'] l IH]; simpl; [reflexivity|].
  destruct (k <? k'); [reflexivity|].
  rewrite IH. apply perm_swap.
Qed.

Lemma insert_by_key_sorted (k : Z) (row : list Z) (l : list (Z * list Z)) :
  StronglySorted (fun p q => fst p <= fst q) l ->
  StronglySorted (fun p q => fst p <= fst q) (insert_by_key k row l).
Proof.
  induction 1 as [|[k' row'] l Hl IH Hk']; simpl.
  - constructor; constructor.
  - destruct (k <? k') eqn:E.
    + apply Z.ltb_lt in E. constructor; [constructor; assumption|].
      constructor; [simpl; lia|].
      eapply Forall_impl; [|exact Hk']. intros q Hq. simpl in *. lia.
    + apply Z.ltb_ge in E. constructor; [exact IH|].
      apply Forall_forall. intros q Hq.
      apply (Permutation_in _ (insert_by_key_perm k row l)) in Hq.
      destruct Hq as [<-|Hq]; [simpl; lia|].
      rewrite Forall_forall in Hk'. apply Hk', Hq.
Qed.

Lemma getitem_0_onset (row : list Z) (k : Z) : getitem row 0 = Ok k -> k = onset row.
Proof.
  destruct row as [|x tl]; [discriminate|].
  intros H. injection H as <-. reflexivity.
Qed.

(** The rows by [argsort] of their first entries: the same rows, in
    ascending order of onset. *)
Lemma sort_by_col0_spec (a r : list (list Z)) :
  sort_by_col0 a = Ok r -> Permutation r a /\ ascending r.
Proof.
  unfold sort_by_col0. intros H.
  apply bind_Ok in H as (keys & Hk & H). injection H as <-.
  unfold col in Hk. apply mapM_Forall2 in Hk.
  set (pairs := combine keys a).
  assert (Hsnd : map snd pairs = a).
  { unfold pairs. clear -Hk. induction Hk; simpl; [reflexivity|]. f_equal; assumption. }
  assert (Hkeys : Forall (fun p => fst p = onset (snd p)) pairs).
  { unfold pairs. clear -Hk. induction Hk as [|row k a keys H _ IH]; simpl;
      constructor; [apply getitem_0_onset, H | exact IH]. }
  set (sorted := fold_right (fun kr acc => insert_by_key (fst kr) (snd kr) acc)
                            [] pairs).
  assert (Hperm : Permutation sorted pairs).
  { unfold sorted. clear. induction pairs as [|[k row] l IH]; simpl; [reflexivity|].
    rewrite insert_by_key_perm. constructor. exact IH. }
  assert (Hsorted : StronglySorted (fun p q => fst p <= fst q) sorted).
  { unfold sorted. clear. induction pairs as [|[k row] l IH]; simpl; [constructor|].
    apply insert_by_key_sorted, IH. }
  split.
  - rewrite <- Hsnd. apply Permutation_map, Hperm.
  - assert (Hk' : Forall (fun p => fst p = onset (snd p)) sorted).
    { rewrite Forall_forall in *. intros p Hp. apply Hkeys.
      eapply Permutation_in; eauto. }
    clear -Hsorted Hk'. unfold ascending.
    induction Hsorted as [|p l Hl IH Hp]; simpl; [constructor|].
    inversion Hk' as [|? ? Hp1 Hl1]; subst.
    constructor; [apply IH, Hl1|].
    rewrite Forall_forall in *. intros row Hrow.
    apply in_map_iff in Hrow as (q & <- & Hq).
    rewrite <- Hp1, <- (Hl1 q Hq). apply Hp, Hq.
Qed.

(** X11. The events [_find_events_in_stim_channels] returns are those
    [_find_unique_events] made of the events found on the channels, in
    ascending order of onset. *)
Theorem find_events_in_stim_channels_sorted
    (mne : MNE) (data : list (list Q)) (event_channels : list string)
    (sfreq : Q) (events : list (list Z))
    (H : _find_events_in_stim_channels mne data event_channels sfreq = Ok events) :
  exists events_list unique_events,
    mapM (fun dc => _find_events mne (fst dc) (0 * sfreq)%Q (snd dc))
         (combine data event_channels) = Ok events_list
    /\ events_list <> []
    /\ _find_unique_events mne (concat events_list) = Ok unique_events
    /\ Permutation events unique_events
    /\ ascending events.
Proof.
  unfold _find_events_in_stim_channels in H.
  apply bind_Ok in H as (events_list & Hl & H).
  apply bind_Ok in H as (ev & Hev & H).
  apply bind_Ok in H as (unique_events & Hu & H).
  apply sort_by_col0_spec in H as [Hperm Hasc].
  exists events_list, unique_events.
  destruct events_list as [|e l]; [discriminate|].
  injection Hev as <-.
  split; [exact Hl|]. split; [discriminate|]. auto.
Qed.

Lemma find_events_in_stim_channels_sorted_witness :
  _find_events_in_stim_channels
    {| _picks_to_idx := Demo.resolve_picks; pick_info := Demo.select_info;
       _find_events := Demo.onsets_of;
       _find_unique_events := fun events => Ok events |}
    [[0; 0; 0; 0; 2; 2; 0]%Q; [0; 3; 3; 0; 0; 0; 0]%Q] ["STI1"; "STI2"]%string 100
  = Ok [[1; 0; 3]; [4; 0; 2]]
  /\ ascending [[1; 0; 3]; [4; 0; 2]].
Proof.
  split; [vm_compute; reflexivity|].
  destruct (find_events_in_stim_channels_sorted
              {| _picks_to_idx := Demo.resolve_picks; pick_info := Demo.select_info;
                 _find_events := Demo.onsets_of;
                 _find_unique_events := fun events => Ok events |}
              [[0; 0; 0; 0; 2; 2; 0]%Q; [0; 3; 3; 0; 0; 0; 0]%Q]
              ["STI1"; "STI2"]%string 100 [[1; 0; 3]; [4; 0; 2]])
    as (l & u & _ & _ & _ & _ & Hasc); [vm_compute; reflexivity | exact Hasc].
Defined.

(** The events a step extracts from the channels of the stream itself
    are in ascending order of onset. *)
Lemma acquire_extracted_ascending
    (mne : MNE) (self : EpochsStream) (stream : StreamView)
    (environ : option string) :
  ascending (st_extracted (_acquire mne self stream None environ)).
Proof.
  unfold _acquire.
  destruct (acquire_body mne self stream None) as [[s|s ev]|e] eqn:E; simpl;
    try constructor.
  apply acquire_body_fallthrough in E as (b & sel & b' & t & Hev & _).
  unfold acquire_events in Hev.
  apply bind_Ok in Hev as (info & _ & Hev).
  apply bind_Ok in Hev as (picks_events & _ & Hev).
  apply bind_Ok in Hev as (d & _ & Hev).
  apply bind_Ok in Hev as (events & Hfind & Hev).
  apply bind_Ok in Hev as (buffer & _ & Hprune).
  unfold _find_events_in_stim_channels in Hfind.
  apply bind_Ok in Hfind as (events_list & _ & Hfind).
  apply bind_Ok in Hfind as (ev0 & _ & Hfind).
  apply bind_Ok in Hfind as (unique_events & _ & Hsort).
  apply sort_by_col0_spec in Hsort as [_ Hasc].
  apply prune_events_stages in Hprune as (ev1 & ev2 & onsets2 & H1 & H2 & _ & H4).
  assert (A1 : ascending ev1).
  { destruct H1 as [[_ ->]|(dd & codes & _ & _ & ->)]; [exact Hasc|].
    apply compress_sorted, Hasc. }
  destruct H2 as [[_ ->]|(tse & idx & vals & Habs & _)]; [|discriminate].
  destruct H4 as [[_ ->]|(l & onsets3 & tvals & _ & _ & _ & ->)].
  - apply compress_sorted, A1.
  - apply compress_sorted, compress_sorted, A1.
Qed.

(** X12. Without a separate event stream, the events a step extracts
    are in ascending order of onset: the epochs of one step are appended
    to the buffer in chronological order. *)
Theorem acquire_extracts_in_order
    (mne : MNE) (self : EpochsStream) (stream : StreamView)
    (environ : option string) :
  ascending (st_extracted (_acquire mne self stream None environ)).
Proof. exact (acquire_extracted_ascending mne self stream environ). Qed.

(** ** Insertion of a batch (C6) *)




(** * Properties of the constructor and of [disconnect] *)

(** ** The allow-list *)

Lemma py_str_nonempty (z : Z) : 0 < z -> py_str z <> ""%string.
Proof.
  destruct z as [|p|p]; try lia. intros _.
  unfold py_str. simpl. unfold NilZero.string_of_uint.
  destruct (Pos.to_uint p); simpl; discriminate.
Qed.

Lemma string_length_0 (s : string) : (String.length s =? 0)%nat = false <-> s <> ""%string.
Proof.
  destruct s; simpl; split; intros H; try discriminate; try reflexivity.
  contradiction H; reflexivity.
Qed.

Lemma ensure_event_id_dict_iff
    (event_id : event_id_arg) (d : list (string * int_like)) :
  _ensure_event_id_dict event_id = Ok d
  <-> d = match event_id with
          | EventInt z => [(py_str z, Int z)]
          | EventDict d0 => d0
          end
      /\ Forall (fun kv => fst kv <> ""%string
                           /\ forall z, snd kv = Int z -> 0 < z) d.
Proof.
  destruct event_id as [z|d0]; simpl.
  - destruct (z <=? 0) eqn:E.
    + split; [discriminate|]. intros [-> H].
      inversion H as [|? ? [_ Hz] _]; subst. simpl in Hz.
      apply Z.leb_le in E. specialize (Hz z eq_refl). lia.
    + apply Z.leb_gt in E. split.
      * intros H; injection H as <-. split; [reflexivity|].
        constructor; [|constructor]. simpl.
        split; [apply py_str_nonempty, E|].
        intros z' Hz'. injection Hz' as <-. exact E.
      * intros [-> _]. reflexivity.
  - destruct (existsb _ d0) eqn:E.
    + split; [discriminate|]. intros [-> H].
      apply existsb_exists in E as (kv & Hin & Hkv).
      rewrite Forall_forall in H. destruct (H kv Hin) as [Hk Hv].
      apply orb_true_iff in Hkv as [Hkv|Hkv].
      * apply string_length_0 in Hk. congruence.
      * destruct (snd kv) as [z|z]; simpl in Hkv; [|discriminate].
        apply Z.leb_le in Hkv. specialize (Hv z eq_refl). lia.
    + split.
      * intros H; injection H as <-. split; [reflexivity|].
        apply Forall_forall. intros kv Hin.
        assert (Hkv : (String.length (fst kv) =? 0)%nat
                      || nonpositive_int (snd kv) = false).
        { destruct ((String.length (fst kv) =? 0)%nat
                    || nonpositive_int (snd kv)) eqn:Ekv; [|reflexivity].
          assert (existsb (fun kv => (String.length (fst kv) =? 0)%nat
                                     || nonpositive_int (snd kv)) d0 = true)
            by (apply existsb_exists; exists kv; auto).
          congruence. }
        apply orb_false_iff in Hkv as [Hk Hv].
        split; [apply string_length_0, Hk|].
        intros z Hz. rewrite Hz in Hv. simpl in Hv. apply Z.leb_gt, Hv.
      * intros [-> _]. reflexivity.
Qed.

(** X13. [_ensure_event_id_dict] accepts exactly the positive integers
    and the dictionaries whose names are not empty and whose values of
    type [int] are positive; an int-like value of another type, such as
    [np.int64], is not compared with 0. It returns the dictionary itself,
    and for an integer [n] the dictionary [{str(n): n}]. *)
Theorem ensure_event_id_dict_valid
    (event_id : event_id_arg) (d : list (string * int_like)) :
  _ensure_event_id_dict event_id = Ok d
  <-> d = match event_id with
          | EventInt z => [(py_str z, Int z)]
          | EventDict d0 => d0
          end
      /\ Forall (fun kv => fst kv <> ""%string
                           /\ forall z, snd kv = Int z -> 0 < z) d.
Proof. exact (ensure_event_id_dict_iff event_id d). Qed.

(** A dictionary with the value [np.int64(-1)] is accepted, one with the
    value [-1] is not. *)
Lemma ensure_event_id_dict_numpy :
  _ensure_event_id_dict (EventDict [("a"%string, NumpyInt (-1))])
  = Ok [("a"%string, NumpyInt (-1))]
  /\ _ensure_event_id_dict (EventDict [("a"%string, Int (-1))]) = Raise ValueError.
Proof. split; reflexivity. Qed.

(** X14. With an allow-list that [_ensure_event_id_dict] accepted and
    whose values are all of type [int], every event that [_prune_events]
    returns has a positive code: a sample without trigger value never
    gives an epoch. *)
Theorem validated_codes_positive
    (event_id : event_id_arg) (d : list (string * int_like))
    (events r : list (list Z)) (buffer_size : Z) (ts : list Q)
    (last_ts : option Q) (ts_events : option (list Q))
    (Hd : _ensure_event_id_dict event_id = Ok d)
    (Hint : Forall (fun kv => exists z, snd kv = Int z) d)
    (Hp : _prune_events events (Some (event_codes d)) buffer_size ts last_ts
                        ts_events = Ok r) :
  Forall (fun row => exists c, getitem row 2 = Ok c /\ 0 < c) r.
Proof.
  apply ensure_event_id_dict_iff in Hd as [_ Hd].
  apply prune_events_rows in Hp as [_ Hp].
  eapply Forall_impl; [|exact Hp].
  intros row [_ Hrow]. destruct (Hrow (event_codes d) eq_refl) as (c & Hc & Hin).
  exists c. split; [exact Hc|].
  unfold event_codes in Hin. rewrite map_map in Hin. simpl in Hin.
  apply in_map_iff in Hin as (kv & <- & Hkv).
  rewrite Forall_forall in Hd, Hint.
  destruct (Hint kv Hkv) as (z & Hz). rewrite Hz. simpl.
  apply (Hd kv Hkv), Hz.
Qed.

Lemma validated_codes_positive_witness :
  Forall (fun row => exists c, getitem row 2 = Ok c /\ 0 < c) [[30; 0; 2]; [90; 0; 2]].
Proof.
  refine (validated_codes_positive (EventInt 2) [("2"%string, Int 2)]
            [[10; 0; 0]; [30; 0; 2]; [60; 0; 1]; [90; 0; 2]] [[30; 0; 2]; [90; 0; 2]]
            70 (s_ts (Demo.window [] 0 200)) None None eq_refl _ eq_refl).
  apply Forall_cons; [exists 2; reflexivity | apply Forall_nil].
Defined.

(** ** The other checks *)

Lemma Qltb_false_le (x y : Q) : Qltb x y = false -> (y <= x)%Q.
Proof.
  unfold Qltb. intros H. apply negb_false_iff in H. apply Qle_bool_iff, H.
Qed.

Lemma Qle_bool_false_lt (x y : Q) : Qle_bool x y = false -> (y < x)%Q.
Proof.
  intros H. apply Qnot_le_lt. intros Hle. apply Qle_bool_iff in Hle. congruence.
Qed.

Lemma mapM_Ok_Forall {A B : Type} (f : A -> result B) (l : list A) (r : list B) :
  mapM f l = Ok r -> Forall (fun a => exists b, f a = Ok b) l.
Proof.
  intros H. apply mapM_Forall2 in H.
  induction H as [|a b l r Hab _ IH]; constructor; [exists b; exact Hab | exact IH].
Qed.

(** X15. A rejection window that [_check_reject_tmin_tmax] accepts lies
    within the epoch, and when both its ends are given it is not empty:
    [tmin <= reject_tmin < reject_tmax <= tmax]. *)
Theorem check_reject_tmin_tmax_window
    (reject_tmin reject_tmax : option Q) (tmin tmax : Q)
    (H : _check_reject_tmin_tmax reject_tmin reject_tmax tmin tmax = Ok tt) :
  (forall r, reject_tmin = Some r -> (tmin <= r)%Q)
  /\ (forall r, reject_tmax = Some r -> (r <= tmax)%Q)
  /\ (forall r0 r1, reject_tmin = Some r0 -> reject_tmax = Some r1 ->
        (tmin <= r0)%Q /\ (r0 < r1)%Q /\ (r1 <= tmax)%Q).
Proof.
  unfold _check_reject_tmin_tmax in H.
  destruct reject_tmin as [r0|], reject_tmax as [r1|];
    repeat match type of H with
           | (if ?c then _ else _) = _ => destruct c eqn:?; [discriminate|]
           end;
    repeat split; intros; try discriminate;
    repeat match goal with
           | E : Some _ = Some _ |- _ => injection E as <-
           end;
    try (apply Qltb_false_le; assumption);
    try (apply Qle_bool_false_lt; assumption).
Qed.

Lemma check_reject_tmin_tmax_window_witness :
  (- (1 # 5) <= - (1 # 10))%Q /\ (- (1 # 10) < 3 # 10)%Q /\ (3 # 10 <= 1 # 2)%Q.
Proof.
  destruct (check_reject_tmin_tmax_window (Some (- (1 # 10))%Q) (Some (3 # 10))
              (- (1 # 5))%Q (1 # 2) eq_refl) as (_ & _ & H).
  exact (H _ _ eq_refl eq_refl).
Defined.

(** X16. [_ensure_detrend_int] returns [None], 0 or 1, and given its
    own result again it returns it unchanged. *)
Theorem ensure_detrend_int_range
    (detrend : option detrend_arg) (r : option Z)
    (H : _ensure_detrend_int detrend = Ok r) :
  (r = None \/ r = Some 0 \/ r = Some 1)
  /\ (r = None <-> detrend = None)
  /\ _ensure_detrend_int (option_map DetrendInt r) = Ok r.
Proof.
  unfold _ensure_detrend_int in H.
  destruct detrend as [[z|s]|].
  - destruct ((z =? 0) || (z =? 1)) eqn:E; simpl in H; [|discriminate].
    injection H as <-. simpl. rewrite E. simpl.
    apply orb_true_iff in E as [E|E]; apply Z.eqb_eq in E; subst;
      (split; [auto|]); (split; [split; discriminate | reflexivity]).
  - destruct (String.eqb s "constant");
      [|destruct (String.eqb s "linear"); [|discriminate]];
      injection H as <-;
      (split; [auto|]); (split; [split; discriminate | reflexivity]).
  - injection H as <-. split; [auto|]. split; [split; reflexivity | reflexivity].
Qed.

Lemma ensure_detrend_int_range_witness :
  _ensure_detrend_int (Some (DetrendInt 1)) = Ok (Some 1).
Proof.
  exact (proj2 (proj2 (ensure_detrend_int_range (Some (DetrendStr "linear"))
                         (Some 1) eq_refl))).
Defined.

(** X17. Dictionaries [reject] and [flat] that [_check_reject_flat]
    accepts map channel types of the stream to positive [float]
    thresholds. *)
Theorem check_reject_flat_valid
    (reject flat : option (list (string * number))) (ch_types : list string)
    (H : _check_reject_flat reject flat ch_types = Ok tt) :
  forall d, reject = Some d \/ flat = Some d ->
    Forall (fun kv => In (fst kv) ch_types
                      /\ exists value, snd kv = PyFloat value /\ (0 < value)%Q) d.
Proof.
  assert (Hentry : forall kv u, check_ptp_entry ch_types kv = Ok u ->
            In (fst kv) ch_types
            /\ exists value, snd kv = PyFloat value /\ (0 < value)%Q).
  { intros kv u Hkv. unfold check_ptp_entry in Hkv.
    destruct (existsb (String.eqb (fst kv)) ch_types) eqn:E; simpl in Hkv;
      [|discriminate].
    apply existsb_exists in E as (t & Hin & Heq). apply String.eqb_eq in Heq.
    subst t. split; [exact Hin|].
    destruct (snd kv) as [z|value]; [discriminate|].
    destruct (Qle_bool value 0) eqn:Ev; [discriminate|].
    exists value. split; [reflexivity | apply Qle_bool_false_lt, Ev]. }
  unfold _check_reject_flat in H.
  apply bind_Ok in H as (u & Hr & Hf).
  intros d [-> | ->].
  - apply bind_Ok in Hr as (us & Hus & _).
    apply mapM_Ok_Forall in Hus.
    eapply Forall_impl; [|exact Hus]. intros kv (b & Hb). eapply Hentry; eauto.
  - apply bind_Ok in Hf as (us & Hus & _).
    apply mapM_Ok_Forall in Hus.
    eapply Forall_impl; [|exact Hus]. intros kv (b & Hb). eapply Hentry; eauto.
Qed.

Lemma check_reject_flat_valid_witness :
  Forall (fun kv => In (fst kv) ["eeg"; "stim"]%string
                    /\ exists value, snd kv = PyFloat value /\ (0 < value)%Q)
         [("eeg"%string, PyFloat (1 # 10000))].
Proof.
  apply (check_reject_flat_valid (Some [("eeg"%string, PyFloat (1 # 10000))]) None
           ["eeg"; "stim"]%string eq_refl).
  left; reflexivity.
Defined.

(** An [int] threshold is refused with a [TypeError], a threshold for a
    channel type the stream does not have with a [ValueError]. *)
Lemma check_reject_flat_errors :
  _check_reject_flat (Some [("eeg"%string, PyInt 1)]) None ["eeg"]%string
  = Raise TypeError
  /\ _check_reject_flat (Some [("meg"%string, PyInt 1)]) None ["eeg"]%string
     = Raise ValueError
  /\ _check_reject_flat None (Some [("eeg"%string, PyFloat 0)]) ["eeg"]%string
     = Raise ValueError.
Proof. repeat split. Qed.

(** X18. Event channels that [_check_event_channels] accepts are
    channels of the stream the events come from, none of them is marked
    bad, and each is of type ["stim"] unless that stream is an
    irregularly sampled event stream. *)
Theorem check_event_channels_valid
    (event_channels : list string) (stream : BaseStream)
    (event_stream : option BaseStream)
    (H : _check_event_channels event_channels stream event_stream = Ok tt) :
  Forall (fun elt =>
            match event_stream with
            | None =>
                In elt (ch_names (bs_info stream))
                /\ ~ In elt (bads (bs_info stream))
                /\ bs_channel_type stream elt = "stim"%string
            | Some es =>
                In elt (ch_names (bs_info es))
                /\ ~ In elt (bads (bs_info es))
                /\ (Qeq_bool (sfreq (bs_info es)) 0 = false ->
                    bs_channel_type es elt = "stim"%string)
            end) event_channels.
Proof.
  assert (Hin : forall name names, name_in name names = true <-> In name names).
  { intros name names. unfold name_in. rewrite existsb_exists. split.
    - intros (x & Hx & Heq). apply String.eqb_eq in Heq. subst; exact Hx.
    - intros Hx. exists name. split; [exact Hx | apply String.eqb_refl]. }
  unfold _check_event_channels in H.
  apply bind_Ok in H as (us & Hus & _).
  apply mapM_Ok_Forall in Hus.
  eapply Forall_impl; [|exact Hus].
  intros elt (u & Hu). unfold check_event_channel in Hu.
  destruct event_stream as [es|].
  - destruct (name_in elt (ch_names (bs_info es))) eqn:E1; simpl in Hu; [|discriminate].
    destruct (name_in elt (bads (bs_info es))) eqn:E2; [discriminate|].
    destruct (negb (Qeq_bool (sfreq (bs_info es)) 0)
              && negb (String.eqb (bs_channel_type es elt) "stim")) eqn:E3;
      [discriminate|].
    split; [apply Hin, E1|]. split.
    + intros Hb. apply Hin in Hb. congruence.
    + intros Hs. rewrite Hs in E3. simpl in E3.
      apply negb_false_iff in E3. apply String.eqb_eq, E3.
  - destruct (name_in elt (ch_names (bs_info stream))) eqn:E1; simpl in Hu;
      [|discriminate].
    destruct (name_in elt (bads (bs_info stream))) eqn:E2; [discriminate|].
    destruct (String.eqb (bs_channel_type stream elt) "stim") eqn:E3; simpl in Hu;
      [|discriminate].
    split; [apply Hin, E1|]. split.
    + intros Hb. apply Hin in Hb. congruence.
    + apply String.eqb_eq, E3.
Qed.

Lemma check_event_channels_valid_witness :
  Forall (fun elt =>
            In elt (ch_names Demo.info100)
            /\ ~ In elt (bads Demo.info100)
            /\ bs_channel_type DemoInit.stream100 elt = "stim"%string)
         ["STI"%string].
Proof.
  exact (check_event_channels_valid ["STI"%string] DemoInit.stream100 None eq_refl).
Defined.

(** X19. [_check_baseline] accepts exactly [None] and the pairs whose
    ends, where given, lie within the epoch: the start not before [tmin]
    and the end not after [tmax]. It does not compare the two ends with
    each other. *)
Theorem check_baseline_valid
    (baseline : option (list (option Q))) (tmin tmax : Q) :
  _check_baseline baseline tmin tmax = Ok tt
  <-> baseline = None
      \/ exists b0 b1,
           baseline = Some [b0; b1]
           /\ (forall x, b0 = Some x -> (tmin <= x)%Q)
           /\ (forall x, b1 = Some x -> (x <= tmax)%Q).
Proof.
  unfold _check_baseline. destruct baseline as [b|].
  2:{ split; [left; reflexivity | reflexivity]. }
  destruct b as [|b0 [|b1 [|b2 b]]]; simpl.
  1,2,4: split; [discriminate|];
         intros [H|(x0 & x1 & H & _)]; discriminate.
  split.
  - intros H. right. exists b0, b1. split; [reflexivity|].
    destruct b0 as [x0|], b1 as [x1|];
      repeat match type of H with
             | (if ?c then _ else _) = _ => destruct c eqn:?; [discriminate|]
             end;
      split; intros x Hx; try discriminate; injection Hx as <-;
      apply Qltb_false_le; assumption.
  - intros [H|(x0 & x1 & H & H0 & H1)]; [discriminate|].
    injection H as -> ->.
    assert (Hlt : forall x y, (x <= y)%Q -> Qltb y x = false).
    { intros x y Hxy. unfold Qltb. apply negb_false_iff, Qle_bool_iff, Hxy. }
    destruct x0 as [x0|], x1 as [x1|];
      try rewrite (Hlt _ _ (H0 _ eq_refl));
      try rewrite (Hlt _ _ (H1 _ eq_refl)); reflexivity.
Qed.

(** ** The constructor *)

(** What a constructor that returns has checked, and the object it
    returns. *)
Lemma init_settings_inv
    (stream : BaseStream) (bufsize : Z) (event_id : event_id_arg)
    (event_channels : names_arg) (event_stream : option BaseStream) (tmin tmax : Q)
    (baseline : option (list (option Q))) (picks : picks_arg)
    (reject flat : option (list (string * number)))
    (reject_tmin reject_tmax : option Q) (detrend : option detrend_arg)
    (self : EpochsStream) (settings : Settings) :
  init_settings stream bufsize event_id event_channels event_stream tmin tmax
                baseline picks reject flat reject_tmin reject_tmax detrend
  = Ok (self, settings) ->
  exists d det,
    _check_event_channels (match event_channels with
                           | OneName name => [name]
                           | NameList names => names
                           end) stream event_stream = Ok tt
    /\ 0 < bufsize
    /\ _ensure_event_id_dict event_id = Ok d
    /\ _check_baseline baseline tmin tmax = Ok tt
    /\ _check_reject_flat reject flat (bs_unique_types stream) = Ok tt
    /\ _check_reject_tmin_tmax reject_tmin reject_tmax tmin tmax = Ok tt
    /\ _ensure_detrend_int detrend = Ok det
    /\ self = {| _bufsize := bufsize; _tmin := tmin; _tmax := tmax;
                 _event_id := event_codes d;
                 _event_channels := match event_channels with
                                    | OneName name => [name]
                                    | NameList names => names
                                    end;
                 _picks_init := picks;
                 _acquisition_delay := None; _buffer := None; _executor := None;
                 _info := None; _last_ts := None; _n_new_epochs := 0;
                 _picks := None; _last := None; _new_new_epochs := None |}
    /\ settings = {| _baseline := baseline; _reject := reject; _flat := flat;
                     _reject_tmin := reject_tmin; _reject_tmax := reject_tmax;
                     _detrend := det |}.
Proof.
  unfold init_settings. intros H.
  apply bind_Ok in H as ([] & Hec & H).
  destruct (bufsize <=? 0) eqn:Eb; [discriminate|]. simpl in H.
  apply bind_Ok in H as (d & Hd & H).
  apply bind_Ok in H as ([] & Hbl & H).
  apply bind_Ok in H as ([] & Hrf & H).
  apply bind_Ok in H as ([] & Hrt & H).
  apply bind_Ok in H as (det & Hdet & H).
  injection H as <- <-.
  exists d, det. apply Z.leb_gt in Eb.
  repeat (split; [assumption|]). split; reflexivity.
Qed.

Lemma init_inv
    (me : nat) (stream : BaseStream) (bufsize : Z) (event_id : event_id_arg)
    (event_channels : names_arg) (event_stream : option BaseStream) (tmin tmax : Q)
    (baseline : option (list (option Q))) (picks : picks_arg)
    (reject flat : option (list (string * number)))
    (reject_tmin reject_tmax : option Q) (detrend : option detrend_arg)
    (epochs : list nat) (event_epochs : option (list nat))
    (self : EpochsStream) (settings : Settings) :
  __init__ me stream bufsize event_id event_channels event_stream tmin tmax
           baseline picks reject flat reject_tmin reject_tmax detrend
  = (epochs, event_epochs, Ok (self, settings)) ->
  (bs_connected stream = true \/ Qeq_bool (sfreq (bs_info stream)) 0 = true)
  /\ (tmin < tmax)%Q
  /\ float_ltb (float64 (bs_bufsize stream))
               (float_sub (float64 tmax) (float64 tmin)) = false
  /\ (forall es, event_stream = Some es -> bs_connected es = true)
  /\ epochs = bs_epochs stream ++ [me]
  /\ event_epochs = option_map (fun es => bs_epochs es ++ [me]) event_stream
  /\ init_settings stream bufsize event_id event_channels event_stream tmin tmax
                   baseline picks reject flat reject_tmin reject_tmax detrend
     = Ok (self, settings).
Proof.
  unfold __init__. intros H.
  destruct (negb (bs_connected stream)
            && negb (Qeq_bool (sfreq (bs_info stream)) 0)) eqn:E0; [discriminate|].
  destruct (Qle_bool tmax tmin) eqn:E1; [discriminate|].
  destruct (float_ltb (float64 (bs_bufsize stream))
                      (float_sub (float64 tmax) (float64 tmin))) eqn:E2;
    [discriminate|].
  destruct (match event_stream with
            | Some es => negb (bs_connected es)
            | None => false
            end) eqn:E3; [discriminate|].
  injection H as <- <- H.
  split.
  { apply andb_false_iff in E0 as [E0|E0]; apply negb_false_iff in E0; auto. }
  split; [apply Qle_bool_false_lt, E1|].
  split; [reflexivity|].
  split.
  { intros es ->. apply negb_false_iff, E3. }
  split; [reflexivity|]. split; [reflexivity | exact H].
Qed.

(** X20. An object that the constructor returns holds settings that
    passed every check: the stream it epochs is connected or irregularly
    sampled and its event stream is connected; [tmin < tmax] and the
    buffer of the stream is not shorter than [tmax - tmin] as computed
    in binary64; the capacity is positive; the event channels are not bad
    channels of the stream the events come from; the names of the
    allow-list are not empty and its values of type [int] are positive.
    The object is disconnected with a counter at 0, and it is the last
    entry of the lists [_epochs] of its streams. *)
Theorem init_valid
    (me : nat) (stream : BaseStream) (bufsize : Z) (event_id : event_id_arg)
    (event_channels : names_arg) (event_stream : option BaseStream) (tmin tmax : Q)
    (baseline : option (list (option Q))) (picks : picks_arg)
    (reject flat : option (list (string * number)))
    (reject_tmin reject_tmax : option Q) (detrend : option detrend_arg)
    (epochs : list nat) (event_epochs : option (list nat))
    (self : EpochsStream) (settings : Settings)
    (H : __init__ me stream bufsize event_id event_channels event_stream tmin tmax
                  baseline picks reject flat reject_tmin reject_tmax detrend
         = (epochs, event_epochs, Ok (self, settings))) :
  (bs_connected stream = true \/ Qeq_bool (sfreq (bs_info stream)) 0 = true)
  /\ (forall es, event_stream = Some es -> bs_connected es = true)
  /\ epochs = bs_epochs stream ++ [me]
  /\ event_epochs = option_map (fun es => bs_epochs es ++ [me]) event_stream
  /\ _tmin self = tmin /\ _tmax self = tmax /\ _bufsize self = bufsize
  /\ _picks_init self = picks
  /\ (_tmin self < _tmax self)%Q
  /\ float_ltb (float64 (bs_bufsize stream))
               (float_sub (float64 (_tmax self)) (float64 (_tmin self))) = false
  /\ 0 < _bufsize self
  /\ Forall (fun elt =>
               let source := match event_stream with
                             | Some es => es
                             | None => stream
                             end in
               In elt (ch_names (bs_info source))
               /\ ~ In elt (bads (bs_info source))) (_event_channels self)
  /\ (exists d,
        _ensure_event_id_dict event_id = Ok d
        /\ _event_id self = event_codes d
        /\ Forall (fun kv => fst kv <> ""%string
                             /\ forall z, snd kv = Int z -> 0 < z) d)
  /\ connected self = Ok false
  /\ _n_new_epochs self = 0
  /\ _last_ts self = None
  /\ _executor self = None.
Proof.
  apply init_inv in H as (Hc & Ht & Hb & Hes & -> & -> & H).
  apply init_settings_inv in H
    as (d & det & Hec & Hbuf & Hd & _ & _ & _ & _ & -> & _).
  simpl.
  split; [exact Hc|]. split; [exact Hes|].
  do 6 (split; [reflexivity|]).
  split; [exact Ht|]. split; [exact Hb|]. split; [exact Hbuf|].
  split.
  { assert (Hin : forall name names, name_in name names = true <-> In name names).
    { intros name names. unfold name_in. rewrite existsb_exists. split.
      - intros (x & Hx & Heq). apply String.eqb_eq in Heq. subst; exact Hx.
      - intros Hx. exists name. split; [exact Hx | apply String.eqb_refl]. }
    unfold _check_event_channels in Hec.
    apply bind_Ok in Hec as (us & Hus & _).
    apply mapM_Ok_Forall in Hus.
    eapply Forall_impl; [|exact Hus].
    intros elt (u & Hu). unfold check_event_channel in Hu.
    destruct event_stream as [es|].
    - destruct (name_in elt (ch_names (bs_info es))) eqn:E1; simpl in Hu;
        [|discriminate].
      destruct (name_in elt (bads (bs_info es))) eqn:E2; [discriminate|].
      split; [apply Hin, E1|]. intros Hbad. apply Hin in Hbad. congruence.
    - destruct (name_in elt (ch_names (bs_info stream))) eqn:E1; simpl in Hu;
        [|discriminate].
      destruct (name_in elt (bads (bs_info stream))) eqn:E2; [discriminate|].
      split; [apply Hin, E1|]. intros Hbad. apply Hin in Hbad. congruence. }
  split.
  { exists d. split; [exact Hd|]. split; [reflexivity|].
    apply ensure_event_id_dict_iff in Hd as [_ Hd]; exact Hd. }
  repeat split.
Qed.

Lemma init_valid_witness :
  fst (fst (DemoInit.construct PicksNone)) = [4; 7]%nat
  /\ connected (DemoInit.built PicksNone) = Ok false
  /\ 0 < _bufsize (DemoInit.built PicksNone).
Proof.
  destruct (init_valid 7 DemoInit.stream100 3 (EventInt 1) (OneName "STI") None
              (- (1 # 5)) (1 # 2) (Some [None; Some 0%Q]) PicksNone
              None None None None None
              [4; 7]%nat None (DemoInit.built PicksNone)
              {| _baseline := Some [None; Some 0%Q]; _reject := None; _flat := None;
                 _reject_tmin := None; _reject_tmax := None; _detrend := None |}
              eq_refl)
    as (_ & _ & _ & _ & _ & _ & _ & _ & _ & _ & Hb & _ & _ & Hc & _).
  split; [reflexivity|]. split; [exact Hc | exact Hb].
Defined.

(** ** From the constructor to the buffer *)

Lemma connected_run
    (mne : MNE) (calls : list call) (self : EpochsStream) :
  connected self = Ok true \/ connected self = Ok false ->
  connected (run mne self calls) = Ok true
  \/ connected (run mne self calls) = Ok false.
Proof.
  revert self. induction calls as [|c calls IH]; intros self Hc; simpl; [exact Hc|].
  apply IH. destruct c as [s es env|picks]; simpl.
  - destruct (connected_acquire mne self s es env) as [[_ ->]|[_ ->]];
      [exact Hc | right; reflexivity].
  - rewrite connected_get_data. exact Hc.
Qed.

Lemma connect_connected
    (mne : MNE) (self0 self : EpochsStream) (stream_connected : bool)
    (stream_info : Info) (event_stream_connected : option bool)
    (acquisition_delay : Q) :
  connected self0 = Ok false ->
  connect mne self0 stream_connected stream_info event_stream_connected
          acquisition_delay = (self, None) ->
  connected self = Ok true.
Proof.
  intros H0 Hconnect.
  eapply connect_buffer_inv in Hconnect as (i & p & Hi & Hp & _ & _ & _ & Hinv);
    [|exact H0].
  destruct Hinv as [(_ & _ & Hn & _)|(b & Hb & _ & _ & _ & _ & _ & Hd)]; [congruence|].
  unfold connected. rewrite Hb, Hi, Hp.
  destruct (_acquisition_delay self); [reflexivity|contradiction].
Qed.

(** X21. The buffer of an object built by the constructor and then
    connected has at least one slot, and every slot has
    [ceil((tmax - tmin) * sfreq)] samples, as computed in binary64, with
    one column per selected channel; as long as the object is connected,
    no sequence of steps and reads changes that shape. *)
Theorem constructed_buffer_shape
    (mne : MNE)
    (me : nat) (stream : BaseStream) (bufsize : Z) (event_id : event_id_arg)
    (event_channels : names_arg) (event_stream : option BaseStream) (tmin tmax : Q)
    (baseline : option (list (option Q))) (picks_init : picks_arg)
    (reject flat : option (list (string * number)))
    (reject_tmin reject_tmax : option Q) (detrend : option detrend_arg)
    (epochs : list nat) (event_epochs : option (list nat))
    (self0 self : EpochsStream) (settings : Settings)
    (stream_connected : bool) (stream_info : Info)
    (event_stream_connected : option bool) (acquisition_delay : Q)
    (Hinit : __init__ me stream bufsize event_id event_channels event_stream
                      tmin tmax baseline picks_init reject flat reject_tmin
                      reject_tmax detrend
             = (epochs, event_epochs, Ok (self0, settings)))
    (Hconnect : connect mne self0 stream_connected stream_info
                        event_stream_connected acquisition_delay = (self, None)) :
  exists info picks x,
    _info self = Some info
    /\ _picks self = Some picks
    /\ float_value (float_mul (float_sub (float64 tmax) (float64 tmin))
                              (float64 (sfreq info))) = Ok x
    /\ 0 <= ceil x
    /\ (1 <= Z.to_nat bufsize)%nat
    /\ forall calls,
         connected (run mne self calls) = Ok false
         \/ exists buffer,
              _buffer (run mne self calls) = Some buffer
              /\ has_shape (Z.to_nat bufsize) (Z.to_nat (ceil x)) (length picks) buffer.
Proof.
  apply init_inv in Hinit as (_ & _ & _ & _ & _ & _ & Hinit).
  apply init_settings_inv in Hinit
    as (d & det & _ & Hbuf & _ & _ & _ & _ & _ & -> & _).
  pose proof Hconnect as Hc.
  eapply connect_buffer_inv in Hc
    as (info & picks & Hi & Hp & Hb0 & Htmin & Htmax & Hinv); [|reflexivity].
  edestruct connect_epoch_samples as (n & Hn & Hn0);
    [| exact Hconnect | exact Hi |]; [reflexivity|].
  simpl in Hb0, Htmin, Htmax, Hn. rewrite Hb0, Htmin, Htmax in Hinv.
  unfold epoch_length in Hinv. rewrite Hn in Hinv.
  unfold epoch_samples in Hn. apply bind_Ok in Hn as (x & Hx & Hn).
  injection Hn as <-.
  exists info, picks, x.
  split; [exact Hi|]. split; [exact Hp|]. split; [exact Hx|].
  split; [exact Hn0|]. split; [lia|].
  intros calls.
  pose proof (run_buffer_inv mne _ _ _ info picks calls 0 self Hinv) as H.
  destruct H as [(Hd & Hb & Hni & Hk)|(buffer & Hb & Hs & _)].
  - left. unfold connected. rewrite Hd, Hb, Hni, Hk. reflexivity.
  - right. exists buffer. split; [exact Hb | exact Hs].
Qed.

Lemma constructed_buffer_shape_witness :
  exists buffer,
    _buffer (run Demo.mne DemoInit.connected_short
               [CallAcquire (Demo.window [(50, 1)] 0 200) None None;
                CallGetData PicksNone])
    = Some buffer
    /\ has_shape 3 31 2 buffer.
Proof.
  destruct (constructed_buffer_shape Demo.mne
              7 DemoInit.stream100 3 (EventInt 1) (OneName "STI") None
              (- (1 # 5)) (1 # 10) (Some [None; Some 0%Q]) PicksNone
              None None None None None
              [4; 7]%nat None DemoInit.built_short DemoInit.connected_short
              {| _baseline := Some [None; Some 0%Q]; _reject := None; _flat := None;
                 _reject_tmin := None; _reject_tmax := None; _detrend := None |}
              true Demo.info100 None 0 eq_refl)
    as (info & picks & x & Hi & Hp & Hx & _ & _ & Hrun).
  - vm_compute; reflexivity.
  - vm_compute in Hi. injection Hi as <-.
    vm_compute in Hp. injection Hp as <-.
    vm_compute in Hx. injection Hx as <-.
    destruct (Hrun [CallAcquire (Demo.window [(50, 1)] 0 200) None None;
                    CallGetData PicksNone]) as [Hc|H].
    + vm_compute in Hc. discriminate.
    + exact H.
Defined.

(** ** [disconnect] *)

Lemma existsb_eqb_In (me : nat) (l : list nat) :
  existsb (Nat.eqb me) l = true <-> In me l.
Proof.
  rewrite existsb_exists. split.
  - intros (x & Hx & Heq). apply Nat.eqb_eq in Heq. subst; exact Hx.
  - intros H. exists me. split; [exact H | apply Nat.eqb_refl].
Qed.

Lemma list_remove_absent (me : nat) (l : list nat) :
  ~ In me l -> list_remove me l = l.
Proof.
  induction l as [|y l IH]; simpl; intros H; [reflexivity|].
  destruct (Nat.eqb me y) eqn:E.
  - apply Nat.eqb_eq in E. subst. contradiction H. left; reflexivity.
  - rewrite IH; [reflexivity|]. intros Hin. apply H. right; exact Hin.
Qed.

Lemma deregister_remove (me : nat) (l : list nat) :
  deregister me l = list_remove me l.
Proof.
  unfold deregister. destruct (existsb (Nat.eqb me) l) eqn:E; [reflexivity|].
  symmetry. apply list_remove_absent. intros H.
  apply existsb_eqb_In in H. congruence.
Qed.

(** The occurrences of [me] drop by one, if there is one. *)
Lemma deregister_count (me : nat) (l : list nat) :
  count_occ Nat.eq_dec (deregister me l) me = pred (count_occ Nat.eq_dec l me).
Proof.
  rewrite deregister_remove.
  induction l as [|y l IH]; simpl; [reflexivity|].
  destruct (Nat.eqb me y) eqn:E.
  - apply Nat.eqb_eq in E. subst. destruct (Nat.eq_dec y y); [reflexivity|contradiction].
  - apply Nat.eqb_neq in E. simpl.
    destruct (Nat.eq_dec y me) as [->|_]; [contradiction E; reflexivity | exact IH].
Qed.

(** The other objects stay, in their order. *)
Lemma deregister_others (me : nat) (l : list nat) :
  filter (fun x => negb (Nat.eqb me x)) (deregister me l)
  = filter (fun x => negb (Nat.eqb me x)) l.
Proof.
  rewrite deregister_remove.
  induction l as [|y l IH]; simpl; [reflexivity|].
  destruct (Nat.eqb me y) eqn:E; simpl; [reflexivity|].
  rewrite E; simpl. rewrite IH. reflexivity.
Qed.

(** Removing what the constructor appended. *)
Lemma deregister_app_fresh (me : nat) (l : list nat) :
  ~ In me l -> deregister me (l ++ [me]) = l.
Proof.
  rewrite deregister_remove.
  induction l as [|y l IH]; simpl; intros H.
  - rewrite Nat.eqb_refl. reflexivity.
  - destruct (Nat.eqb me y) eqn:E.
    + apply Nat.eqb_eq in E. subst. contradiction H. left; reflexivity.
    + rewrite IH; [reflexivity|]. intros Hin. apply H. right; exact Hin.
Qed.

Lemma disconnect_Ok
    (me : nat) (self : EpochsStream) (stream_epochs : list nat)
    (event_stream_epochs : option (list nat)) (c : bool) :
  connected self = Ok c ->
  disconnect me self stream_epochs event_stream_epochs
  = (if c then _reset_variables self else self,
     deregister me stream_epochs,
     option_map (deregister me) event_stream_epochs, None).
Proof. unfold disconnect. intros ->. destruct c; reflexivity. Qed.

(** X22. Whenever the sanity check of [connected] passes, [disconnect]
    raises nothing and leaves the object disconnected, so that
    [n_new_epochs] and [acquire] then raise a [RuntimeError]; it removes
    one occurrence of the object from the list [_epochs] of the stream
    and leaves the other objects of the list in their order; a second
    [disconnect] leaves the object as it is. *)
Theorem disconnect_deregisters
    (mne : MNE) (me : nat) (self : EpochsStream) (stream_epochs : list nat)
    (event_stream_epochs : option (list nat)) (c : bool)
    (Hc : connected self = Ok c) :
  exists self' stream_epochs' event_stream_epochs',
    disconnect me self stream_epochs event_stream_epochs
    = (self', stream_epochs', event_stream_epochs', None)
    /\ connected self' = Ok false
    /\ _buffer self' = None
    /\ n_new_epochs self' = Raise RuntimeError
    /\ (forall stream event_stream environ,
          st_raised (acquire mne self' stream event_stream environ)
          = Some RuntimeError)
    /\ count_occ Nat.eq_dec stream_epochs' me
       = pred (count_occ Nat.eq_dec stream_epochs me)
    /\ filter (fun x => negb (Nat.eqb me x)) stream_epochs'
       = filter (fun x => negb (Nat.eqb me x)) stream_epochs
    /\ fst (fst (fst (disconnect me self' stream_epochs' event_stream_epochs')))
       = self'.
Proof.
  rewrite (disconnect_Ok _ _ _ _ _ Hc).
  eexists _, _, _. split; [reflexivity|].
  assert (Hd : connected (if c then _reset_variables self else self) = Ok false).
  { destruct c; [reflexivity | exact Hc]. }
  split; [exact Hd|].
  split; [apply connected_false_inv in Hd as (_ & Hb & _); exact Hb|].
  split; [unfold n_new_epochs, _check_connected; rewrite Hd; reflexivity|].
  split.
  { intros stream event_stream environ.
    unfold acquire, _check_connected. rewrite Hd. reflexivity. }
  split; [apply deregister_count|].
  split; [apply deregister_others|].
  rewrite (disconnect_Ok _ _ _ _ _ Hd). reflexivity.
Qed.

Lemma disconnect_deregisters_witness :
  exists self',
    disconnect 7 (DemoInit.connected_object PicksNone) [4; 7]%nat None
    = (self', [4%nat], None, None)
    /\ connected self' = Ok false.
Proof.
  destruct (disconnect_deregisters Demo.mne 7 (DemoInit.connected_object PicksNone)
              [4; 7]%nat None true)
    as (self' & se & ese & Hd & Hc & _).
  - vm_compute; reflexivity.
  - exists self'. split; [|exact Hc].
    rewrite Hd. rewrite (disconnect_Ok _ _ _ _ true) in Hd by (vm_compute; reflexivity).
    injection Hd as _ <- <-. reflexivity.
Defined.

(** X23. The life cycle of an object gives the streams back as it found
    them: for an object that is not yet in the lists [_epochs], the
    constructor, a successful [connect], any sequence of steps and reads
    and [disconnect] leave those lists as they were before the
    constructor, raise nothing, and leave the object disconnected. *)
Theorem lifecycle_restores_streams
    (mne : MNE)
    (me : nat) (stream : BaseStream) (bufsize : Z) (event_id : event_id_arg)
    (event_channels : names_arg) (event_stream : option BaseStream) (tmin tmax : Q)
    (baseline : option (list (option Q))) (picks_init : picks_arg)
    (reject flat : option (list (string * number)))
    (reject_tmin reject_tmax : option Q) (detrend : option detrend_arg)
    (epochs : list nat) (event_epochs : option (list nat))
    (self0 self : EpochsStream) (settings : Settings)
    (stream_connected : bool) (stream_info : Info)
    (event_stream_connected : option bool) (acquisition_delay : Q)
    (calls : list call)
    (Hfresh : ~ In me (bs_epochs stream))
    (Hfresh_events : forall es, event_stream = Some es -> ~ In me (bs_epochs es))
    (Hinit : __init__ me stream bufsize event_id event_channels event_stream
                      tmin tmax baseline picks_init reject flat reject_tmin
                      reject_tmax detrend
             = (epochs, event_epochs, Ok (self0, settings)))
    (Hconnect : connect mne self0 stream_connected stream_info
                        event_stream_connected acquisition_delay = (self, None)) :
  exists self',
    disconnect me (run mne self calls) epochs event_epochs
    = (self', bs_epochs stream, option_map bs_epochs event_stream, None)
    /\ connected self' = Ok false.
Proof.
  apply init_inv in Hinit as (_ & _ & _ & _ & -> & -> & Hinit).
  apply init_settings_inv in Hinit
    as (d & det & _ & _ & _ & _ & _ & _ & _ & -> & _).
  apply connect_connected in Hconnect; [|reflexivity].
  assert (Hrun : exists c, connected (run mne self calls) = Ok c).
  { destruct (connected_run mne calls self (or_introl Hconnect)) as [H|H];
      eexists; exact H. }
  destruct Hrun as [c Hc].
  rewrite (disconnect_Ok _ _ _ _ _ Hc).
  eexists. split.
  - rewrite deregister_app_fresh by exact Hfresh.
    destruct event_stream as [es|]; simpl; [|reflexivity].
    rewrite deregister_app_fresh by (apply Hfresh_events; reflexivity).
    reflexivity.
  - destruct c; [reflexivity | exact Hc].
Qed.

Lemma lifecycle_restores_streams_witness :
  exists self',
    disconnect 7 (run Demo.mne (DemoInit.connected_object PicksNone)
                    [CallAcquire (Demo.window [(50, 1)] 0 200) None None;
                     CallGetData PicksNone])
               [4; 7]%nat None
    = (self', [4%nat], None, None)
    /\ connected self' = Ok false.
Proof.
  refine (lifecycle_restores_streams Demo.mne
            7 DemoInit.stream100 3 (EventInt 1) (OneName "STI") None
            (- (1 # 5)) (1 # 2) (Some [None; Some 0%Q]) PicksNone
            None None None None None
            [4; 7]%nat None (DemoInit.built PicksNone)
            (DemoInit.connected_object PicksNone)
            {| _baseline := Some [None; Some 0%Q]; _reject := None; _flat := None;
               _reject_tmin := None; _reject_tmax := None; _detrend := None |}
            true Demo.info100 None 0
            [CallAcquire (Demo.window [(50, 1)] 0 200) None None;
             CallGetData PicksNone] _ _ eq_refl _).
  - simpl. intros [H|[]]. discriminate.
  - intros es H. discriminate.
  - vm_compute; reflexivity.
Defined.

(** ** A [connect] that fails on the selection *)

(** X24. [connect] stores the delay before it resolves the selection
    [picks] that the constructor stored unchecked. When the stream is
    connected, the delay valid and the selection rejected, [connect]
    raises that error and leaves the object with a delay and no buffer:
    from then on the sanity check of [connected] fails, and [connect],
    [disconnect], [acquire] and [n_new_epochs] all raise an
    [AssertionError]; [disconnect] no longer removes the object from the
    list [_epochs] of its stream. *)
Theorem connect_failure_partial_state
    (mne : MNE) (me : nat) (self0 : EpochsStream) (stream_info : Info)
    (event_stream_connected : option bool) (acquisition_delay : Q) (e : exn)
    (H0 : connected self0 = Ok false)
    (Hn : _n_new_epochs self0 = 0)
    (Hevents : event_stream_connected <> Some false)
    (Hdelay : (0 <= acquisition_delay)%Q)
    (Hpicks : _picks_to_idx mne stream_info (_picks_init self0) true = Raise e) :
  exists self,
    connect mne self0 true stream_info event_stream_connected acquisition_delay
    = (self, Some e)
    /\ connected self = Raise AssertionError
    /\ n_new_epochs self = Raise AssertionError
    /\ (forall stream_connected stream_info' event_stream_connected' delay,
          connect mne self stream_connected stream_info' event_stream_connected'
                  delay = (self, Some AssertionError))
    /\ (forall stream_epochs event_stream_epochs,
          disconnect me self stream_epochs event_stream_epochs
          = (self, stream_epochs, event_stream_epochs, Some AssertionError))
    /\ (forall stream event_stream environ,
          acquire mne self stream event_stream environ
          = {| st_self := self; st_logged := []; st_raised := Some AssertionError;
               st_extracted := [] |}).
Proof.
  assert (Hc : connected (set_acquisition_delay self0 acquisition_delay)
               = Raise AssertionError).
  { apply connected_false_inv in H0 as (_ & Hb & Hi & Hp).
    unfold connected. simpl. rewrite Hb, Hi, Hp. reflexivity. }
  exists (set_acquisition_delay self0 acquisition_delay).
  split.
  { unfold connect. rewrite H0. simpl.
    assert (He : match event_stream_connected with
                 | Some c => negb c
                 | None => false
                 end = false).
    { destruct event_stream_connected as [[|]|]; try reflexivity.
      contradiction Hevents; reflexivity. }
    rewrite He.
    assert (Hd : Qltb acquisition_delay 0 = false).
    { unfold Qltb. apply negb_false_iff, Qle_bool_iff, Hdelay. }
    rewrite Hd. simpl. rewrite Hn. simpl. rewrite Hpicks. reflexivity. }
  split; [exact Hc|].
  split; [unfold n_new_epochs, _check_connected; rewrite Hc; reflexivity|].
  split; [intros; unfold connect; rewrite Hc; reflexivity|].
  split; [intros; unfold disconnect; rewrite Hc; reflexivity|].
  intros. unfold acquire, _check_connected. rewrite Hc. reflexivity.
Qed.

Lemma connect_failure_partial_state_witness :
  exists self,
    connect Demo.mne (DemoInit.built (PicksNames ["XYZ"%string])) true Demo.info100
            None 0
    = (self, Some ValueError)
    /\ disconnect 7 self [4; 7]%nat None = (self, [4; 7]%nat, None, Some AssertionError).
Proof.
  destruct (connect_failure_partial_state Demo.mne 7
              (DemoInit.built (PicksNames ["XYZ"%string])) Demo.info100 None 0
              ValueError)
    as (self & Hconnect & _ & _ & _ & Hd & _).
  - reflexivity.
  - reflexivity.
  - discriminate.
  - apply Qle_refl.
  - reflexivity.
  - exists self. split; [exact Hconnect | apply Hd].
Defined.
